(** * Speculative-decoding coordinator (vllm/spec_decode/spec_decode_worker.py)

    A shallow embedding of the coordinator's construction, cache sizing
    and block splitter, bookkeeping sets, control flow on driver and
    non-driver ranks, token verifier and output assembler, with the
    properties of the specification stated and settled against it, and
    further properties of the code. *)

From stdpp Require Import gmap strings list fin_maps.
Local Open Scope Z_scope.

(** ** Exceptions and fallible computations *)

Inductive exception :=
  | ZeroDivisionError | OverflowError | KeyError | IndexError
  | AssertionError | RuntimeError | StopIteration.

Definition result (A : Type) : Type := (exception + A)%type.

Definition ok {A} (a : A) : result A := inr a.
Definition raise {A} (e : exception) : result A := inl e.

#[global] Instance result_ret : MRet result := fun A a => inr a.
#[global] Instance result_bind : MBind result := fun A B f m =>
  match m with
  | inl e => inl e
  | inr a => f a
  end.

(** ** Python numbers *)

Module PyNum.

(** A finite binary64 value [mant * 2^expo]. *)
Record float64 := Float64 { mant : Z; expo : Z }.

(** Nearest integer to [n / d] for [0 < d], ties to the even neighbour. *)
Definition round_half_even (n d : Z) : Z :=
  let q := n / d in
  let r := n mod d in
  if 2 * r <? d then q
  else if d <? 2 * r then q + 1
  else if Z.even q then q else q + 1.

(** [a / (b * 2^e)], floored and rounded, for [0 <= a] and [0 < b]. *)
Definition scaled_floor (a b e : Z) : Z :=
  if 0 <=? e then a / (b * 2 ^ e) else (a * 2 ^ (- e)) / b.

Definition scaled_round (a b e : Z) : Z :=
  if 0 <=? e then round_half_even a (b * 2 ^ e)
  else round_half_even (a * 2 ^ (- e)) b.

(** The exponent at which the quotient has a 53-bit significand, not below
    the exponent of the subnormals. *)
Definition quotient_expo (a b : Z) : Z :=
  let e1 := Z.log2 a - Z.log2 b - 52 in
  let e := if scaled_floor a b e1 <? 2 ^ 52 then e1 - 1 else e1 in
  Z.max e (-1074).

(** Correctly rounded quotient of two positive integers. *)
Definition pos_true_divide (a b : Z) : result float64 :=
  let e := quotient_expo a b in
  let m := scaled_round a b e in
  if (971 <? e) || ((e =? 971) && (2 ^ 53 <=? m)) then inl OverflowError
  else inr (Float64 m e).

(** Python's [a / b] on two ints: the correctly rounded binary64 quotient. *)
Definition int_true_divide (a b : Z) : result float64 :=
  if b =? 0 then inl ZeroDivisionError
  else if a =? 0 then inr (Float64 0 0)
  else
    match pos_true_divide (Z.abs a) (Z.abs b) with
    | inl err => inl err
    | inr x => inr (Float64 (Z.sgn a * Z.sgn b * mant x) (expo x))
    end.

(** Python's [int(x)] on a finite float: truncation towards zero. *)
Definition int_of_float (x : float64) : Z :=
  if 0 <=? expo x then mant x * 2 ^ expo x
  else Z.quot (mant x) (2 ^ (- expo x)).

End PyNum.

(** ** Block splitter *)

Module BlockSplitter.
Import PyNum.

(** [split_num_cache_blocks_evenly]: [int(T * S / (P + S))] with Python's
    true division. *)
Definition split_num_cache_blocks_evenly
    (scorer_cache_block_size_bytes proposer_cache_block_size_bytes
     total_num_gpu_blocks : Z) : result Z :=
  match int_true_divide
          (total_num_gpu_blocks * scorer_cache_block_size_bytes)
          (proposer_cache_block_size_bytes + scorer_cache_block_size_bytes)
  with
  | inl err => inl err
  | inr x => inr (int_of_float x)
  end.

End BlockSplitter.

(** ** Auto-disable threshold *)

Module Threshold.

(** [disable_by_batch_size] after [__init__]: an int or [float("inf")]. *)
Inductive threshold := Finite (n : Z) | Infinity.

(** [disable_by_batch_size or float("inf")]: [None] and [0] are falsy. *)
Definition init_disable_by_batch_size (arg : option Z) : threshold :=
  match arg with
  | None => Infinity
  | Some n => if n =? 0 then Infinity else Finite n
  end.

(** [running_queue_size >= self.disable_by_batch_size]. *)
Definition _should_disable_all_speculation
    (disable_by_batch_size : threshold) (running_queue_size : Z) : bool :=
  match disable_by_batch_size with
  | Finite n => n <=? running_queue_size
  | Infinity => false
  end.

End Threshold.

(** ** Python sequences *)

Module PySeq.

(** [l[i]] for [0 <= i] and [l[-1]]: [IndexError] out of range. *)
Definition py_getitem {A} (l : list A) (i : nat) : result A :=
  match l !! i with
  | Some x => ok x
  | None => raise IndexError
  end.

Definition py_last {A} (l : list A) : result A :=
  match last l with
  | Some x => ok x
  | None => raise IndexError
  end.

(** [l[i]] for any int [i]: a negative index counts from the end. *)
Definition py_getitem_Z {A} (l : list A) (i : Z) : result A :=
  let i' := if i <? 0 then i + Z.of_nat (length l) else i in
  if i' <? 0 then raise IndexError else py_getitem l (Z.to_nat i').

(** A slice bound clamped into [0, len]. *)
Definition slice_bound (len : nat) (i : Z) : nat :=
  let i' := if i <? 0 then i + Z.of_nat len else i in
  Z.to_nat (Z.min (Z.max i' 0) (Z.of_nat len)).

(** [l[start:stop]], [l[:stop]] and [l[start:]]. *)
Definition py_slice {A} (l : list A) (start stop : Z) : list A :=
  let a := slice_bound (length l) start in
  let b := slice_bound (length l) stop in
  take (b - a) (drop a l).

Definition py_slice_to {A} (l : list A) (stop : Z) : list A :=
  take (slice_bound (length l) stop) l.

Definition py_slice_from {A} (l : list A) (start : Z) : list A :=
  drop (slice_bound (length l) start) l.

(** [[x] * n]: empty for [n <= 0]. *)
Definition py_repeat {A} (x : A) (n : Z) : list A := replicate (Z.to_nat n) x.

(** [[f(x) for x in l]] where [f] may raise. *)
Fixpoint mapM {A B} (f : A -> result B) (l : list A) : result (list B) :=
  match l with
  | [] => ok []
  | x :: l' => y ← f x; ys ← mapM f l'; ok (y :: ys)
  end.

End PySeq.

(** ** Data model *)

Module DataModel.

Record SamplingParams := {
  seed : option Z;
  prompt_logprobs : option Z
}.

Record SequenceData := {
  prompt_token_ids : list Z;
  _num_computed_tokens : Z
}.

(** [seq_data] is the dict from sequence id to its data, in dict order. *)
Record SequenceGroupMetadata := {
  request_id : string;
  is_prompt : bool;
  do_sample : bool;
  num_speculative_tokens : option Z;
  token_chunk_size : Z;
  sampling_params : SamplingParams;
  seq_data : list (Z * SequenceData)
}.

Record ExecuteModelRequest := {
  seq_group_metadata_list : list SequenceGroupMetadata;
  num_lookahead_slots : Z;
  running_queue_size : Z;
  finished_requests_ids : list string
}.

End DataModel.

(** ** Sampler outputs *)

Module Outputs.
Import PyNum.

(** A Python float: a finite binary64 value, an infinity or a NaN. *)
Inductive pyfloat := FFinite (x : float64) | FNegInf | FPosInf | FNan.

Definition float_zero : pyfloat := FFinite (Float64 0 0).

(** The arguments of one call of [create_logprobs_output]. *)
Record logprobs_output := {
  lo_token_id : Z;
  lo_token_id_logprob_rank : Z;
  lo_token_id_logprob : pyfloat;
  lo_topk_token_ids : list (option Z);
  lo_topk_logprobs : list (option pyfloat)
}.

(** The arguments of one call of [create_sequence_group_output]. *)
Record sequence_group_output := {
  sgo_token_id : Z;
  sgo_token_id_logprob_rank : Z;
  sgo_token_id_logprob : pyfloat;
  sgo_seq_id : Z;
  sgo_topk_token_ids : list (option Z);
  sgo_topk_logprobs : list (option pyfloat);
  sgo_prompt_logprobs : option (list logprobs_output);
  sgo_step_index : nat
}.

(** One entry of [SamplerOutput.outputs]: built by
    [create_sequence_group_output], or
    [CompletionSequenceGroupOutput(samples=[], prompt_logprobs=...)]. *)
Inductive CompletionSequenceGroupOutput :=
  | NoSamples (plogs : option (list logprobs_output))
  | Created (args : sequence_group_output).

Record SamplerOutput := {
  outputs : list CompletionSequenceGroupOutput;
  spec_decode_worker_metrics : option Z
}.

End Outputs.

(** ** Tensors *)

Module Tensor.
Import PySeq PyNum.

(** A 2-D integer tensor of shape [[length rows, ncols]]. *)
Record tensor2 := Tensor2 { ncols : nat; rows : list (list Z) }.

Definition wf_tensor2 (t : tensor2) : Prop :=
  Forall (fun r => length r = ncols t) (rows t).

(** A row of a probability or logprob tensor, [[k+1, V]] or [[k, V]]. *)
Definition prob_row : Type := list (list float64).

(** A 3-D tensor of hidden states, shape [[length slabs, nsteps, D]]. *)
Record tensor3 := Tensor3 { nsteps : nat; slabs : list (list (list float64)) }.

(** [t[indices]] along the first axis. *)
Definition index_select {A} (l : list A) (indices : list nat)
    : result (list A) :=
  mapM (py_getitem l) indices.

Definition index_rows (t : tensor2) (indices : list nat) : result tensor2 :=
  rs ← index_select (rows t) indices; ok (Tensor2 (ncols t) rs).

(** [t[indices, -1:]]. *)
Definition index_rows_last_col (t : tensor2) (indices : list nat)
    : result tensor2 :=
  rs ← index_select (rows t) indices;
  ok (Tensor2 (Nat.min 1 (ncols t)) ((fun r => py_slice_from r (-1)) <$> rs)).

(** [t.expand(-1, w)]: a column axis of size one is broadcast. *)
Definition expand_cols (t : tensor2) (w : Z) : result tensor2 :=
  if w =? -1 then ok t
  else if w <? 0 then raise RuntimeError
  else if decide (ncols t = Z.to_nat w) then ok t
  else if decide (ncols t = 1%nat) then
    ok (Tensor2 (Z.to_nat w)
          ((fun r => match r with
                     | x :: _ => replicate (Z.to_nat w) x
                     | [] => []
                     end) <$> rows t))
  else raise RuntimeError.

(** [t[:, 1:] = v]. *)
Definition fill_cols_from_1 (t : tensor2) (v : Z) : tensor2 :=
  Tensor2 (ncols t)
    ((fun r => take 1 r ++ replicate (length r - 1) v) <$> rows t).

(** [torch.cat([a, b])] along the first axis. *)
Definition cat (a b : tensor2) : result tensor2 :=
  if decide (ncols a = ncols b) then ok (Tensor2 (ncols a) (rows a ++ rows b))
  else raise RuntimeError.

(** [dst[indices] = src] along the first axis, one row after the other. *)
Definition scatter_rows {A} (dst : list A) (indices : list nat) (src : list A)
    : list A :=
  foldl (fun acc ir => <[ir.1 := ir.2]> acc) dst (zip indices src).

Definition index_put (dst : tensor2) (indices : list nat) (src : tensor2)
    : result tensor2 :=
  if negb (bool_decide (ncols src = ncols dst)) then raise RuntimeError
  else if negb (forallb (fun i => Nat.ltb i (length (rows dst))) indices)
  then raise IndexError
  else if decide (length (rows src) = length indices) then
    ok (Tensor2 (ncols dst) (scatter_rows (rows dst) indices (rows src)))
  else
    match rows src with
    | [r] => ok (Tensor2 (ncols dst)
                   (scatter_rows (rows dst) indices
                      (replicate (length indices) r)))
    | _ => raise RuntimeError
    end.

(** [t.transpose(0, 1).tolist()]. *)
Definition transpose (t : tensor2) : list (list Z) :=
  (fun j => (fun r => default 0 (r !! j)) <$> rows t) <$> seq 0 (ncols t).

End Tensor.

(** ** Helpers imported by the worker *)

Module Util.
Import DataModel.

(** Modelled from the spec: [split_batch_by_proposal_len] of
    vllm/spec_decode/util.py is imported by the worker and is not part of
    its source file.  The batch partitioner takes the sequence metadata
    list and the per-sequence proposal lengths and returns two ordered
    lanes, the speculative one (proposal length above zero) and the
    non-speculative one (proposal length zero), each with its sequences and
    their indices in the original order. *)
Definition split_batch_by_proposal_len
    (seq_group_metadata_list : list SequenceGroupMetadata)
    (proposal_lens : list Z)
    : (list SequenceGroupMetadata * list nat)
      * (list SequenceGroupMetadata * list nat) :=
  let indexed :=
    zip (seq 0 (length seq_group_metadata_list))
        (zip seq_group_metadata_list proposal_lens) in
  let spec := filter (fun e => 0 < e.2.2) indexed in
  let non_spec := filter (fun e => e.2.2 = 0) indexed in
  (((fun e => e.2.1) <$> spec, (fun e => e.1) <$> spec),
   ((fun e => e.2.1) <$> non_spec, (fun e => e.1) <$> non_spec)).

(** Modelled from the spec: [get_all_seq_ids_and_request_ids] of
    vllm/sequence.py is imported by the worker and is not part of its
    source file.  It lists the sequence ids of the batch in batch order and
    maps every request id to the set of its sequence ids. *)
Definition get_all_seq_ids_and_request_ids
    (seq_group_metadata_list : list SequenceGroupMetadata)
    : list Z * gmap string (gset Z) :=
  (sg ← seq_group_metadata_list; fst <$> seq_data sg,
   foldl (fun acc sg =>
            <[request_id sg :=
                default ∅ (acc !! request_id sg)
                ∪ list_to_set (fst <$> seq_data sg)]> acc)
         ∅ seq_group_metadata_list).

End Util.

(** ** Verifier *)

Module Verifier.
Import PySeq PyNum DataModel Outputs Tensor Util.

Record SpeculativeProposals := {
  proposal_token_ids : tensor2;
  proposal_probs : list prob_row;
  proposal_lens : list Z;
  no_proposals : bool
}.

Record SpeculativeScores := {
  probs : list prob_row;
  token_ids : tensor2;
  logprobs : list prob_row;
  hidden_states : option tensor3;
  scores_prompt_logprobs : option (list (list logprobs_output))
}.

(** [HiddenStates(hidden_states, seq_group_metadata_list,
    second_last_token_hidden_states)]. *)
Record HiddenStates := {
  hs_hidden_states : list (list float64);
  hs_seq_group_metadata_list : list SequenceGroupMetadata;
  hs_second_last_token_hidden_states : list (list float64)
}.

(** The keyword arguments of one call of the acceptance sampler. *)
Record sampler_call := {
  target_with_bonus_probs : list prob_row;
  bonus_token_ids : tensor2;
  draft_probs : list prob_row;
  draft_token_ids : tensor2;
  seeded_seqs : option (list (nat * Z))
}.

(** What [_verify_tokens] reads from the worker: the acceptance sampler,
    whether it is a stochastic one, the per-request generators, and the
    constant [VLLM_INVALID_TOKEN_ID] of vllm/sequence.py. *)
Record verifier_env := {
  spec_decode_sampler : sampler_call -> result tensor2;
  sampler_is_stochastic : bool;
  generators : option (gmap string Z);
  VLLM_INVALID_TOKEN_ID : Z
}.

(** The dict comprehension building [seeded_seqs]. *)
Fixpoint build_seeded_seqs (gens : gmap string Z) (idx : nat)
    (seq_group_metadata_list : list SequenceGroupMetadata)
    : result (list (nat * Z)) :=
  match seq_group_metadata_list with
  | [] => ok []
  | sgm :: rest =>
      match seed (sampling_params sgm) with
      | Some _ =>
          match gens !! request_id sgm with
          | Some g =>
              tl ← build_seeded_seqs gens (S idx) rest; ok ((idx, g) :: tl)
          | None => raise KeyError
          end
      | None => build_seeded_seqs gens (S idx) rest
      end
  end.

Definition sampler_extra_kwargs (env : verifier_env)
    (seq_group_metadata_list : list SequenceGroupMetadata)
    : result (option (list (nat * Z))) :=
  match generators env with
  | Some gens =>
      if bool_decide (gens = ∅) then ok None
      else if sampler_is_stochastic env then
        d ← build_seeded_seqs gens 0 seq_group_metadata_list; ok (Some d)
      else ok None
  | None => ok None
  end.

(** The first part of [_verify_tokens], up to [torch.cat]: the sampler's
    rows followed by the rows of the non-speculative sequences, and
    [original_indices]. *)
Definition verify_concat (env : verifier_env)
    (seq_group_metadata_list : list SequenceGroupMetadata)
    (proposal_scores : SpeculativeScores) (proposals : SpeculativeProposals)
    (max_proposal_len : Z) : result (tensor2 * list nat) :=
  let proposal_lens_list := proposal_lens proposals in
  let '((_, spec_indices), (_, non_spec_indices)) :=
    split_batch_by_proposal_len seq_group_metadata_list proposal_lens_list in
  let original_indices := spec_indices ++ non_spec_indices in
  proposal_verifier_probs ← index_select (probs proposal_scores) spec_indices;
  non_spec_token_ids ← index_rows (token_ids proposal_scores) non_spec_indices;
  bonus ← index_rows_last_col (token_ids proposal_scores) spec_indices;
  p_probs ← index_select (proposal_probs proposals) spec_indices;
  p_token_ids ← index_rows (proposal_token_ids proposals) spec_indices;
  extra ← sampler_extra_kwargs env seq_group_metadata_list;
  accepted_token_ids ← spec_decode_sampler env
    {| target_with_bonus_probs := proposal_verifier_probs;
       bonus_token_ids := bonus;
       draft_probs := p_probs;
       draft_token_ids := p_token_ids;
       seeded_seqs := extra |};
  expanded ← expand_cols non_spec_token_ids (max_proposal_len + 1);
  let non_spec_token_ids := fill_cols_from_1 expanded (-1) in
  accepted_token_ids ← cat accepted_token_ids non_spec_token_ids;
  ok (accepted_token_ids, original_indices).

(** The accepted token ids after
    [accepted_token_ids[original_indices] = accepted_token_ids.clone()]. *)
Definition verify_accepted (env : verifier_env)
    (seq_group_metadata_list : list SequenceGroupMetadata)
    (proposal_scores : SpeculativeScores) (proposals : SpeculativeProposals)
    (max_proposal_len : Z) : result tensor2 :=
  concat ← verify_concat env seq_group_metadata_list proposal_scores
              proposals max_proposal_len;
  index_put concat.1 concat.2 concat.1.

(** [(accepted_token_ids + 1).count_nonzero(dim=1) - 1], per row. *)
Definition accepted_index_of (row : list Z) : Z :=
  Z.of_nat (length (filter (fun t => t + 1 <> 0) row)) - 1.

(** [hidden_states.gather(1, index).squeeze(1)], per row. *)
Definition gather_step (nsteps : nat) (slab_index : list (list float64) * Z)
    : result (list float64) :=
  let '(slab, i) := slab_index in
  if (i <? 0) || (Z.of_nat nsteps <=? i) then raise RuntimeError
  else py_getitem slab (Z.to_nat i).

(** The second part of [_verify_tokens]: the hidden states kept for the
    next step, when the scorer returned any. *)
Definition verify_hidden_states (env : verifier_env)
    (seq_group_metadata_list : list SequenceGroupMetadata)
    (hidden : tensor3) (accepted_token_ids : tensor2) : result HiddenStates :=
  let terminal_metadata := filter (fun sg => do_sample sg = true)
                             seq_group_metadata_list in
  let accepted_index := accepted_index_of <$> rows accepted_token_ids in
  if negb (bool_decide (length accepted_index = length (slabs hidden)))
  then raise IndexError
  else
    let kept := filter (fun si => si.2 <> VLLM_INVALID_TOKEN_ID env)
                  (zip (slabs hidden) accepted_index) in
    if negb (bool_decide (length kept = length terminal_metadata))
    then raise AssertionError
    else if Nat.ltb (nsteps hidden) 2 then raise IndexError
    else
      second_last ← mapM (fun si => py_getitem_Z si.1 (-2)) kept;
      hs ← mapM (gather_step (nsteps hidden)) kept;
      ok {| hs_hidden_states := hs;
            hs_seq_group_metadata_list := terminal_metadata;
            hs_second_last_token_hidden_states := second_last |}.

(** [_verify_tokens]: the accepted token ids, the scorer's logprobs, and
    the new value of [self.previous_hidden_states] when it is assigned. *)
Definition _verify_tokens (env : verifier_env)
    (seq_group_metadata_list : list SequenceGroupMetadata)
    (proposal_scores : SpeculativeScores) (proposals : SpeculativeProposals)
    (max_proposal_len : Z)
    : result (tensor2 * list prob_row * option HiddenStates) :=
  accepted_token_ids ← verify_accepted env seq_group_metadata_list
                         proposal_scores proposals max_proposal_len;
  match hidden_states proposal_scores with
  | None => ok (accepted_token_ids, logprobs proposal_scores, None)
  | Some hidden =>
      hs ← verify_hidden_states env seq_group_metadata_list hidden
             accepted_token_ids;
      ok (accepted_token_ids, logprobs proposal_scores, Some hs)
  end.

End Verifier.

(** ** Bonus-token bookkeeping *)

Module Bookkeeping.
Import PySeq.

(** The two bookkeeping attributes of the worker. *)
Record tracker := Tracker {
  _seq_with_bonus_token_in_last_step : gset Z;
  _request_id_seq_id_mapping : gmap string (gset Z)
}.

(** [d[k]] on a [defaultdict(set)]: a missing key is created empty. *)
Definition defaultdict_getitem (d : gmap string (gset Z)) (k : string)
    : gset Z * gmap string (gset Z) :=
  match d !! k with
  | Some s => (s, d)
  | None => (∅, <[k := ∅]> d)
  end.

(** [del d[k]]: raises [KeyError] on a missing key. *)
Definition dict_delitem (d : gmap string (gset Z)) (k : string)
    : result (gmap string (gset Z)) :=
  match d !! k with
  | Some _ => ok (delete k d)
  | None => raise KeyError
  end.

(** [for seq_id in seqs: bonus.discard(seq_id)]. *)
Definition discard_each (seqs bonus : gset Z) : gset Z :=
  set_fold (fun seq_id acc => acc ∖ {[seq_id]}) bonus seqs.

Fixpoint _track_finished_requests
    (finished_requests_ids : list string) (t : tracker) : result tracker :=
  match finished_requests_ids with
  | [] => ok t
  | finished_request :: rest =>
      let '(seqs, d) :=
        defaultdict_getitem (_request_id_seq_id_mapping t) finished_request in
      let bonus := discard_each seqs (_seq_with_bonus_token_in_last_step t) in
      d' ← dict_delitem d finished_request;
      _track_finished_requests rest (Tracker bonus d')
  end.

(** The first loop of [_track_sequences_with_bonus_tokens], over
    [enumerate(seq_ids)] from index [seq_index] on. *)
Fixpoint track_bonus_loop (accepted_token_ids_by_step : list (list Z))
    (seq_index : nat) (seq_ids : list Z) (bonus : gset Z)
    : result (gset Z) :=
  match seq_ids with
  | [] => ok bonus
  | seq_id :: rest =>
      row ← py_last accepted_token_ids_by_step;
      last_token_id ← py_getitem row seq_index;
      track_bonus_loop accepted_token_ids_by_step (S seq_index) rest
        (if last_token_id =? -1 then bonus ∖ {[seq_id]}
         else {[seq_id]} ∪ bonus)
  end.

(** The second loop: [mapping[request_id].update(sequences)]. *)
Definition update_mapping (request_ids_seq_ids_mapping d : gmap string (gset Z))
    : gmap string (gset Z) :=
  map_fold (fun request_id sequences acc =>
              let '(cur, acc') := defaultdict_getitem acc request_id in
              <[request_id := cur ∪ sequences]> acc')
           d request_ids_seq_ids_mapping.

Definition _track_sequences_with_bonus_tokens
    (seq_ids : list Z) (request_ids_seq_ids_mapping : gmap string (gset Z))
    (accepted_token_ids_by_step : list (list Z)) (t : tracker)
    : result tracker :=
  bonus ← track_bonus_loop accepted_token_ids_by_step 0 seq_ids
             (_seq_with_bonus_token_in_last_step t);
  ok (Tracker bonus
        (update_mapping request_ids_seq_ids_mapping
           (_request_id_seq_id_mapping t))).

End Bookkeeping.

(** ** Output assembler *)

Module Assembler.
Import PySeq PyNum DataModel Outputs Tensor Util Bookkeeping.

(** The four by-step lists of ranks, logprobs and top-k entries. *)
Record logprob_lists := {
  accepted_token_id_ranks_by_step : list (list Z);
  accepted_token_id_logprobs_by_step : list (list pyfloat);
  topk_logprobs_by_step : list (list (list (option pyfloat)));
  topk_indices_by_step : list (list (list (option Z)))
}.

(** What the assembler reads from the worker and its collaborators:
    [_disable_logprobs], the scorer's [model_config.max_logprobs], and the
    helpers [_create_logprob_lists_from_tensors] (tensor arithmetic),
    [get_all_num_logprobs] (vllm/spec_decode/util.py) and
    [maybe_collect_rejsample_metrics] (the metrics collector). *)
Record assembler_env := {
  _disable_logprobs : bool;
  max_logprobs : Z;
  _create_logprob_lists_from_tensors :
    list prob_row -> list (list Z) -> Z -> logprob_lists;
  get_all_num_logprobs : list SequenceGroupMetadata -> list Z;
  maybe_collect_rejsample_metrics : Z -> option Z
}.

Definition _create_dummy_logprob_lists (batch_size num_steps : nat)
    (num_top_k : Z) : logprob_lists :=
  {| accepted_token_id_ranks_by_step :=
       replicate num_steps (replicate batch_size (-1));
     accepted_token_id_logprobs_by_step :=
       replicate num_steps (replicate batch_size float_zero);
     topk_logprobs_by_step :=
       replicate num_steps (replicate batch_size (py_repeat None num_top_k));
     topk_indices_by_step :=
       replicate num_steps (replicate batch_size (py_repeat None num_top_k))
  |}.

(** [create_logprobs_output(token_id=p, token_id_logprob_rank=-1,
    token_id_logprob=0.0, topk_token_ids=[], topk_logprobs=[])]. *)
Definition dummy_prompt_logprob (p_token_id : Z) : logprobs_output :=
  {| lo_token_id := p_token_id;
     lo_token_id_logprob_rank := -1;
     lo_token_id_logprob := float_zero;
     lo_topk_token_ids := [];
     lo_topk_logprobs := [] |}.

(** [plp is not None and plp > 0], also the truth value of
    [plp and plp > 0]. *)
Definition wants_prompt_logprobs (sg : SequenceGroupMetadata) : bool :=
  match prompt_logprobs (sampling_params sg) with
  | Some n => 0 <? n
  | None => false
  end.

(** The prompt logprobs of one prefill record in
    [_create_output_sampler_list]. *)
Definition prefill_plogs (prompt_logprobs_arg : option (list (list logprobs_output)))
    (i : nat) (sg : SequenceGroupMetadata)
    : result (option (list logprobs_output)) :=
  match prompt_logprobs_arg with
  | Some pl => x ← py_getitem pl i; ok (Some x)
  | None =>
      if wants_prompt_logprobs sg then
        match seq_data sg with
        | [] => raise StopIteration
        | (_, sd) :: _ =>
            let ids := py_slice (prompt_token_ids sd)
                         (_num_computed_tokens sd)
                         (_num_computed_tokens sd + token_chunk_size sg) in
            let ids := if _num_computed_tokens sd =? 0
                       then py_slice_from ids 1 else ids in
            ok (Some (dummy_prompt_logprob <$> ids))
        end
      else ok None
  end.

Section CreateOutput.
Variables (seq_group_metadata_list : list SequenceGroupMetadata)
          (accepted_token_ids : tensor2)
          (accepted_token_ids_by_step : list (list Z))
          (lists : logprob_lists)
          (seq_ids : list Z)
          (num_logprobs_per_seq : list Z)
          (prompt_logprobs_arg : option (list (list logprobs_output))).

(** [xs[step][i]]. *)
Definition at2 {A} (xs : list (list A)) (step i : nat) : result A :=
  r ← py_getitem xs step; py_getitem r i.

(** The loop over the leading prefill records. *)
Fixpoint prefill_outputs (i : nat) (sgs : list SequenceGroupMetadata)
    : result (list SamplerOutput) :=
  match sgs with
  | [] => ok []
  | sg :: rest =>
      if negb (is_prompt sg) then ok []
      else
        num_logprobs ← py_getitem num_logprobs_per_seq i;
        sid ← py_getitem seq_ids i;
        kw ← (if do_sample sg then
                tok ← at2 (rows accepted_token_ids) i 0;
                rk ← at2 (accepted_token_id_ranks_by_step lists) 0 i;
                lp ← at2 (accepted_token_id_logprobs_by_step lists) 0 i;
                ti ← at2 (topk_indices_by_step lists) 0 i;
                tl ← at2 (topk_logprobs_by_step lists) 0 i;
                ok (tok, rk, lp, py_slice_to ti num_logprobs,
                    py_slice_to tl num_logprobs)
              else
                ok (-1, 0, FNegInf, py_repeat (Some (-1)) num_logprobs,
                    py_repeat (Some FNegInf) num_logprobs));
        plogs ← prefill_plogs prompt_logprobs_arg i sg;
        let '(tok, rk, lp, ti, tl) := kw in
        let out := Created
          {| sgo_token_id := tok;
             sgo_token_id_logprob_rank := rk;
             sgo_token_id_logprob := lp;
             sgo_seq_id := sid;
             sgo_topk_token_ids := ti;
             sgo_topk_logprobs := tl;
             sgo_prompt_logprobs := plogs;
             sgo_step_index := 0 |} in
        tl' ← prefill_outputs (S i) rest;
        ok ({| outputs := [out]; spec_decode_worker_metrics := None |}
            :: tl')
  end.

(** The inner loop of one decode step, over the sequence indices. *)
Fixpoint decode_step (step_index : nat) (indices : list nat)
    : result (list CompletionSequenceGroupOutput) :=
  match indices with
  | [] => ok []
  | sequence_index :: rest =>
      seq_meta ← py_getitem seq_group_metadata_list sequence_index;
      if is_prompt seq_meta then decode_step step_index rest
      else
        num_logprobs ← py_getitem num_logprobs_per_seq sequence_index;
        tok ← at2 accepted_token_ids_by_step step_index sequence_index;
        rk ← at2 (accepted_token_id_ranks_by_step lists)
               step_index sequence_index;
        lp ← at2 (accepted_token_id_logprobs_by_step lists)
               step_index sequence_index;
        sid ← py_getitem seq_ids sequence_index;
        ti ← at2 (topk_indices_by_step lists) step_index sequence_index;
        tl ← at2 (topk_logprobs_by_step lists) step_index sequence_index;
        let out := Created
          {| sgo_token_id := tok;
             sgo_token_id_logprob_rank := rk;
             sgo_token_id_logprob := lp;
             sgo_seq_id := sid;
             sgo_topk_token_ids := py_slice_to ti num_logprobs;
             sgo_topk_logprobs := py_slice_to tl num_logprobs;
             sgo_prompt_logprobs := None;
             sgo_step_index := step_index |} in
        tl' ← decode_step step_index rest;
        ok (out :: tl')
  end.

(** Whether every decode row holds -1 at this step. *)
Definition all_decodes_padded (step_row : list Z) : bool :=
  forallb (fun st => is_prompt st.1 || (st.2 =? -1))
          (zip seq_group_metadata_list step_row).

(** The loop over the steps, left at the first all-pad step. *)
Fixpoint decode_outputs (batch_size : nat) (steps : list nat)
    : result (list SamplerOutput) :=
  match steps with
  | [] => ok []
  | step_index :: rest =>
      step_row ← py_getitem accepted_token_ids_by_step step_index;
      if all_decodes_padded step_row then ok []
      else
        outs ← decode_step step_index (seq 0 batch_size);
        tl' ← decode_outputs batch_size rest;
        ok ({| outputs := outs; spec_decode_worker_metrics := None |}
            :: tl')
  end.

End CreateOutput.

(** [sampler_output_list[0].spec_decode_worker_metrics = metrics]. *)
Definition attach_metrics (metrics : option Z) (l : list SamplerOutput)
    : result (list SamplerOutput) :=
  match metrics with
  | None => ok l
  | Some m =>
      match l with
      | [] => raise IndexError
      | o :: l' =>
          ok ({| outputs := outputs o;
                 spec_decode_worker_metrics := Some m |} :: l')
      end
  end.

(** [_create_output_sampler_list]: the per-step outputs and the updated
    bookkeeping. *)
Definition _create_output_sampler_list (env : assembler_env) (t : tracker)
    (seq_group_metadata_list : list SequenceGroupMetadata)
    (accepted_token_ids : tensor2) (target_logprobs : list prob_row)
    (prompt_logprobs_arg : option (list (list logprobs_output))) (k : Z)
    : result (list SamplerOutput * tracker) :=
  let batch_size := length (rows accepted_token_ids) in
  let num_steps := ncols accepted_token_ids in
  let by_step := transpose accepted_token_ids in
  let lists :=
    if _disable_logprobs env
    then _create_dummy_logprob_lists batch_size num_steps (max_logprobs env)
    else _create_logprob_lists_from_tensors env target_logprobs by_step
           (max_logprobs env) in
  let '(seq_ids, request_ids_seq_ids_mapping) :=
    get_all_seq_ids_and_request_ids seq_group_metadata_list in
  let num_logprobs_per_seq :=
    get_all_num_logprobs env seq_group_metadata_list in
  prefills ← prefill_outputs accepted_token_ids lists seq_ids
                num_logprobs_per_seq prompt_logprobs_arg
                0 seq_group_metadata_list;
  decodes ← decode_outputs seq_group_metadata_list by_step lists seq_ids
               num_logprobs_per_seq batch_size (seq 0 num_steps);
  t' ← _track_sequences_with_bonus_tokens seq_ids
          request_ids_seq_ids_mapping by_step t;
  l ← attach_metrics (maybe_collect_rejsample_metrics env k)
         (prefills ++ decodes);
  ok (l, t').

(** [t[torch.where(t - invalid)[0]]]: a row once per entry that is not the
    invalid token id. *)
Definition drop_invalid_rows (invalid : Z) (t : tensor2) : list (list Z) :=
  r ← rows t; (fun _ => r) <$> filter (fun x => x - invalid <> 0) r.

(** The loop of [_serialize_sampler_output_no_logprobs] over the batch. *)
Fixpoint serialize_loop (sampled_token_ids_list : list (list Z))
    (seq_data_entries : list (Z * SequenceData))
    (idx output_index : nat) (sgs : list SequenceGroupMetadata)
    : result (list CompletionSequenceGroupOutput) :=
  match sgs with
  | [] => ok []
  | seq_group_meta :: rest =>
      entry ← py_getitem seq_data_entries idx;
      let '(sid, sd) := entry in
      let plogs :=
        if is_prompt seq_group_meta && wants_prompt_logprobs seq_group_meta
        then
          let start := if _num_computed_tokens sd =? 0 then 1
                       else _num_computed_tokens sd in
          let stop := _num_computed_tokens sd
                      + token_chunk_size seq_group_meta in
          Some (dummy_prompt_logprob
                  <$> py_slice (prompt_token_ids sd) start stop)
        else None in
      if negb (do_sample seq_group_meta) then
        tl' ← serialize_loop sampled_token_ids_list seq_data_entries
                 (S idx) output_index rest;
        ok (NoSamples plogs :: tl')
      else
        tok ← at2 sampled_token_ids_list output_index 0;
        let out := Created
          {| sgo_token_id := tok;
             sgo_token_id_logprob_rank := -1;
             sgo_token_id_logprob := float_zero;
             sgo_seq_id := sid;
             sgo_topk_token_ids := [];
             sgo_topk_logprobs := [];
             sgo_prompt_logprobs := plogs;
             sgo_step_index := 0 |} in
        tl' ← serialize_loop sampled_token_ids_list seq_data_entries
                 (S idx) (S output_index) rest;
        ok (out :: tl')
  end.

Definition _serialize_sampler_output_no_logprobs (invalid : Z)
    (seq_group_metadata_list : list SequenceGroupMetadata)
    (sampled_token_ids : tensor2) : result (list SamplerOutput) :=
  let seq_output_prompt_logprobs :=
    (fun sg => is_prompt sg && wants_prompt_logprobs sg)
      <$> seq_group_metadata_list in
  let sampled_token_ids_list :=
    if existsb id seq_output_prompt_logprobs
    then drop_invalid_rows invalid sampled_token_ids
    else rows sampled_token_ids in
  let seq_data_entries := sg ← seq_group_metadata_list; seq_data sg in
  outs ← serialize_loop sampled_token_ids_list seq_data_entries 0 0
            seq_group_metadata_list;
  ok [{| outputs := outs; spec_decode_worker_metrics := None |}].

End Assembler.

(** ** Step driver and non-driver loop *)

Module Control.
Import PySeq DataModel Outputs Tensor Util Threshold Bookkeeping Verifier
       Assembler.

(** The values of the control dict. *)
Inductive pyval := PInt (n : Z) | PBool (b : bool).

Definition truthy (v : pyval) : bool :=
  match v with
  | PInt n => negb (n =? 0)
  | PBool b => b
  end.

Definition as_int (v : pyval) : Z :=
  match v with
  | PInt n => n
  | PBool b => if b then 1 else 0
  end.

(** What a rank does that its peers can observe: a broadcast of a control
    dict, a forward pass of the proposer model, one of the scorer model. *)
Inductive event :=
  | Broadcast (d : gmap string pyval)
  | ProposerExecute
  | ScorerExecute.

(** A computation that emits events and may raise. *)
Definition traced (A : Type) : Type := (list event * result A)%type.

#[global] Instance traced_ret : MRet traced := fun A a => ([], inr a).
#[global] Instance traced_bind : MBind traced := fun A B f m =>
  match m.2 with
  | inl e => (m.1, inl e)
  | inr a => (m.1 ++ (f a).1, (f a).2)
  end.

Definition emit (e : event) : traced unit := ([e], inr tt).
Definition lift {A} (r : result A) : traced A := ([], r).

(** [for _ in range(n): body]. *)
Fixpoint repeat_n (n : nat) (body : traced unit) : traced unit :=
  match n with
  | O => mret tt
  | S n' => body ≫= fun _ => repeat_n n' body
  end.

Definition py_range (n : Z) : nat := Z.to_nat n.

Definition when (b : bool) (body : traced unit) : traced unit :=
  if b then body else mret tt.

(** *** Non-driver ranks *)

Definition dict_getitem (d : gmap string pyval) (k : string) : traced pyval :=
  match d !! k with
  | Some v => mret v
  | None => lift (raise KeyError)
  end.

(** [_run_non_driver_rank], on the dict received from the driver. *)
Definition _run_non_driver_rank (data : gmap string pyval) : traced bool :=
  if bool_decide (data = ∅) then mret false
  else
    num_lookahead_slots ← dict_getitem data "num_lookahead_slots";
    no_spec ← dict_getitem data "no_spec";
    when (truthy no_spec) (emit ScorerExecute) ≫= fun _ =>
    disable_all_speculation ← dict_getitem data "disable_all_speculation";
    when (negb (truthy disable_all_speculation))
      (repeat_n (py_range (Z.max (as_int num_lookahead_slots) 1))
         (emit ProposerExecute)) ≫= fun _ =>
    no_spec ← dict_getitem data "no_spec";
    (if negb (truthy no_spec) then
       emit ScorerExecute ≫= fun _ =>
       run_prefill ← dict_getitem data "run_spec_proposer_for_prefill";
       when (truthy run_prefill) (emit ProposerExecute)
     else mret tt) ≫= fun _ =>
    mret true.

(** How [start_worker_execution_loop] ends on the dicts it receives: it
    returns, leaving the later broadcasts unread, or it waits for the next
    one. *)
Inductive loop_outcome :=
  | Returned (unread : list (gmap string pyval))
  | AwaitingBroadcast.

(** [while self._run_non_driver_rank(): pass]. *)
Fixpoint start_worker_execution_loop (incoming : list (gmap string pyval))
    : traced loop_outcome :=
  match incoming with
  | [] => mret AwaitingBroadcast
  | data :: rest =>
      more ← _run_non_driver_rank data;
      if more : bool then start_worker_execution_loop rest
      else mret (Returned rest)
  end.

(** *** Driver rank *)

(** The worker: configuration and bookkeeping.  The hidden-state buffer
    and the logging and timing statements are left out. *)
Record SpecDecodeWorker := {
  disable_by_batch_size : threshold;
  _num_spec_prefill_steps : Z;
  _allow_zero_draft_token_step : bool;
  bookkeeping : tracker;
  verifier : verifier_env;
  assembler : assembler_env
}.

Definition with_bookkeeping (w : SpecDecodeWorker) (t : tracker)
    : SpecDecodeWorker :=
  {| disable_by_batch_size := disable_by_batch_size w;
     _num_spec_prefill_steps := _num_spec_prefill_steps w;
     _allow_zero_draft_token_step := _allow_zero_draft_token_step w;
     bookkeeping := t;
     verifier := verifier w;
     assembler := assembler w |}.

(** What the scorer's [execute_model] returns in one list entry: the
    sampled token ids and the outputs it already carries. *)
Record scorer_output := {
  sampled_token_ids : tensor2;
  scorer_sampler_output : SamplerOutput
}.

(** The collaborators' answers during one step: the list returned by the
    scorer's [execute_model]; the proposals of [get_spec_proposals] and the
    number of forward passes the proposer ran for them; the scores of
    [score_proposals]. *)
Record collaborators := {
  scorer_execute_model : list scorer_output;
  get_spec_proposals : SpeculativeProposals;
  draft_forward_passes : nat;
  score_proposals : SpeculativeScores
}.

(** The control dict built by [execute_model]. *)
Definition broadcast_dict (num_lookahead_slots : Z)
    (no_spec disable_all_speculation atleast_one_prompt : bool)
    : gmap string pyval :=
  <["num_lookahead_slots" := PInt num_lookahead_slots]>
  (<["no_spec" := PBool no_spec]>
  (<["disable_all_speculation" := PBool disable_all_speculation]>
  (<["run_spec_proposer_for_prefill" := PBool atleast_one_prompt]> ∅))).

Definition _maybe_disable_speculative_tokens (disable_all_speculation : bool)
    (seq_group_metadata_list : list SequenceGroupMetadata)
    : list SequenceGroupMetadata :=
  if negb disable_all_speculation then seq_group_metadata_list
  else
    (fun sg =>
       {| request_id := request_id sg;
          is_prompt := is_prompt sg;
          do_sample := do_sample sg;
          num_speculative_tokens := Some 0;
          token_chunk_size := token_chunk_size sg;
          sampling_params := sampling_params sg;
          seq_data := seq_data sg |}) <$> seq_group_metadata_list.

Definition _run_no_spec (w : SpecDecodeWorker) (c : collaborators)
    (seq_group_metadata_list : list SequenceGroupMetadata)
    (skip_proposer : bool) : traced (list SamplerOutput) :=
  emit ScorerExecute ≫= fun _ =>
  sampler_output ← lift (match scorer_execute_model c with
                         | [so] => ok so
                         | _ => raise AssertionError
                         end);
  when (negb skip_proposer)
    (repeat_n (py_range (_num_spec_prefill_steps w))
       (emit ProposerExecute)) ≫= fun _ =>
  if _disable_logprobs (assembler w) then
    lift (_serialize_sampler_output_no_logprobs
            (VLLM_INVALID_TOKEN_ID (verifier w)) seq_group_metadata_list
            (sampled_token_ids sampler_output))
  else mret [scorer_sampler_output sampler_output].

Definition _run_speculative_decoding_step (w : SpecDecodeWorker)
    (c : collaborators)
    (seq_group_metadata_list : list SequenceGroupMetadata)
    (num_lookahead_slots : Z)
    : traced (list SamplerOutput * SpecDecodeWorker) :=
  let proposals := get_spec_proposals c in
  repeat_n (draft_forward_passes c) (emit ProposerExecute) ≫= fun _ =>
  (if negb (_allow_zero_draft_token_step w) && no_proposals proposals
   then lift (raise RuntimeError) else mret tt) ≫= fun _ =>
  emit ScorerExecute ≫= fun _ =>
  let proposal_scores := score_proposals c in
  let '(_, (non_spec_seqs, non_spec_indices)) :=
    split_batch_by_proposal_len seq_group_metadata_list
      (proposal_lens proposals) in
  non_spec_flags ← lift (mapM (fun idx =>
                            sg ← py_getitem seq_group_metadata_list idx;
                            ok (is_prompt sg)) non_spec_indices);
  when (existsb id non_spec_flags) (emit ProposerExecute) ≫= fun _ =>
  verified ← lift (_verify_tokens (verifier w) seq_group_metadata_list
                     proposal_scores proposals num_lookahead_slots);
  let '(accepted_token_ids, target_logprobs, _) := verified in
  (if num_lookahead_slots =? 0 then lift (raise ZeroDivisionError)
   else mret tt) ≫= fun _ =>
  out ← lift (_create_output_sampler_list (assembler w) (bookkeeping w)
                seq_group_metadata_list accepted_token_ids target_logprobs
                (if _disable_logprobs (assembler w) then None
                 else scores_prompt_logprobs proposal_scores)
                num_lookahead_slots);
  mret (out.1, with_bookkeeping w out.2).

(** [execute_model] on the driver rank; [None] is the request that stops
    the other ranks. *)
Definition execute_model (w : SpecDecodeWorker) (c : collaborators)
    (execute_model_req : option ExecuteModelRequest)
    : traced (list SamplerOutput * SpecDecodeWorker) :=
  match execute_model_req with
  | None => emit (Broadcast ∅) ≫= fun _ => mret ([], w)
  | Some req =>
      t ← lift (_track_finished_requests (finished_requests_ids req)
                  (bookkeeping w));
      let w := with_bookkeeping w t in
      let disable_all_speculation :=
        _should_disable_all_speculation (disable_by_batch_size w)
          (running_queue_size req) in
      let num_lookahead_slots := num_lookahead_slots req in
      let sgs := seq_group_metadata_list req in
      let all_prompt := forallb is_prompt sgs in
      let atleast_one_prompt := existsb is_prompt sgs in
      let all_zero_spec_tokens :=
        forallb (fun sgm =>
                   bool_decide (num_speculative_tokens sgm = Some 0)) sgs in
      (if all_prompt && negb (bool_decide (sgs = []))
          && negb (num_lookahead_slots =? 0)
       then lift (raise AssertionError) else mret tt) ≫= fun _ =>
      let no_spec := (num_lookahead_slots =? 0) || disable_all_speculation
                     || all_zero_spec_tokens in
      emit (Broadcast (broadcast_dict num_lookahead_slots no_spec
                         disable_all_speculation atleast_one_prompt))
        ≫= fun _ =>
      let sgs := _maybe_disable_speculative_tokens disable_all_speculation
                   sgs in
      if no_spec then
        out ← _run_no_spec w c sgs disable_all_speculation;
        mret (out, w)
      else _run_speculative_decoding_step w c sgs num_lookahead_slots
  end.

(** The forward passes in a trace, in their order. *)
Definition is_model_call (e : event) : bool :=
  match e with
  | Broadcast _ => false
  | ProposerExecute | ScorerExecute => true
  end.

Definition model_calls (tr : list event) : list event :=
  List.filter is_model_call tr.

End Control.

(** ** Cache sizing *)

Module CacheSizing.
Import BlockSplitter.

(** What [determine_num_available_blocks] asks of the two workers: the
    scorer's [(num_gpu_blocks, num_cpu_blocks)] and the two block sizes. *)
Record worker_profile := {
  scorer_num_available_blocks : Z * Z;
  scorer_cache_block_size_bytes : Z;
  proposer_cache_block_size_bytes : Z
}.

Definition determine_num_available_blocks (p : worker_profile)
    : result (Z * Z) :=
  let '(num_gpu_blocks, num_cpu_blocks) := scorer_num_available_blocks p in
  new_num_gpu_blocks ← split_num_cache_blocks_evenly
                         (scorer_cache_block_size_bytes p)
                         (proposer_cache_block_size_bytes p)
                         num_gpu_blocks;
  ok (new_num_gpu_blocks, num_cpu_blocks).

End CacheSizing.

(** ** Construction of the worker *)

Module Construction.
Import Outputs Tensor Threshold Bookkeeping Verifier Assembler Control.

(** What [create_worker] and [__init__] raise themselves. *)
Inductive creation_error := NotImplementedError | AttributeError.

Definition creation (A : Type) : Type := (creation_error + A)%type.

#[global] Instance creation_ret : MRet creation := fun A a => inr a.
#[global] Instance creation_bind : MBind creation := fun A B f m =>
  match m with
  | inl e => inl e
  | inr a => f a
  end.

(** [draft_worker_kwargs["vllm_config"].model_config]: the model type and
    [n_predict] of its [hf_config], and [max_model_len]. *)
Record draft_model_config := {
  model_type : string;
  n_predict : Z;
  max_model_len : Z
}.

(** The arguments of [create_worker] and what it reads from the scorer
    worker, the draft worker's kwargs and the platform. *)
Record create_worker_args := {
  ngram_prompt_lookup_max : Z;
  ngram_prompt_lookup_min : Z;
  draft_config : option draft_model_config;
  draft_tensor_parallel_size : Z;
  target_tensor_parallel_size : Z;
  is_cuda_alike : bool;
  scorer_attn_backend : string;
  scorer_max_model_len : Z;
  scorer_enforce_eager : bool;
  disable_mqa_scorer : bool;
  disable_by_batch_size_arg : option Z;
  draft_token_acceptance_method : string;
  typical_acceptance_sampler_posterior_threshold : pyfloat;
  typical_acceptance_sampler_posterior_alpha : pyfloat;
  disable_logprobs : bool;
  disable_log_stats : bool
}.

(** The proposer built: its class, for [MultiStepWorker] whether
    [model_runner_cls] was set to [TP1DraftModelRunner], for [NGramWorker]
    the window given to [set_ngram_window_size]. *)
Inductive proposer_worker :=
  | NGramWorker (ngram_min ngram_max : Z)
  | MLPSpeculatorWorker
  | MedusaWorker
  | MultiStepWorker (tp1_draft_model_runner : bool).

Inductive sampler_kind :=
  | RejectionSampler
  | TypicalAcceptanceSampler (posterior_threshold posterior_alpha : pyfloat).

(** The arguments [create_worker] passes to [SpecDecodeWorker(...)];
    [maybe_wrap_worker] holds the two TP degrees given to
    [SmallerTpProposerWorker.maybe_wrap_worker], when it is called. *)
Record worker_init_args := {
  init_proposer_worker : proposer_worker;
  init_maybe_wrap_worker : option (Z * Z);
  init_disable_mqa_scorer : bool;
  init_disable_logprobs : bool;
  init_disable_log_stats : bool;
  init_disable_by_batch_size : option Z;
  init_spec_decode_sampler : option sampler_kind;
  init_allow_zero_draft_token_step : bool;
  init_enable_lm_head_weight_load : bool;
  init_num_spec_prefill_steps : Z
}.

(** The choice of the proposer: the worker, the TP degrees for
    [maybe_wrap_worker], [allow_zero_draft_token_step],
    [enable_lm_head_weight_load] and [num_spec_prefill_steps]. *)
Definition choose_proposer (a : create_worker_args)
    : creation (proposer_worker * option (Z * Z) * bool * bool * Z) :=
  if 0 <? ngram_prompt_lookup_max a then
    mret (NGramWorker (ngram_prompt_lookup_min a) (ngram_prompt_lookup_max a),
          None, true, false, 1)
  else
    let draft_tp := draft_tensor_parallel_size a in
    let target_tp := target_tensor_parallel_size a in
    match draft_config a with
    | None => inl AttributeError
    | Some cfg =>
        if bool_decide (model_type cfg = "mlp_speculator") then
          mret (MLPSpeculatorWorker, Some (draft_tp, target_tp),
                true, false, 1)
        else if bool_decide (model_type cfg = "medusa") then
          mret (MedusaWorker, Some (draft_tp, target_tp), true, false, 1)
        else
          flags ← (if draft_tp =? 1 then mret (is_cuda_alike a, true)
                   else if bool_decide (model_type cfg = "eagle")
                        then inl NotImplementedError
                        else mret (false, false));
          let '(tp1_runner, allow_zero_draft_token_step) := flags in
          let enable_lm_head_weight_load :=
            bool_decide (model_type cfg = "eagle") in
          let num_spec_prefill_steps :=
            if bool_decide (model_type cfg = "deepseek_mtp")
            then n_predict cfg else 1 in
          mret (MultiStepWorker tp1_runner, Some (draft_tp, target_tp),
                allow_zero_draft_token_step, enable_lm_head_weight_load,
                num_spec_prefill_steps)
    end.

Definition choose_sampler (a : create_worker_args) : option sampler_kind :=
  if bool_decide (draft_token_acceptance_method a = "rejection_sampler")
  then Some RejectionSampler
  else if bool_decide (draft_token_acceptance_method a
                       = "typical_acceptance_sampler")
  then Some (TypicalAcceptanceSampler
               (typical_acceptance_sampler_posterior_threshold a)
               (typical_acceptance_sampler_posterior_alpha a))
  else None.

(** The three checks that switch the MQA scorer off. *)
Definition choose_disable_mqa_scorer (a : create_worker_args) : bool :=
  let disable_mqa_scorer := disable_mqa_scorer a in
  if negb disable_mqa_scorer then
    let disable_mqa_scorer :=
      if negb (bool_decide (scorer_attn_backend a = "FLASH_ATTN"))
      then true else disable_mqa_scorer in
    let disable_mqa_scorer :=
      match draft_config a with
      | Some cfg =>
          if max_model_len cfg <? scorer_max_model_len a
          then true else disable_mqa_scorer
      | None => disable_mqa_scorer
      end in
    let disable_mqa_scorer :=
      if negb (scorer_enforce_eager a) then true else disable_mqa_scorer in
    disable_mqa_scorer
  else disable_mqa_scorer.

(** [create_worker] up to its last statement: the arguments it computes
    for [SpecDecodeWorker(...)], or what it raises before that call. *)
Definition constructor_arguments (a : create_worker_args)
    : creation worker_init_args :=
  chosen ← choose_proposer a;
  let '(proposer, wrap, allow_zero_draft_token_step,
        enable_lm_head_weight_load, num_spec_prefill_steps) := chosen in
  mret {| init_proposer_worker := proposer;
          init_maybe_wrap_worker := wrap;
          init_disable_mqa_scorer := choose_disable_mqa_scorer a;
          init_disable_logprobs := disable_logprobs a;
          init_disable_log_stats := disable_log_stats a;
          init_disable_by_batch_size := disable_by_batch_size_arg a;
          init_spec_decode_sampler := choose_sampler a;
          init_allow_zero_draft_token_step := allow_zero_draft_token_step;
          init_enable_lm_head_weight_load := enable_lm_head_weight_load;
          init_num_spec_prefill_steps := num_spec_prefill_steps |}.

(** What [__init__] takes from the objects it is given: the generators of
    the scorer's model runner, the sampler as a function with its class
    (stochastic or not), and the collaborators of the assembler. *)
Record init_environment := {
  env_generators : option (gmap string Z);
  env_sampler : sampler_call -> result tensor2;
  env_sampler_is_stochastic : bool;
  env_invalid_token_id : Z;
  env_max_logprobs : Z;
  env_create_logprob_lists_from_tensors :
    list prob_row -> list (list Z) -> Z -> logprob_lists;
  env_get_all_num_logprobs : list DataModel.SequenceGroupMetadata -> list Z;
  env_maybe_collect_rejsample_metrics : Z -> option Z
}.

(** [__init__]: without a sampler the read of
    [self.spec_decode_sampler.probs_dtype] raises. *)
Definition __init__ (args : worker_init_args) (e : init_environment)
    : creation SpecDecodeWorker :=
  match init_spec_decode_sampler args with
  | None => inl AttributeError
  | Some _ =>
      mret {| Control.disable_by_batch_size :=
                Threshold.init_disable_by_batch_size
                  (init_disable_by_batch_size args);
              _num_spec_prefill_steps := init_num_spec_prefill_steps args;
              _allow_zero_draft_token_step :=
                init_allow_zero_draft_token_step args;
              bookkeeping := Tracker ∅ ∅;
              verifier :=
                {| spec_decode_sampler := env_sampler e;
                   sampler_is_stochastic := env_sampler_is_stochastic e;
                   generators := env_generators e;
                   VLLM_INVALID_TOKEN_ID := env_invalid_token_id e |};
              assembler :=
                {| _disable_logprobs := init_disable_logprobs args;
                   max_logprobs := env_max_logprobs e;
                   _create_logprob_lists_from_tensors :=
                     env_create_logprob_lists_from_tensors e;
                   get_all_num_logprobs := env_get_all_num_logprobs e;
                   maybe_collect_rejsample_metrics :=
                     env_maybe_collect_rejsample_metrics e |} |}
  end.

(** [create_worker]: the arguments are computed, then
    [SpecDecodeWorker(...)] runs [__init__] on them. *)
Definition create_worker (a : create_worker_args) (e : init_environment)
    : creation SpecDecodeWorker :=
  args ← constructor_arguments a;
  __init__ args e.

End Construction.

(** ** Closed forms used to state the properties *)

Module Reference.
Import DataModel Outputs Tensor Bookkeeping Assembler Control.

(** One finished request: its sequence ids leave the bonus set and its
    entry leaves the map. *)
Definition finish_request (t : tracker) (finished_request : string)
    : tracker :=
  Tracker
    (_seq_with_bonus_token_in_last_step t
       ∖ default ∅ (_request_id_seq_id_mapping t !! finished_request))
    (delete finished_request (_request_id_seq_id_mapping t)).

(** The calls of a non-driver rank for one non-empty control dict, in the
    words of the specification: the scorer if [no_spec]; the proposer
    [max(num_lookahead_slots, 1)] times unless all speculation is disabled;
    then, unless [no_spec], the scorer and one more proposer call if
    [run_spec_proposer_for_prefill]. *)
Definition non_driver_calls (num_lookahead_slots : Z)
    (no_spec disable_all_speculation run_spec_proposer_for_prefill : bool)
    : list event :=
  (if no_spec then [ScorerExecute] else [])
  ++ (if disable_all_speculation then []
      else replicate (Z.to_nat (Z.max num_lookahead_slots 1)) ProposerExecute)
  ++ (if no_spec then []
      else ScorerExecute
           :: (if run_spec_proposer_for_prefill then [ProposerExecute]
               else [])).

(** The calls of the driver in [_run_no_spec]. *)
Definition no_spec_driver_calls (num_spec_prefill_steps : Z)
    (skip_proposer : bool) : list event :=
  ScorerExecute
  :: (if skip_proposer then []
      else replicate (Z.to_nat num_spec_prefill_steps) ProposerExecute).

(** What the outputs hold when logprobs are disabled. *)
Definition dummy_logprob (x : pyfloat) : Prop := x = FNegInf \/ x = float_zero.

(** Prompt logprobs built without the scorer's tensors: logprob 0.0 and
    empty top-k lists. *)
Definition dummy_prompt_logprobs (plogs : option (list logprobs_output))
    : Prop :=
  match plogs with
  | None => True
  | Some l =>
      Forall (fun lo => lo_token_id_logprob lo = float_zero
                        /\ lo_topk_token_ids lo = []
                        /\ lo_topk_logprobs lo = []) l
  end.

(** Top-k lists of placeholders: a prefix of the dummy lists of
    [max_logprobs] entries [None], or, for a prefill chunk without sampled
    token, entries -1 and -inf. *)
Definition sentinel_topk (max_logprobs : Z) (a : sequence_group_output)
    : Prop :=
  ((exists n, (n <= Z.to_nat max_logprobs)%nat
              /\ sgo_topk_token_ids a = replicate n None
              /\ sgo_topk_logprobs a = replicate n None)
   \/ (exists n, sgo_token_id a = -1
                 /\ sgo_token_id_logprob a = FNegInf
                 /\ sgo_topk_token_ids a = replicate n (Some (-1))
                 /\ sgo_topk_logprobs a = replicate n (Some FNegInf))).

Definition dummy_entry (max_logprobs : Z) (e : CompletionSequenceGroupOutput)
    : Prop :=
  match e with
  | NoSamples plogs => dummy_prompt_logprobs plogs
  | Created a =>
      dummy_logprob (sgo_token_id_logprob a)
      /\ dummy_prompt_logprobs (sgo_prompt_logprobs a)
      /\ sentinel_topk max_logprobs a
  end.

Definition dummy_outputs (max_logprobs : Z) (outs : list SamplerOutput)
    : Prop :=
  Forall (fun o => Forall (dummy_entry max_logprobs) (outputs o)) outs.

(** The claim on the length of the top-k lists, as the specification
    words it. *)
Definition topk_of_configured_length (max_logprobs : Z)
    (outs : list SamplerOutput) : Prop :=
  forall o a, o ∈ outs -> Created a ∈ outputs o ->
    length (sgo_topk_token_ids a) = Z.to_nat max_logprobs
    /\ length (sgo_topk_logprobs a) = Z.to_nat max_logprobs.

(** A control message of the driver, its dict and the calls a non-driver
    rank makes for it. *)
Record control := Control {
  c_num_lookahead_slots : Z;
  c_no_spec : bool;
  c_disable_all_speculation : bool;
  c_run_spec_proposer_for_prefill : bool
}.

Definition control_dict (c : control) : gmap string pyval :=
  broadcast_dict (c_num_lookahead_slots c) (c_no_spec c)
    (c_disable_all_speculation c) (c_run_spec_proposer_for_prefill c).

Definition control_calls (c : control) : list event :=
  non_driver_calls (c_num_lookahead_slots c) (c_no_spec c)
    (c_disable_all_speculation c) (c_run_spec_proposer_for_prefill c).

End Reference.

(** ** The bookkeeping of the worker across steps *)

Module StepState.
Import DataModel Outputs Threshold Util Bookkeeping Control.

(** Every sequence id in the bonus set belongs to a request that has an
    entry in the request map. *)
Definition bonus_ids_owned (t : tracker) : Prop :=
  forall s, s ∈ _seq_with_bonus_token_in_last_step t ->
    exists r seqs, _request_id_seq_id_mapping t !! r = Some seqs /\ s ∈ seqs.

(** [no_spec] as [execute_model] computes it for a request. *)
Definition step_no_spec (w : SpecDecodeWorker) (req : ExecuteModelRequest)
    : bool :=
  (num_lookahead_slots req =? 0)
  || _should_disable_all_speculation (disable_by_batch_size w)
       (running_queue_size req)
  || forallb (fun sgm => bool_decide (num_speculative_tokens sgm = Some 0))
       (seq_group_metadata_list req).

(** The sequence ids of a batch, in batch order. *)
Definition batch_seq_ids (sgs : list SequenceGroupMetadata) : list Z :=
  (get_all_seq_ids_and_request_ids sgs).1.

(** The workers reached from [w0] by steps of the driver that return. *)
Inductive steps_from (w0 : SpecDecodeWorker) : SpecDecodeWorker -> Prop :=
  | steps_none : steps_from w0 w0
  | steps_more (w w' : SpecDecodeWorker) (c : collaborators)
      (req : ExecuteModelRequest) (tr : list event)
      (outs : list SamplerOutput) :
      steps_from w0 w ->
      execute_model w c (Some req) = (tr, inr (outs, w')) ->
      steps_from w0 w'.

End StepState.

(** ** Counts used to state the shape of the outputs *)

Module Shapes.
Import DataModel Tensor Assembler.

(** The prompts at the head of the batch, before the first decode. *)
Fixpoint leading_prompts (sgs : list SequenceGroupMetadata) : nat :=
  match sgs with
  | [] => 0
  | sg :: rest => if is_prompt sg then S (leading_prompts rest) else 0
  end.

(** The steps before the first one at which every decode holds -1. *)
Fixpoint live_steps (sgs : list SequenceGroupMetadata)
    (by_step : list (list Z)) : nat :=
  match by_step with
  | [] => 0
  | step_row :: rest =>
      if all_decodes_padded sgs step_row then 0
      else S (live_steps sgs rest)
  end.

End Shapes.

(** ** Concrete batches and workers *)

Module Scenarios.
Import PyNum DataModel Outputs Tensor Threshold Bookkeeping Verifier
       Assembler Control.

Definition no_sampling_params : SamplingParams :=
  {| seed := None; prompt_logprobs := None |}.

(** A prompt of five tokens, scheduled in one chunk. *)
Definition prompt_record (rid : string) (sid : Z) : SequenceGroupMetadata :=
  {| request_id := rid;
     is_prompt := true;
     do_sample := true;
     num_speculative_tokens := None;
     token_chunk_size := 5;
     sampling_params := no_sampling_params;
     seq_data := [(sid, {| prompt_token_ids := [11; 12; 13; 14; 15];
                           _num_computed_tokens := 0 |})] |}.

(** A decoding sequence with [n] speculative tokens configured. *)
Definition decode_record (rid : string) (sid : Z) (n : Z)
    : SequenceGroupMetadata :=
  {| request_id := rid;
     is_prompt := false;
     do_sample := true;
     num_speculative_tokens := Some n;
     token_chunk_size := 1;
     sampling_params := no_sampling_params;
     seq_data := [(sid, {| prompt_token_ids := [11; 12; 13; 14; 15];
                           _num_computed_tokens := 5 |})] |}.

Definition idle_verifier : verifier_env :=
  {| spec_decode_sampler := fun _ => raise RuntimeError;
     sampler_is_stochastic := false;
     generators := None;
     VLLM_INVALID_TOKEN_ID := -1 |}.

Definition plain_assembler (disable_logprobs : bool) : assembler_env :=
  {| _disable_logprobs := disable_logprobs;
     max_logprobs := 5;
     _create_logprob_lists_from_tensors := fun _ _ _ =>
       {| accepted_token_id_ranks_by_step := [];
          accepted_token_id_logprobs_by_step := [];
          topk_logprobs_by_step := [];
          topk_indices_by_step := [] |};
     get_all_num_logprobs := fun sgs => (fun _ => 0) <$> sgs;
     maybe_collect_rejsample_metrics := fun _ => None |}.

(** A worker as [create_worker] builds it, with [n] speculative prefill
    steps ([n_predict] of a deepseek_mtp draft model, otherwise one). *)
Definition worker_with_prefill_steps (n : Z) : SpecDecodeWorker :=
  {| disable_by_batch_size := Infinity;
     _num_spec_prefill_steps := n;
     _allow_zero_draft_token_step := true;
     bookkeeping := Tracker ∅ ∅;
     verifier := idle_verifier;
     assembler := plain_assembler false |}.

Definition scorer_reply (toks : list Z) : scorer_output :=
  {| sampled_token_ids := Tensor2 1 ((fun t => [t]) <$> toks);
     scorer_sampler_output :=
       {| outputs := []; spec_decode_worker_metrics := None |} |}.

Definition no_proposals_reply : SpeculativeProposals :=
  {| proposal_token_ids := Tensor2 0 [];
     proposal_probs := [];
     proposal_lens := [];
     no_proposals := true |}.

Definition no_scores_reply : SpeculativeScores :=
  {| probs := []; token_ids := Tensor2 1 []; logprobs := [];
     hidden_states := None; scores_prompt_logprobs := None |}.

Definition replies (toks : list Z) : collaborators :=
  {| scorer_execute_model := [scorer_reply toks];
     get_spec_proposals := no_proposals_reply;
     draft_forward_passes := 0;
     score_proposals := no_scores_reply |}.

(** One prompt, no lookahead slot. *)
Definition prefill_request : ExecuteModelRequest :=
  {| seq_group_metadata_list := [prompt_record "req-0" 0];
     num_lookahead_slots := 0;
     running_queue_size := 1;
     finished_requests_ids := [] |}.

(** Two decoding sequences whose speculation was switched off, scheduled
    with three lookahead slots. *)
Definition switched_off_request : ExecuteModelRequest :=
  {| seq_group_metadata_list :=
       [decode_record "req-1" 1 0; decode_record "req-2" 2 0];
     num_lookahead_slots := 3;
     running_queue_size := 2;
     finished_requests_ids := [] |}.

(** One prompt, scheduled with three lookahead slots. *)
Definition prompt_with_lookahead_request : ExecuteModelRequest :=
  {| seq_group_metadata_list := [prompt_record "req-0" 0];
     num_lookahead_slots := 3;
     running_queue_size := 1;
     finished_requests_ids := [] |}.

(** A mixed batch for the verifier: a prompt without proposal and a
    decoding sequence with two proposed tokens. *)
Definition mixed_batch : list SequenceGroupMetadata :=
  [prompt_record "req-0" 0; decode_record "req-1" 1 2].

Definition mixed_proposals : SpeculativeProposals :=
  {| proposal_token_ids := Tensor2 2 [[-1; -1]; [61; 62]];
     proposal_probs := [[]; []];
     proposal_lens := [0; 2];
     no_proposals := false |}.

Definition mixed_scores : SpeculativeScores :=
  {| probs := [[]; []];
     token_ids := Tensor2 3 [[50; -1; -1]; [61; 62; 63]];
     logprobs := [[]; []];
     hidden_states := None;
     scores_prompt_logprobs := None |}.

(** A sampler that accepts every proposed token and the bonus token. *)
Definition accept_all_sampler (call : sampler_call) : result tensor2 :=
  ok (Tensor2 3
        ((fun rb => rb.1 ++ rb.2)
           <$> zip (rows (draft_token_ids call))
                   (rows (bonus_token_ids call)
                    ++ replicate (length (rows (draft_token_ids call))) []))).

Definition accept_all_verifier : verifier_env :=
  {| spec_decode_sampler := accept_all_sampler;
     sampler_is_stochastic := false;
     generators := None;
     VLLM_INVALID_TOKEN_ID := -1 |}.

(** A decoding sequence that asked for no logprobs, one lookahead slot,
    one accepted token and no bonus token. *)
Definition single_decode_batch : list SequenceGroupMetadata :=
  [decode_record "req-1" 1 1].

Definition single_decode_accepted : tensor2 := Tensor2 2 [[7; -1]].

(** A worker built with [disable_logprobs], serving requests that ask for
    [num_logprobs] logprobs per token; the scorer's [max_logprobs] is 5. *)
Definition dummy_assembler (num_logprobs : Z) : assembler_env :=
  {| _disable_logprobs := true;
     max_logprobs := 5;
     _create_logprob_lists_from_tensors :=
       _create_logprob_lists_from_tensors (plain_assembler true);
     get_all_num_logprobs := fun sgs => (fun _ => num_logprobs) <$> sgs;
     maybe_collect_rejsample_metrics := fun _ => None |}.

Definition worker_without_logprobs (num_logprobs : Z) : SpecDecodeWorker :=
  {| disable_by_batch_size := Infinity;
     _num_spec_prefill_steps := 1;
     _allow_zero_draft_token_step := true;
     bookkeeping := Tracker ∅ ∅;
     verifier := accept_all_verifier;
     assembler := dummy_assembler num_logprobs |}.

(** The mixed batch, scheduled with two lookahead slots. *)
Definition mixed_request : ExecuteModelRequest :=
  {| seq_group_metadata_list := mixed_batch;
     num_lookahead_slots := 2;
     running_queue_size := 2;
     finished_requests_ids := [] |}.

(** The same worker after a step that gave sequence 9 of request req-9 a
    bonus token, and the mixed batch scheduled while req-9 is reported
    finished. *)
Definition worker_with_bonus_token : SpecDecodeWorker :=
  {| disable_by_batch_size := Infinity;
     _num_spec_prefill_steps := 1;
     _allow_zero_draft_token_step := true;
     bookkeeping := Tracker {[9]} {["req-9" := {[9]}]};
     verifier := accept_all_verifier;
     assembler := plain_assembler true |}.

Definition mixed_request_after_finish : ExecuteModelRequest :=
  {| seq_group_metadata_list := mixed_batch;
     num_lookahead_slots := 2;
     running_queue_size := 2;
     finished_requests_ids := ["req-9"] |}.

Definition mixed_replies : collaborators :=
  {| scorer_execute_model := [];
     get_spec_proposals := mixed_proposals;
     draft_forward_passes := 2;
     score_proposals := mixed_scores |}.

End Scenarios.

(** * Properties *)

(** ** Auto-disable threshold *)

Module ThresholdFacts.
Import Threshold.


Lemma init_disable_by_batch_size_truthy (n : Z) :
  n <> 0 -> init_disable_by_batch_size (Some n) = Finite n.
Proof.
  intros Hn. unfold init_disable_by_batch_size.
  destruct (Z.eqb_spec n 0); [contradiction | reflexivity].
Qed.



(** A finite threshold disables speculation exactly from that queue size
    on. *)
Lemma finite_threshold_disables (n running_queue_size : Z) :
  n <> 0 ->
  _should_disable_all_speculation (init_disable_by_batch_size (Some n))
    running_queue_size = true <-> n <= running_queue_size.
Proof.
  intros Hn. rewrite init_disable_by_batch_size_truthy by assumption.
  simpl. apply Z.leb_le.
Qed.

End ThresholdFacts.

(** ** Bonus-token bookkeeping *)

Module BookkeepingFacts.
Import PySeq Tensor Bookkeeping Reference.

Lemma discard_each_difference (seqs bonus : gset Z) :
  discard_each seqs bonus = bonus ∖ seqs.
Proof.
  unfold discard_each.
  apply (set_fold_ind_L (fun acc X => acc = bonus ∖ X)).
  - set_solver.
  - intros x X r _ ->. set_solver.
Qed.

(** One iteration of the loop of [_track_finished_requests] never raises:
    the key it deletes was read, hence created, just before. *)
Lemma track_finished_cons (r : string) (rest : list string) (t : tracker) :
  _track_finished_requests (r :: rest) t
  = _track_finished_requests rest (finish_request t r).
Proof.
  destruct t as [bonus d]. cbn [_track_finished_requests].
  unfold defaultdict_getitem, finish_request, dict_delitem. cbn.
  destruct (d !! r) as [seqs|] eqn:Hr; cbn.
  - rewrite Hr. cbn. rewrite discard_each_difference. reflexivity.
  - rewrite lookup_insert_eq. cbn.
    rewrite discard_each_difference, delete_insert_eq. reflexivity.
Qed.

Lemma track_finished_closed_form (finished : list string) (t : tracker) :
  _track_finished_requests finished t = inr (foldl finish_request t finished).
Proof.
  revert t. induction finished as [|r rest IH]; intros t; [reflexivity |].
  rewrite track_finished_cons. apply IH.
Qed.

Lemma finish_request_unknown (t : tracker) (r : string) :
  _request_id_seq_id_mapping t !! r = None -> finish_request t r = t.
Proof.
  intros Hr. destruct t as [bonus d]. unfold finish_request. cbn in *.
  rewrite Hr. cbn. rewrite delete_id by assumption.
  f_equal. set_solver.
Qed.

Lemma foldl_finish_request_mapping (finished : list string) (t : tracker)
    (r : string) :
  _request_id_seq_id_mapping (foldl finish_request t finished) !! r
  = if bool_decide (r ∈ finished) then None
    else _request_id_seq_id_mapping t !! r.
Proof.
  revert t. induction finished as [|x rest IH]; intros t; cbn.
  - rewrite bool_decide_eq_false_2 by set_solver. reflexivity.
  - rewrite IH. destruct (decide (r ∈ rest)) as [Hin | Hnin].
    + rewrite !bool_decide_eq_true_2 by set_solver. reflexivity.
    + rewrite (bool_decide_eq_false_2 (r ∈ rest)) by assumption.
      destruct (decide (r = x)) as [-> | Hne].
      * rewrite bool_decide_eq_true_2 by set_solver.
        cbn. apply lookup_delete_eq.
      * rewrite bool_decide_eq_false_2 by set_solver.
        cbn. apply lookup_delete_ne. congruence.
Qed.

Lemma foldl_finish_request_bonus_subset (finished : list string)
    (t : tracker) :
  _seq_with_bonus_token_in_last_step (foldl finish_request t finished)
  ⊆ _seq_with_bonus_token_in_last_step t.
Proof.
  revert t. induction finished as [|x rest IH]; intros t; cbn; [done |].
  etrans; [apply IH |]. cbn. set_solver.
Qed.

Lemma foldl_finish_request_unknown (finished : list string) (t : tracker) :
  Forall (fun r => _request_id_seq_id_mapping t !! r = None) finished ->
  foldl finish_request t finished = t.
Proof.
  induction 1 as [|r rest Hr _ IH]; cbn; [reflexivity |].
  rewrite finish_request_unknown by assumption. exact IH.
Qed.

(** Finished requests leave no sequence id behind. *)
Lemma foldl_finish_request_drops (finished : list string) (t : tracker)
    (r : string) (seqs : gset Z) (s : Z) :
  r ∈ finished ->
  _request_id_seq_id_mapping t !! r = Some seqs ->
  s ∈ seqs ->
  s ∉ _seq_with_bonus_token_in_last_step (foldl finish_request t finished).
Proof.
  revert t. induction finished as [|x rest IH]; intros t Hin Hr Hs.
  - set_solver.
  - cbn. destruct (decide (r = x)) as [-> | Hne].
    + intros Habs.
      apply (foldl_finish_request_bonus_subset rest) in Habs.
      cbn in Habs. rewrite Hr in Habs. cbn in Habs. set_solver.
    + apply IH; [set_solver | | assumption].
      cbn. rewrite lookup_delete_ne by congruence. assumption.
Qed.

(** C9: [_track_finished_requests] never raises; the iteration for a
    request id without an entry in the request-to-sequence-ids map changes
    neither the bonus set nor the map, so a call whose ids are all unknown
    returns the state it was given; and a second run with the same ids
    leaves the state of the first. *)
Theorem C9_track_finished_requests_idempotent
    (finished_requests_ids : list string) (t : tracker) :
  (exists t1,
      _track_finished_requests finished_requests_ids t = inr t1
      /\ _track_finished_requests finished_requests_ids t1 = inr t1)
  /\ (forall r rest,
        _request_id_seq_id_mapping t !! r = None ->
        _track_finished_requests (r :: rest) t
        = _track_finished_requests rest t)
  /\ (Forall (fun r => _request_id_seq_id_mapping t !! r = None)
        finished_requests_ids ->
      _track_finished_requests finished_requests_ids t = inr t).
Proof.
  split; [| split].
  - exists (foldl finish_request t finished_requests_ids).
    split; [apply track_finished_closed_form |].
    rewrite track_finished_closed_form. f_equal.
    apply foldl_finish_request_unknown.
    apply Forall_forall. intros r Hr.
    rewrite foldl_finish_request_mapping.
    rewrite bool_decide_eq_true_2 by assumption. reflexivity.
  - intros r rest Hr. rewrite track_finished_cons.
    rewrite finish_request_unknown by assumption. reflexivity.
  - intros Hall. rewrite track_finished_closed_form. f_equal.
    apply foldl_finish_request_unknown. assumption.
Qed.

Lemma C9_witness :
  Forall (fun r => _request_id_seq_id_mapping
                     (Tracker {[1; 2]} {["req-a" := {[1]}]}) !! r = None)
         ["req-zz"]
  /\ _track_finished_requests ["req-zz"]
       (Tracker {[1; 2]} {["req-a" := {[1]}]})
     = inr (Tracker {[1; 2]} {["req-a" := {[1]}]}).
Proof.
  assert (Hunknown :
    Forall (fun r => _request_id_seq_id_mapping
                       (Tracker {[1; 2]} {["req-a" := {[1]}]}) !! r = None)
           ["req-zz"]).
  { constructor; [reflexivity | constructor]. }
  split; [exact Hunknown |].
  exact (proj2 (proj2 (C9_track_finished_requests_idempotent ["req-zz"]
                         (Tracker {[1; 2]} {["req-a" := {[1]}]})))
           Hunknown).
Defined.

(** The last list of the transposed tensor holds the last element of every
    row. *)
Lemma transpose_last (t : tensor2) (n : nat) :
  ncols t = S n ->
  last (transpose t) = Some ((fun r => default 0 (r !! n)) <$> rows t).
Proof.
  intros Hn. unfold transpose. rewrite Hn, seq_S, fmap_app. cbn.
  apply last_snoc.
Qed.

Lemma wf_row_last (t : tensor2) (n : nat) (row : list Z) :
  wf_tensor2 t -> ncols t = S n -> row ∈ rows t ->
  last row = Some (default 0 (row !! n)).
Proof.
  intros Hwf Hn Hin. unfold wf_tensor2 in Hwf.
  rewrite Forall_forall in Hwf. specialize (Hwf row Hin).
  rewrite Hn in Hwf. rewrite last_lookup, Hwf. cbn.
  destruct (lookup_lt_is_Some_2 row n ltac:(lia)) as [x Hx].
  rewrite Hx. reflexivity.
Qed.

(** The first loop of [_track_sequences_with_bonus_tokens], for distinct
    sequence ids: an id of the batch is in the set exactly when the entry
    at its index is not -1; the other ids keep their membership. *)
Lemma track_bonus_loop_spec (by_step : list (list Z)) (last_row : list Z) :
  last by_step = Some last_row ->
  forall (seq_ids : list Z) (i0 : nat) (bonus : gset Z),
    NoDup seq_ids ->
    (i0 + length seq_ids <= length last_row)%nat ->
    exists bonus',
      track_bonus_loop by_step i0 seq_ids bonus = inr bonus'
      /\ (forall j s tok,
            seq_ids !! j = Some s -> last_row !! (i0 + j)%nat = Some tok ->
            s ∈ bonus' <-> tok <> -1)
      /\ (forall s, s ∉ seq_ids -> s ∈ bonus' <-> s ∈ bonus).
Proof.
  intros Hlast. induction seq_ids as [|x rest IH]; intros i0 bonus Hnd Hlen.
  - exists bonus. split; [reflexivity |]. split; [| done].
    intros j s tok Hj. rewrite lookup_nil in Hj. discriminate.
  - apply NoDup_cons in Hnd as [Hx Hnd]. cbn [length] in Hlen.
    destruct (lookup_lt_is_Some_2 last_row i0 ltac:(lia)) as [tok0 Htok0].
    cbn [track_bonus_loop]. unfold py_last. rewrite Hlast. cbn.
    unfold py_getitem. rewrite Htok0. cbn.
    destruct (IH (S i0)
                (if tok0 =? -1 then bonus ∖ {[x]} else {[x]} ∪ bonus)
                Hnd ltac:(lia)) as (bonus' & Hrun & Hin & Hout).
    exists bonus'. split; [exact Hrun |]. split.
    + intros j s tok Hj Htok. destruct j as [|j].
      * cbn in Hj. injection Hj as <-.
        rewrite Nat.add_0_r in Htok. rewrite Htok0 in Htok.
        injection Htok as <-. rewrite (Hout x Hx).
        destruct (Z.eqb_spec tok0 (-1)); set_solver.
      * cbn in Hj. apply (Hin j s tok Hj).
        rewrite <- Htok. f_equal. lia.
    + intros s Hs. apply not_elem_of_cons in Hs as [Hne Hs].
      rewrite (Hout s Hs). destruct (tok0 =? -1); set_solver.
Qed.

End BookkeepingFacts.

(** ** Driver and non-driver ranks *)

Module ControlFacts.
Import PySeq DataModel Outputs Tensor Util Threshold Bookkeeping Verifier
       Assembler Control Reference.

Lemma repeat_n_emit (n : nat) (e : event) :
  repeat_n n (emit e) = (replicate n e, inr tt).
Proof.
  induction n as [|n IH]; [reflexivity |].
  cbn [repeat_n replicate]. unfold mbind, traced_bind. cbn.
  rewrite IH. reflexivity.
Qed.

Section ControlDict.
Variables (k : Z) (ns da rp : bool).

Lemma broadcast_dict_non_empty : broadcast_dict k ns da rp <> ∅.
Proof. apply insert_non_empty. Qed.

Lemma broadcast_dict_num_lookahead_slots :
  broadcast_dict k ns da rp !! "num_lookahead_slots" = Some (PInt k).
Proof. apply lookup_insert_eq. Qed.

Lemma broadcast_dict_no_spec :
  broadcast_dict k ns da rp !! "no_spec" = Some (PBool ns).
Proof.
  unfold broadcast_dict.
  rewrite lookup_insert_ne by discriminate. apply lookup_insert_eq.
Qed.

Lemma broadcast_dict_disable_all_speculation :
  broadcast_dict k ns da rp !! "disable_all_speculation" = Some (PBool da).
Proof.
  unfold broadcast_dict.
  rewrite !lookup_insert_ne by discriminate. apply lookup_insert_eq.
Qed.

Lemma broadcast_dict_run_spec_proposer_for_prefill :
  broadcast_dict k ns da rp !! "run_spec_proposer_for_prefill"
  = Some (PBool rp).
Proof.
  unfold broadcast_dict.
  rewrite !lookup_insert_ne by discriminate. apply lookup_insert_eq.
Qed.

(** A non-driver rank on the control dict of the driver. *)
Lemma run_non_driver_rank_broadcast_dict :
  _run_non_driver_rank (broadcast_dict k ns da rp)
  = (non_driver_calls k ns da rp, inr true).
Proof.
  unfold _run_non_driver_rank.
  rewrite bool_decide_eq_false_2 by apply broadcast_dict_non_empty.
  unfold dict_getitem.
  rewrite broadcast_dict_num_lookahead_slots, broadcast_dict_no_spec,
    broadcast_dict_disable_all_speculation,
    broadcast_dict_run_spec_proposer_for_prefill.
  unfold non_driver_calls, when, py_range.
  destruct ns, da, rp; cbn; rewrite ?repeat_n_emit; cbn;
    rewrite ?app_nil_r; reflexivity.
Qed.
End ControlDict.

Lemma run_non_driver_rank_empty :
  _run_non_driver_rank ∅ = ([], inr false).
Proof. reflexivity. Qed.

(** Whatever the dict, the rank returns [False] only for the empty one. *)
Lemma run_non_driver_rank_false (data : gmap string pyval)
    (tr : list event) :
  _run_non_driver_rank data = (tr, inr false) -> data = ∅.
Proof.
  unfold _run_non_driver_rank.
  destruct (bool_decide (data = ∅)) eqn:Hd.
  - intros _. apply bool_decide_eq_true_1 in Hd. exact Hd.
  - unfold dict_getitem, when, lift, raise.
    repeat match goal with
           | |- context [data !! ?key] => destruct (data !! key) as [[?|[]]|]
           end;
      cbn; try discriminate;
      repeat match goal with
             | |- context [if ?b then _ else _] => destruct b
             end;
      cbn; rewrite ?repeat_n_emit; cbn; discriminate.
Qed.

Lemma start_worker_execution_loop_cons (data : gmap string pyval)
    (rest : list (gmap string pyval)) (tr : list event) (more : bool) :
  _run_non_driver_rank data = (tr, inr more) ->
  start_worker_execution_loop (data :: rest)
  = if more
    then (tr ++ (start_worker_execution_loop rest).1,
          (start_worker_execution_loop rest).2)
    else (tr ++ [], inr (Returned rest)).
Proof.
  intros Hrun. cbn [start_worker_execution_loop].
  unfold mbind at 1, traced_bind. rewrite Hrun. cbn [fst snd].
  destruct more; reflexivity.
Qed.

(** The loop on the messages of the driver up to the shutdown signal. *)
Lemma start_worker_execution_loop_controls (cs : list control)
    (rest : list (gmap string pyval)) :
  start_worker_execution_loop ((control_dict <$> cs) ++ ∅ :: rest)
  = (cs ≫= control_calls, inr (Returned rest)).
Proof.
  induction cs as [|c cs IH]; [reflexivity |].
  rewrite fmap_cons, <- app_comm_cons.
  rewrite (start_worker_execution_loop_cons (control_dict c) _
             (control_calls c) true
             (run_non_driver_rank_broadcast_dict _ _ _ _)).
  rewrite IH. reflexivity.
Qed.

(** C6: [_run_non_driver_rank] returns [False], having called no model,
    on the empty dict and on no other; on a control dict of the driver it
    returns [True] after the scorer if [no_spec], then the proposer
    [max(num_lookahead_slots, 1)] times unless all speculation is disabled,
    then, unless [no_spec], the scorer and one more proposer call if
    [run_spec_proposer_for_prefill]; and [start_worker_execution_loop]
    returns at the first empty dict, not before. *)
Theorem C6_non_driver_rank_calls :
  _run_non_driver_rank ∅ = ([], inr false)
  /\ (forall data tr b,
        _run_non_driver_rank data = (tr, inr b) ->
        b = false <-> data = ∅)
  /\ (forall k no_spec disable_all run_prefill,
        _run_non_driver_rank
          (broadcast_dict k no_spec disable_all run_prefill)
        = ((if no_spec then [ScorerExecute] else [])
           ++ (if disable_all then []
               else replicate (Z.to_nat (Z.max k 1)) ProposerExecute)
           ++ (if no_spec then []
               else ScorerExecute
                    :: (if run_prefill then [ProposerExecute] else [])),
           inr true))
  /\ (forall cs rest,
        start_worker_execution_loop ((control_dict <$> cs) ++ ∅ :: rest)
        = (cs ≫= control_calls, inr (Returned rest))).
Proof.
  split; [apply run_non_driver_rank_empty |].
  split; [| split].
  - intros data tr b Hrun. split.
    + intros ->. eapply run_non_driver_rank_false. exact Hrun.
    + intros ->. rewrite run_non_driver_rank_empty in Hrun.
      injection Hrun as _ <-. reflexivity.
  - intros k ns da rp. apply run_non_driver_rank_broadcast_dict.
  - apply start_worker_execution_loop_controls.
Qed.

Lemma C6_witness :
  _run_non_driver_rank (broadcast_dict 3 false false true)
  = ([ProposerExecute; ProposerExecute; ProposerExecute;
      ScorerExecute; ProposerExecute], inr true)
  /\ (true = false <-> broadcast_dict 3 false false true = ∅).
Proof.
  split.
  - exact (proj1 (proj2 (proj2 C6_non_driver_rank_calls)) 3 false false true).
  - exact (proj1 (proj2 C6_non_driver_rank_calls)
             (broadcast_dict 3 false false true) _ true
             (proj1 (proj2 (proj2 C6_non_driver_rank_calls))
                3 false false true)).
Defined.

(** The events of [execute_model] up to the broadcast. *)
Lemma execute_model_assert_fails (w : SpecDecodeWorker) (c : collaborators)
    (req : ExecuteModelRequest) :
  forallb is_prompt (seq_group_metadata_list req) = true ->
  seq_group_metadata_list req <> [] ->
  num_lookahead_slots req <> 0 ->
  execute_model w c (Some req) = ([], inl AssertionError).
Proof.
  intros Hall Hne Hk. unfold execute_model.
  rewrite BookkeepingFacts.track_finished_closed_form.
  unfold lift, mbind, traced_bind. cbn -[broadcast_dict].
  rewrite Hall, bool_decide_eq_false_2 by assumption.
  destruct (Z.eqb_spec (num_lookahead_slots req) 0); [contradiction |].
  reflexivity.
Qed.

Lemma execute_model_assert_passes (w : SpecDecodeWorker) (c : collaborators)
    (req : ExecuteModelRequest) :
  forallb is_prompt (seq_group_metadata_list req) = false
  \/ seq_group_metadata_list req = []
  \/ num_lookahead_slots req = 0 ->
  exists d tr r, execute_model w c (Some req) = (Broadcast d :: tr, r).
Proof.
  intros Hok. unfold execute_model.
  rewrite BookkeepingFacts.track_finished_closed_form.
  unfold lift, mbind, traced_bind. cbn -[broadcast_dict].
  assert (Hcond :
    forallb is_prompt (seq_group_metadata_list req)
    && negb (bool_decide (seq_group_metadata_list req = []))
    && negb (num_lookahead_slots req =? 0) = false).
  { destruct Hok as [-> | [-> | ->]]; [reflexivity | |].
    - rewrite bool_decide_eq_true_2 by reflexivity.
      apply andb_false_intro1, andb_false_intro2. reflexivity.
    - apply andb_false_intro2. reflexivity. }
  rewrite Hcond. cbn -[broadcast_dict].
  do 3 eexists. reflexivity.
Qed.

(** C7: on the driver rank [execute_model] raises on a non-empty batch of
    prompts scheduled with [num_lookahead_slots] other than 0, before any
    broadcast and before any model runs; on every other batch the check
    passes and the step goes on to broadcast the control dict. *)
Theorem C7_prompt_only_lookahead_assertion
    (w : SpecDecodeWorker) (c : collaborators) (req : ExecuteModelRequest) :
  (forallb is_prompt (seq_group_metadata_list req) = true ->
   seq_group_metadata_list req <> [] ->
   num_lookahead_slots req <> 0 ->
   execute_model w c (Some req) = ([], inl AssertionError))
  /\ (forallb is_prompt (seq_group_metadata_list req) = false
      \/ seq_group_metadata_list req = []
      \/ num_lookahead_slots req = 0 ->
      exists d tr r, execute_model w c (Some req) = (Broadcast d :: tr, r)).
Proof.
  split; [apply execute_model_assert_fails | apply execute_model_assert_passes].
Qed.

Lemma C7_witness :
  execute_model (Scenarios.worker_with_prefill_steps 1)
    (Scenarios.replies [42])
    (Some Scenarios.prompt_with_lookahead_request)
  = ([], inl AssertionError)
  /\ exists d tr r,
       execute_model (Scenarios.worker_with_prefill_steps 1)
         (Scenarios.replies [42]) (Some Scenarios.prefill_request)
       = (Broadcast d :: tr, r).
Proof.
  split.
  - apply (proj1 (C7_prompt_only_lookahead_assertion
                    (Scenarios.worker_with_prefill_steps 1)
                    (Scenarios.replies [42])
                    Scenarios.prompt_with_lookahead_request)).
    + reflexivity.
    + discriminate.
    + discriminate.
  - apply (proj2 (C7_prompt_only_lookahead_assertion
                    (Scenarios.worker_with_prefill_steps 1)
                    (Scenarios.replies [42]) Scenarios.prefill_request)).
    right. right. reflexivity.
Defined.

(** The calls of the driver on the path without speculation, and when
    they are those of a non-driver rank. *)
Lemma run_no_spec_trace (w : SpecDecodeWorker) (c : collaborators)
    (sgs : list SequenceGroupMetadata) (skip_proposer : bool)
    (so : scorer_output) :
  scorer_execute_model c = [so] ->
  (_run_no_spec w c sgs skip_proposer).1
  = no_spec_driver_calls (_num_spec_prefill_steps w) skip_proposer.
Proof.
  intros Hso. unfold _run_no_spec, no_spec_driver_calls, when, py_range.
  rewrite Hso. unfold lift, mbind, traced_bind. cbn.
  destruct skip_proposer; cbn.
  - destruct (_disable_logprobs (assembler w)); cbn; reflexivity.
  - rewrite repeat_n_emit. cbn.
    destruct (_disable_logprobs (assembler w)); cbn;
      rewrite ?app_nil_r; reflexivity.
Qed.

Lemma replicate_eq_length {A} (x : A) (n m : nat) :
  replicate n x = replicate m x <-> n = m.
Proof.
  split; [| intros ->; reflexivity].
  intros H. apply (f_equal length) in H.
  rewrite !length_replicate in H. exact H.
Qed.

Lemma no_spec_calls_agree_iff (num_spec_prefill_steps k : Z)
    (disable_all run_prefill : bool) :
  no_spec_driver_calls num_spec_prefill_steps disable_all
  = non_driver_calls k true disable_all run_prefill
  <-> disable_all = true
      \/ Z.to_nat num_spec_prefill_steps = Z.to_nat (Z.max k 1).
Proof.
  unfold no_spec_driver_calls, non_driver_calls. cbn.
  destruct disable_all; cbn.
  - split; [left; reflexivity | reflexivity].
  - rewrite app_nil_r. split.
    + intros H. right. injection H as H.
      apply replicate_eq_length in H. exact H.
    + intros [Hd | ->]; [discriminate | reflexivity].
Qed.

(** C1, as the code has it: the driver runs the proposer
    [_num_spec_prefill_steps] times in [_run_no_spec], a non-driver rank
    [max(num_lookahead_slots, 1)] times for the same control dict.  With
    two speculative prefill steps and one prompt the driver calls the
    scorer and twice the proposer, the other ranks the scorer and once the
    proposer; with one prefill step, three lookahead slots and a batch
    whose sequences all have speculation switched off, the driver calls
    the proposer once, the other ranks three times. *)
Theorem C1_driver_and_non_driver_calls_differ :
  (execute_model (Scenarios.worker_with_prefill_steps 2)
     (Scenarios.replies [42]) (Some Scenarios.prefill_request)).1
  = [Broadcast (broadcast_dict 0 true false true);
     ScorerExecute; ProposerExecute; ProposerExecute]
  /\ (_run_non_driver_rank (broadcast_dict 0 true false true)).1
     = [ScorerExecute; ProposerExecute]
  /\ (execute_model (Scenarios.worker_with_prefill_steps 1)
        (Scenarios.replies [42; 43])
        (Some Scenarios.switched_off_request)).1
     = [Broadcast (broadcast_dict 3 true false false);
        ScorerExecute; ProposerExecute]
  /\ (_run_non_driver_rank (broadcast_dict 3 true false false)).1
     = [ScorerExecute; ProposerExecute; ProposerExecute; ProposerExecute].
Proof. repeat split; vm_compute; reflexivity. Qed.

End ControlFacts.


(** ** Tensors *)

Module TensorFacts.
Import PySeq Tensor.

Lemma py_getitem_Some {A} (l : list A) (i : nat) (x : A) :
  l !! i = Some x -> py_getitem l i = inr x.
Proof. intros H. unfold py_getitem. rewrite H. reflexivity. Qed.

Lemma mapM_getitem {A} (l : list A) (indices : list nat) :
  Forall (fun i => (i < length l)%nat) indices ->
  exists ys,
    mapM (py_getitem l) indices = inr ys
    /\ length ys = length indices
    /\ forall j i, indices !! j = Some i -> ys !! j = l !! i.
Proof.
  induction 1 as [|i indices Hi _ (ys & Hrun & Hlen & Hlook)].
  - exists []. split; [reflexivity |]. split; [reflexivity |].
    intros j i Hj. rewrite lookup_nil in Hj. discriminate.
  - destruct (lookup_lt_is_Some_2 l i Hi) as [x Hx].
    exists (x :: ys). cbn [mapM]. rewrite (py_getitem_Some l i x Hx).
    cbn. rewrite Hrun. cbn.
    split; [reflexivity |]. split; [cbn; lia |].
    intros [|j] i' Hj; cbn in Hj |- *.
    + injection Hj as <-. symmetry. exact Hx.
    + apply Hlook. exact Hj.
Qed.

Lemma scatter_rows_cons {A} (dst : list A) (i : nat) (indices : list nat)
    (x : A) (src : list A) :
  scatter_rows dst (i :: indices) (x :: src)
  = scatter_rows (<[i := x]> dst) indices src.
Proof. reflexivity. Qed.

Lemma scatter_rows_length {A} (indices : list nat) :
  forall (dst src : list A),
    length (scatter_rows dst indices src) = length dst.
Proof.
  induction indices as [|i indices IH]; intros dst [|x src];
    try reflexivity.
  rewrite scatter_rows_cons, IH. apply length_insert.
Qed.

Lemma scatter_rows_other {A} (indices : list nat) (i : nat) :
  i ∉ indices ->
  forall (dst src : list A), scatter_rows dst indices src !! i = dst !! i.
Proof.
  induction indices as [|i' indices IH]; intros Hi dst [|x src];
    try reflexivity.
  apply not_elem_of_cons in Hi as [Hne Hi].
  rewrite scatter_rows_cons, IH by assumption.
  apply list_lookup_insert_ne. congruence.
Qed.

(** Rows written at distinct indices in range are found where they were
    written. *)
Lemma scatter_rows_lookup {A} (indices : list nat) :
  NoDup indices ->
  forall (dst src : list A),
    length src = length indices ->
    Forall (fun i => (i < length dst)%nat) indices ->
    forall j i, indices !! j = Some i ->
                scatter_rows dst indices src !! i = src !! j.
Proof.
  induction 1 as [|i0 indices Hi0 Hnd IH]; intros dst src Hlen Hrange j i Hj.
  - rewrite lookup_nil in Hj. discriminate.
  - destruct src as [|x src]; [discriminate |].
    apply Forall_cons in Hrange as [Hi0r Hrange].
    rewrite scatter_rows_cons. destruct j as [|j]; cbn in Hj |- *.
    + injection Hj as <-.
      rewrite scatter_rows_other by assumption.
      apply list_lookup_insert_eq. exact Hi0r.
    + apply IH; [cbn in Hlen; lia | | exact Hj].
      rewrite length_insert. exact Hrange.
Qed.

(** [t[indices] = t.clone()] for a permutation of the row indices. *)
Lemma index_put_permutation (t : tensor2) (indices : list nat) :
  indices ≡ₚ seq 0 (length (rows t)) ->
  exists out,
    index_put t indices t = inr out
    /\ ncols out = ncols t
    /\ length (rows out) = length (rows t)
    /\ forall j i, indices !! j = Some i -> rows out !! i = rows t !! j.
Proof.
  intros Hperm.
  assert (Hlen : length (rows t) = length indices).
  { rewrite Hperm, length_seq. reflexivity. }
  assert (Hrange : Forall (fun i => (i < length (rows t))%nat) indices).
  { apply Forall_forall. intros i Hi. rewrite Hperm in Hi.
    apply elem_of_seq in Hi. lia. }
  assert (Hnd : NoDup indices).
  { rewrite Hperm. apply NoDup_seq. }
  unfold index_put.
  rewrite bool_decide_eq_true_2 by reflexivity. cbn [negb].
  assert (Hall : forallb (fun i => (i <? length (rows t))%nat) indices = true).
  { apply forallb_forall. intros i Hi.
    apply Nat.ltb_lt. rewrite Forall_forall in Hrange. apply Hrange.
    apply list_elem_of_In. exact Hi. }
  rewrite Hall. cbn [negb].
  destruct (decide (length (rows t) = length indices)); [| contradiction].
  eexists. split; [reflexivity |]. cbn.
  split; [reflexivity |]. split; [apply scatter_rows_length |].
  intros j i Hj. apply scatter_rows_lookup; auto.
Qed.

End TensorFacts.

(** ** Batch partitioner *)

Module UtilFacts.
Import DataModel Util.

Lemma filter_ext_Forall {A} (P Q : A -> Prop)
    `{forall x, Decision (P x)} `{forall x, Decision (Q x)} (l : list A) :
  Forall (fun x => P x <-> Q x) l -> filter P l = filter Q l.
Proof.
  induction 1 as [|x l Hx _ IH]; [reflexivity |].
  rewrite !filter_cons, IH.
  destruct (decide (P x)), (decide (Q x)); tauto.
Qed.

Section Split.
Variables (sgs : list SequenceGroupMetadata) (lens : list Z) (k : Z).
Hypothesis Hlen : length lens = length sgs.
Hypothesis Hlens : Forall (fun l => l = 0 \/ l = k) lens.
Hypothesis Hk : 0 <= k.

Let indexed := zip (seq 0 (length sgs)) (zip sgs lens).
Let spec_indices := (split_batch_by_proposal_len sgs lens).1.2.
Let non_spec_indices := (split_batch_by_proposal_len sgs lens).2.2.

Lemma indexed_elem (e : nat * (SequenceGroupMetadata * Z)) :
  e ∈ indexed ->
  (e.1 < length sgs)%nat /\ sgs !! e.1 = Some e.2.1
  /\ lens !! e.1 = Some e.2.2.
Proof.
  intros He. apply list_elem_of_lookup in He as [j Hj].
  destruct e as [i [sg l]]. subst indexed.
  apply lookup_zip_Some in Hj as [Hseq Hj].
  apply lookup_zip_Some in Hj as [Hsg Hl].
  apply lookup_seq in Hseq as [-> Hlt]. cbn. auto.
Qed.

Lemma indexed_fst : indexed.*1 = seq 0 (length sgs).
Proof.
  subst indexed. apply fst_zip.
  rewrite length_seq, length_zip. lia.
Qed.

(** The two lanes together hold every index of the batch once. *)
Lemma split_indices_permutation :
  spec_indices ++ non_spec_indices ≡ₚ seq 0 (length sgs).
Proof.
  subst spec_indices non_spec_indices.
  unfold split_batch_by_proposal_len. cbn [fst snd].
  fold indexed. rewrite <- fmap_app, <- indexed_fst.
  apply fmap_Permutation.
  rewrite (filter_ext_Forall (fun e => e.2.2 = 0)
             (fun e => ~ 0 < e.2.2) indexed).
  - apply filter_app_complement.
  - apply Forall_forall. intros e He.
    apply indexed_elem in He as (_ & _ & Hl).
    apply list_elem_of_lookup_2 in Hl.
    rewrite Forall_forall in Hlens.
    destruct (Hlens _ Hl) as [-> | ->]; lia.
Qed.

Lemma split_indices_NoDup : NoDup (spec_indices ++ non_spec_indices).
Proof. rewrite split_indices_permutation. apply NoDup_seq. Qed.

Lemma split_indices_cover (i : nat) :
  (i < length sgs)%nat -> i ∈ spec_indices \/ i ∈ non_spec_indices.
Proof.
  intros Hi. apply elem_of_app. rewrite split_indices_permutation.
  apply elem_of_seq. lia.
Qed.

Lemma split_indices_length :
  (length spec_indices + length non_spec_indices = length sgs)%nat.
Proof.
  rewrite <- length_app, split_indices_permutation. apply length_seq.
Qed.

Lemma spec_index_elem (i : nat) :
  i ∈ spec_indices ->
  (i < length sgs)%nat /\ exists l, lens !! i = Some l /\ 0 < l.
Proof.
  subst spec_indices. unfold split_batch_by_proposal_len. cbn [fst snd].
  fold indexed. intros Hi.
  apply list_elem_of_fmap in Hi as (e & -> & He).
  apply list_elem_of_filter in He as [Hpos He].
  apply indexed_elem in He as (Hlt & _ & Hl). eauto.
Qed.

Lemma non_spec_index_elem (i : nat) :
  i ∈ non_spec_indices -> (i < length sgs)%nat /\ lens !! i = Some 0.
Proof.
  subst non_spec_indices. unfold split_batch_by_proposal_len.
  cbn [fst snd]. fold indexed. intros Hi.
  apply list_elem_of_fmap in Hi as (e & -> & He).
  apply list_elem_of_filter in He as [Hz He].
  apply indexed_elem in He as (Hlt & _ & Hl).
  rewrite Hz in Hl. auto.
Qed.

(** A sequence without proposal is in the non-speculative lane. *)
Lemma non_spec_index_intro (i : nat) :
  lens !! i = Some 0 -> i ∈ non_spec_indices.
Proof.
  intros Hl.
  assert (Hi : (i < length sgs)%nat).
  { rewrite <- Hlen. eapply lookup_lt_Some. exact Hl. }
  destruct (split_indices_cover i Hi) as [Hs | Hn]; [| exact Hn].
  apply spec_index_elem in Hs as (_ & l & Hl' & Hpos).
  rewrite Hl in Hl'. injection Hl' as <-. lia.
Qed.
End Split.

End UtilFacts.

(** ** Verifier *)

Module VerifierFacts.
Import PySeq DataModel Tensor Util Verifier TensorFacts UtilFacts.

Lemma filled_row (row : list Z) (k : Z) :
  0 <= k -> length row = Z.to_nat (k + 1) ->
  exists tok rest,
    row = tok :: rest
    /\ take 1 row ++ replicate (length row - 1) (-1)
       = tok :: replicate (Z.to_nat k) (-1).
Proof.
  intros Hk Hlen. replace (Z.to_nat (k + 1)) with (S (Z.to_nat k)) in Hlen
    by lia.
  destruct row as [|tok rest]; [discriminate |].
  exists tok, rest. split; [reflexivity |].
  cbn in Hlen |- *. rewrite take_0. cbn.
  do 2 f_equal. lia.
Qed.

Section VerifyTokens.
Variables (env : verifier_env) (sgs : list SequenceGroupMetadata)
          (scores : SpeculativeScores) (proposals : SpeculativeProposals)
          (k : Z).
Hypothesis Hk : 0 <= k.
Hypothesis Hlen : length (proposal_lens proposals) = length sgs.
Hypothesis Hlens :
  Forall (fun l => l = 0 \/ l = k) (proposal_lens proposals).
Hypothesis Hwf : wf_tensor2 (token_ids scores).
Hypothesis Hcols : ncols (token_ids scores) = Z.to_nat (k + 1).
Hypothesis Hrows : length (rows (token_ids scores)) = length sgs.
Hypothesis Hprobs : length (probs scores) = length sgs.
Hypothesis Hpprobs : length (proposal_probs proposals) = length sgs.
Hypothesis Hptoks :
  length (rows (proposal_token_ids proposals)) = length sgs.
Hypothesis Hextra : exists x, sampler_extra_kwargs env sgs = inr x.
Hypothesis Hsampler :
  forall call, exists sampled,
    spec_decode_sampler env call = inr sampled
    /\ ncols sampled = Z.to_nat (k + 1)
    /\ length (rows sampled) = length (rows (draft_token_ids call)).

Let spec_indices :=
  (split_batch_by_proposal_len sgs (proposal_lens proposals)).1.2.
Let non_spec_indices :=
  (split_batch_by_proposal_len sgs (proposal_lens proposals)).2.2.

Lemma spec_indices_in_range :
  Forall (fun i => (i < length sgs)%nat) spec_indices.
Proof.
  apply Forall_forall. intros i Hi.
  apply (spec_index_elem sgs (proposal_lens proposals)) in Hi.
  tauto.
Qed.

Lemma non_spec_indices_in_range :
  Forall (fun i => (i < length sgs)%nat) non_spec_indices.
Proof.
  apply Forall_forall. intros i Hi.
  apply (non_spec_index_elem sgs (proposal_lens proposals)) in Hi.
  tauto.
Qed.

(** The tensor handed to the reordering: the sampler's rows, one per
    speculative sequence, then one row per non-speculative sequence with
    the scorer's token in column 0 and -1 in the columns 1 to k. *)
Lemma verify_concat_spec :
  exists call sampled filled,
    spec_decode_sampler env call = inr sampled
    /\ verify_concat env sgs scores proposals k
       = inr (Tensor2 (Z.to_nat (k + 1)) (rows sampled ++ filled),
              spec_indices ++ non_spec_indices)
    /\ length (rows sampled) = length spec_indices
    /\ length filled = length non_spec_indices
    /\ (forall j i,
          spec_indices !! j = Some i ->
          rows (draft_token_ids call) !! j
          = rows (proposal_token_ids proposals) !! i)
    /\ (forall j i,
          non_spec_indices !! j = Some i ->
          exists tok rest,
            rows (token_ids scores) !! i = Some (tok :: rest)
            /\ filled !! j = Some (tok :: replicate (Z.to_nat k) (-1))).
Proof.
  pose proof spec_indices_in_range as Hspec.
  pose proof non_spec_indices_in_range as Hnon.
  subst spec_indices non_spec_indices. unfold verify_concat.
  destruct (split_batch_by_proposal_len sgs (proposal_lens proposals))
    as [[spec_seqs spec] [non_spec_seqs non_spec]]. cbn [fst snd] in *.
  destruct (mapM_getitem (probs scores) spec) as (vp & Hvp & _ & _).
  { rewrite Hprobs. exact Hspec. }
  destruct (mapM_getitem (rows (token_ids scores)) non_spec)
    as (nrows & Hnrows & Hnlen & Hnlook).
  { rewrite Hrows. exact Hnon. }
  destruct (mapM_getitem (rows (token_ids scores)) spec)
    as (brows & Hbrows & _ & _).
  { rewrite Hrows. exact Hspec. }
  destruct (mapM_getitem (proposal_probs proposals) spec)
    as (pp & Hpp & _ & _).
  { rewrite Hpprobs. exact Hspec. }
  destruct (mapM_getitem (rows (proposal_token_ids proposals)) spec)
    as (pt & Hpt & Hptlen & Hptlook).
  { rewrite Hptoks. exact Hspec. }
  destruct Hextra as [extra Hex].
  unfold index_select, index_rows, index_rows_last_col, index_select.
  rewrite Hvp, Hnrows, Hbrows, Hpp, Hpt, Hex. cbn.
  match goal with
  | |- context [spec_decode_sampler env ?c] =>
      destruct (Hsampler c) as (sampled & Hs & Hscols & Hsrows);
      exists c, sampled
  end.
  exists ((fun r => take 1 r ++ replicate (length r - 1) (-1)) <$> nrows).
  cbn in Hsrows. rewrite Hs. cbn.
  unfold expand_cols. cbn.
  destruct (Z.eqb_spec (k + 1) (-1)); [lia |].
  destruct (Z.ltb_spec (k + 1) 0); [lia |].
  destruct (decide (ncols (token_ids scores) = Z.to_nat (k + 1)));
    [| contradiction].
  cbn. unfold cat. cbn.
  destruct (decide (ncols sampled = ncols (token_ids scores)));
    [| congruence].
  cbn. rewrite Hscols.
  split; [reflexivity |]. split; [reflexivity |].
  split; [congruence |]. split; [rewrite length_fmap; exact Hnlen |].
  split.
  - intros j i Hj. cbn. apply Hptlook. exact Hj.
  - intros j i Hj. rewrite list_lookup_fmap, (Hnlook j i Hj).
    assert (Hi : (i < length (rows (token_ids scores)))%nat).
    { rewrite Hrows. rewrite Forall_forall in Hnon. apply Hnon.
      eapply list_elem_of_lookup_2. exact Hj. }
    destruct (lookup_lt_is_Some_2 _ _ Hi) as [row Hrow].
    rewrite Hrow. cbn.
    assert (Hrl : length row = Z.to_nat (k + 1)).
    { rewrite <- Hcols. unfold wf_tensor2 in Hwf.
      rewrite Forall_forall in Hwf. apply Hwf.
      eapply list_elem_of_lookup_2. exact Hrow. }
    destruct (filled_row row k Hk Hrl) as (tok & rest & -> & Hfill).
    exists tok, rest. split; [reflexivity |]. f_equal. exact Hfill.
Qed.

(** After the reordering every row is back at the index of its
    sequence. *)
Lemma verify_accepted_spec :
  exists call sampled filled accepted,
    spec_decode_sampler env call = inr sampled
    /\ verify_concat env sgs scores proposals k
       = inr (Tensor2 (Z.to_nat (k + 1)) (rows sampled ++ filled),
              spec_indices ++ non_spec_indices)
    /\ length (rows sampled) = length spec_indices
    /\ (forall j i,
          spec_indices !! j = Some i ->
          rows (draft_token_ids call) !! j
          = rows (proposal_token_ids proposals) !! i)
    /\ (forall j i,
          non_spec_indices !! j = Some i ->
          exists tok rest,
            rows (token_ids scores) !! i = Some (tok :: rest)
            /\ filled !! j = Some (tok :: replicate (Z.to_nat k) (-1)))
    /\ verify_accepted env sgs scores proposals k = inr accepted
    /\ ncols accepted = Z.to_nat (k + 1)
    /\ length (rows accepted) = length sgs
    /\ (forall j i,
          spec_indices !! j = Some i ->
          rows accepted !! i = rows sampled !! j)
    /\ (forall j i,
          non_spec_indices !! j = Some i ->
          rows accepted !! i = filled !! j).
Proof.
  destruct verify_concat_spec
    as (call & sampled & filled & Hs & Hcat & Hslen & Hflen & Hdraft
        & Hfilled).
  pose proof (split_indices_permutation sgs (proposal_lens proposals) k
                Hlen Hlens Hk) as Hperm.
  pose proof (split_indices_length sgs (proposal_lens proposals) k
                Hlen Hlens Hk) as Hsum.
  fold spec_indices non_spec_indices in Hperm, Hsum.
  set (concat := Tensor2 (Z.to_nat (k + 1)) (rows sampled ++ filled)).
  assert (Hclen : length (rows concat) = length sgs).
  { subst concat. cbn. rewrite length_app. lia. }
  destruct (index_put_permutation concat
              (spec_indices ++ non_spec_indices))
    as (accepted & Hput & Hacols & Harows & Halook).
  { rewrite Hclen. exact Hperm. }
  exists call, sampled, filled, accepted.
  split; [exact Hs |]. split; [exact Hcat |]. split; [exact Hslen |].
  split; [exact Hdraft |]. split; [exact Hfilled |].
  split; [unfold verify_accepted; rewrite Hcat; exact Hput |].
  split; [exact Hacols |]. split; [congruence |].
  split.
  - intros j i Hj.
    rewrite (Halook j i) by (apply lookup_app_l_Some; exact Hj).
    subst concat. cbn. apply lookup_app_l.
    rewrite Hslen. eapply lookup_lt_Some. exact Hj.
  - intros j i Hj.
    assert (Hidx : (spec_indices ++ non_spec_indices)
                     !! (length (rows sampled) + j)%nat = Some i).
    { rewrite Hslen, lookup_app_r by lia. rewrite <- Hj. f_equal. lia. }
    rewrite (Halook _ _ Hidx). subst concat. cbn [rows].
    rewrite lookup_app_r by lia. f_equal. lia.
Qed.

(** C2: when every proposal length is 0 or k, the accepted token ids
    returned by [_verify_tokens] have one row per input sequence, in
    the order of the input: the row at the index of a speculative
    sequence is the one the sampler computed from that sequence's
    proposal, the row at the index of a non-speculative sequence is the
    one built from that sequence's scorer token. *)
Theorem C2_verify_tokens_row_order :
  exists call sampled accepted,
    spec_decode_sampler env call = inr sampled
    /\ verify_accepted env sgs scores proposals k = inr accepted
    /\ (forall out,
          _verify_tokens env sgs scores proposals k = inr out ->
          out.1.1 = accepted)
    /\ (hidden_states scores = None ->
        _verify_tokens env sgs scores proposals k
        = inr (accepted, logprobs scores, None))
    /\ length (rows accepted) = length sgs
    /\ (forall i, (i < length sgs)%nat ->
                  i ∈ spec_indices \/ i ∈ non_spec_indices)
    /\ (forall j i,
          spec_indices !! j = Some i ->
          rows (draft_token_ids call) !! j
          = rows (proposal_token_ids proposals) !! i
          /\ rows accepted !! i = rows sampled !! j)
    /\ (forall i,
          proposal_lens proposals !! i = Some 0 ->
          exists tok rest,
            rows (token_ids scores) !! i = Some (tok :: rest)
            /\ rows accepted !! i
               = Some (tok :: replicate (Z.to_nat k) (-1))).
Proof.
  destruct verify_accepted_spec
    as (call & sampled & filled & accepted & Hs & _ & _ & Hdraft
        & Hfilled & Hacc & _ & Hrows' & Hspec & Hnon).
  exists call, sampled, accepted.
  split; [exact Hs |]. split; [exact Hacc |].
  split.
  { intros out. unfold _verify_tokens. rewrite Hacc. cbn.
    destruct (hidden_states scores) as [hidden|].
    - destruct (verify_hidden_states env sgs hidden accepted); cbn;
        [discriminate |].
      intros H. injection H as <-. reflexivity.
    - intros H. injection H as <-. reflexivity. }
  split.
  { intros Hnone. unfold _verify_tokens. rewrite Hacc, Hnone.
    reflexivity. }
  split; [exact Hrows' |].
  split.
  { intros i Hi.
    apply (split_indices_cover sgs (proposal_lens proposals) k);
      assumption. }
  split.
  - intros j i Hj. split; [apply Hdraft | apply Hspec]; exact Hj.
  - intros i Hi.
    pose proof (non_spec_index_intro sgs (proposal_lens proposals) k
                  Hlen Hlens Hk i Hi) as Hin.
    fold non_spec_indices in Hin.
    apply list_elem_of_lookup in Hin as [j Hj].
    destruct (Hfilled j i Hj) as (tok & rest & Hrow & Hfill).
    exists tok, rest. split; [exact Hrow |].
    rewrite (Hnon j i Hj). exact Hfill.
Qed.

(** C3: for every non-speculative sequence the row appended after the
    sampler's rows has width k+1, the scorer's token of that sequence
    in column 0 and -1 in the columns 1 to k; it follows the rows of
    the speculative sequences in the concatenation and is the row of
    that sequence after the reordering. *)
Theorem C3_non_speculative_rows :
  exists sampled filled accepted,
    verify_concat env sgs scores proposals k
    = inr (Tensor2 (Z.to_nat (k + 1)) (rows sampled ++ filled),
           spec_indices ++ non_spec_indices)
    /\ length (rows sampled) = length spec_indices
    /\ verify_accepted env sgs scores proposals k = inr accepted
    /\ (forall i, proposal_lens proposals !! i = Some 0 ->
                  i ∈ non_spec_indices)
    /\ (forall j i,
          non_spec_indices !! j = Some i ->
          proposal_lens proposals !! i = Some 0
          /\ exists tok rest row,
               rows (token_ids scores) !! i = Some (tok :: rest)
               /\ row = tok :: replicate (Z.to_nat k) (-1)
               /\ length row = Z.to_nat (k + 1)
               /\ (rows sampled ++ filled)
                    !! (length spec_indices + j)%nat = Some row
               /\ rows accepted !! i = Some row).
Proof.
  destruct verify_accepted_spec
    as (call & sampled & filled & accepted & _ & Hcat & Hslen & _
        & Hfilled & Hacc & _ & _ & _ & Hnon).
  exists sampled, filled, accepted.
  split; [exact Hcat |]. split; [exact Hslen |]. split; [exact Hacc |].
  split.
  { intros i Hi.
    apply (non_spec_index_intro sgs (proposal_lens proposals) k);
      assumption. }
  intros j i Hj. split.
  { apply (non_spec_index_elem sgs (proposal_lens proposals)).
    eapply list_elem_of_lookup_2. exact Hj. }
  destruct (Hfilled j i Hj) as (tok & rest & Hrow & Hfill).
  exists tok, rest, (tok :: replicate (Z.to_nat k) (-1)).
  split; [exact Hrow |]. split; [reflexivity |].
  split; [cbn; rewrite length_replicate; lia |].
  split.
  - rewrite <- Hslen, lookup_app_r by lia.
    rewrite <- Hfill. f_equal. lia.
  - rewrite (Hnon j i Hj). exact Hfill.
Qed.

End VerifyTokens.

(** The mixed batch meets the hypotheses of the verifier's properties. *)
Lemma accept_all_sampler_shape (call : sampler_call) :
  exists sampled,
    Scenarios.accept_all_sampler call = inr sampled
    /\ ncols sampled = Z.to_nat (2 + 1)
    /\ length (rows sampled) = length (rows (draft_token_ids call)).
Proof.
  eexists. split; [reflexivity |]. split; [reflexivity |].
  cbn. rewrite length_fmap, length_zip, length_app, length_replicate. lia.
Defined.

Lemma mixed_proposal_lens :
  Forall (fun l => l = 0 \/ l = 2)
         (proposal_lens Scenarios.mixed_proposals).
Proof.
  apply Forall_cons. split; [left; reflexivity |].
  apply Forall_cons. split; [right; reflexivity | apply Forall_nil_2].
Defined.

Lemma mixed_scores_wf : wf_tensor2 (token_ids Scenarios.mixed_scores).
Proof.
  apply Forall_cons. split; [reflexivity |].
  apply Forall_cons. split; [reflexivity | apply Forall_nil_2].
Defined.

Lemma C2_witness :
  exists call sampled accepted,
    spec_decode_sampler Scenarios.accept_all_verifier call = inr sampled
    /\ verify_accepted Scenarios.accept_all_verifier Scenarios.mixed_batch
         Scenarios.mixed_scores Scenarios.mixed_proposals 2 = inr accepted
    /\ (forall out,
          _verify_tokens Scenarios.accept_all_verifier Scenarios.mixed_batch
            Scenarios.mixed_scores Scenarios.mixed_proposals 2 = inr out ->
          out.1.1 = accepted)
    /\ (hidden_states Scenarios.mixed_scores = None ->
        _verify_tokens Scenarios.accept_all_verifier Scenarios.mixed_batch
          Scenarios.mixed_scores Scenarios.mixed_proposals 2
        = inr (accepted, logprobs Scenarios.mixed_scores, None))
    /\ length (rows accepted) = length Scenarios.mixed_batch
    /\ (forall i, (i < length Scenarios.mixed_batch)%nat ->
                  i ∈ (split_batch_by_proposal_len Scenarios.mixed_batch
                         (proposal_lens Scenarios.mixed_proposals)).1.2
                  \/ i ∈ (split_batch_by_proposal_len Scenarios.mixed_batch
                            (proposal_lens Scenarios.mixed_proposals)).2.2)
    /\ (forall j i,
          (split_batch_by_proposal_len Scenarios.mixed_batch
             (proposal_lens Scenarios.mixed_proposals)).1.2 !! j = Some i ->
          rows (draft_token_ids call) !! j
          = rows (proposal_token_ids Scenarios.mixed_proposals) !! i
          /\ rows accepted !! i = rows sampled !! j)
    /\ (forall i,
          proposal_lens Scenarios.mixed_proposals !! i = Some 0 ->
          exists tok rest,
            rows (token_ids Scenarios.mixed_scores) !! i = Some (tok :: rest)
            /\ rows accepted !! i
               = Some (tok :: replicate (Z.to_nat 2) (-1))).
Proof.
  apply (C2_verify_tokens_row_order Scenarios.accept_all_verifier
           Scenarios.mixed_batch Scenarios.mixed_scores
           Scenarios.mixed_proposals 2).
  - lia.
  - reflexivity.
  - exact mixed_proposal_lens.
  - exact mixed_scores_wf.
  - reflexivity.
  - reflexivity.
  - reflexivity.
  - reflexivity.
  - reflexivity.
  - exists None. reflexivity.
  - exact accept_all_sampler_shape.
Defined.

Lemma C3_witness :
  exists sampled filled accepted,
    verify_concat Scenarios.accept_all_verifier Scenarios.mixed_batch
      Scenarios.mixed_scores Scenarios.mixed_proposals 2
    = inr (Tensor2 (Z.to_nat (2 + 1)) (rows sampled ++ filled),
           (split_batch_by_proposal_len Scenarios.mixed_batch
              (proposal_lens Scenarios.mixed_proposals)).1.2
           ++ (split_batch_by_proposal_len Scenarios.mixed_batch
                 (proposal_lens Scenarios.mixed_proposals)).2.2)
    /\ length (rows sampled)
       = length (split_batch_by_proposal_len Scenarios.mixed_batch
                   (proposal_lens Scenarios.mixed_proposals)).1.2
    /\ verify_accepted Scenarios.accept_all_verifier Scenarios.mixed_batch
         Scenarios.mixed_scores Scenarios.mixed_proposals 2 = inr accepted
    /\ (forall i, proposal_lens Scenarios.mixed_proposals !! i = Some 0 ->
                  i ∈ (split_batch_by_proposal_len Scenarios.mixed_batch
                         (proposal_lens Scenarios.mixed_proposals)).2.2)
    /\ (forall j i,
          (split_batch_by_proposal_len Scenarios.mixed_batch
             (proposal_lens Scenarios.mixed_proposals)).2.2 !! j = Some i ->
          proposal_lens Scenarios.mixed_proposals !! i = Some 0
          /\ exists tok rest row,
               rows (token_ids Scenarios.mixed_scores) !! i
               = Some (tok :: rest)
               /\ row = tok :: replicate (Z.to_nat 2) (-1)
               /\ length row = Z.to_nat (2 + 1)
               /\ (rows sampled ++ filled)
                    !! (length (split_batch_by_proposal_len
                                  Scenarios.mixed_batch
                                  (proposal_lens Scenarios.mixed_proposals)).1.2
                        + j)%nat = Some row
               /\ rows accepted !! i = Some row).
Proof.
  apply (C3_non_speculative_rows Scenarios.accept_all_verifier
           Scenarios.mixed_batch Scenarios.mixed_scores
           Scenarios.mixed_proposals 2).
  - lia.
  - reflexivity.
  - exact mixed_proposal_lens.
  - exact mixed_scores_wf.
  - reflexivity.
  - reflexivity.
  - reflexivity.
  - reflexivity.
  - reflexivity.
  - exists None. reflexivity.
  - exact accept_all_sampler_shape.
Defined.

End VerifierFacts.


(** ** Output assembler *)

Module AssemblerFacts.
Import PySeq PyNum DataModel Outputs Tensor Util Bookkeeping Assembler
       Reference.

Lemma bind_inr {A B} (m : result A) (f : A -> result B) (b : B) :
  m ≫= f = inr b -> exists a, m = inr a /\ f a = inr b.
Proof.
  destruct m as [e|a]; [discriminate |]. intros H. exists a. auto.
Qed.

Lemma at2_replicate {A} (n m : nat) (x y : A) (step i : nat) :
  at2 (replicate n (replicate m x)) step i = inr y -> y = x.
Proof.
  unfold at2, py_getitem. intros H.
  destruct (replicate n (replicate m x) !! step) as [r|] eqn:Hr;
    cbn in H; [| discriminate].
  apply lookup_replicate in Hr as [-> _].
  destruct (replicate m x !! i) as [z|] eqn:Hz; cbn in H; [| discriminate].
  apply lookup_replicate in Hz as [-> _]. injection H as <-. reflexivity.
Qed.

Lemma slice_bound_le (len : nat) (i : Z) : (slice_bound len i <= len)%nat.
Proof. unfold slice_bound. destruct (i <? 0); lia. Qed.

Lemma py_slice_to_repeat {A} (x : A) (n stop : Z) :
  exists m, (m <= Z.to_nat n)%nat
            /\ py_slice_to (py_repeat x n) stop = replicate m x.
Proof.
  unfold py_slice_to, py_repeat. rewrite length_replicate, take_replicate.
  pose proof (slice_bound_le (Z.to_nat n) stop).
  eexists. split; [| reflexivity]. lia.
Qed.

Lemma dummy_prompt_logprobs_fmap (ids : list Z) :
  dummy_prompt_logprobs (Some (dummy_prompt_logprob <$> ids)).
Proof.
  cbn. apply Forall_fmap, Forall_forall. intros p _. cbn. auto.
Qed.

Lemma prefill_plogs_dummy (i : nat) (sg : SequenceGroupMetadata)
    (plogs : option (list logprobs_output)) :
  prefill_plogs None i sg = inr plogs -> dummy_prompt_logprobs plogs.
Proof.
  unfold prefill_plogs. destruct (wants_prompt_logprobs sg).
  - destruct (seq_data sg) as [|[sid sd] rest]; [discriminate |].
    intros H. injection H as <-. apply dummy_prompt_logprobs_fmap.
  - intros H. injection H as <-. exact I.
Qed.

Section DisabledLogprobs.
Variables (seq_group_metadata_list : list SequenceGroupMetadata)
          (accepted_token_ids : tensor2)
          (by_step : list (list Z))
          (batch_size num_steps : nat) (max_logprobs : Z)
          (seq_ids : list Z) (num_logprobs_per_seq : list Z).

Let lists := _create_dummy_logprob_lists batch_size num_steps max_logprobs.

Lemma prefill_outputs_dummy (sgs : list SequenceGroupMetadata) :
  forall (i : nat) (outs : list SamplerOutput),
    prefill_outputs accepted_token_ids lists seq_ids num_logprobs_per_seq
      None i sgs = inr outs ->
    dummy_outputs max_logprobs outs.
Proof.
  induction sgs as [|sg rest IH]; intros i outs H.
  - injection H as <-. apply Forall_nil_2.
  - cbn [prefill_outputs] in H.
    destruct (is_prompt sg); cbn [negb] in H;
      [| injection H as <-; apply Forall_nil_2].
    apply bind_inr in H as (n & _ & H).
    apply bind_inr in H as (sid & _ & H).
    apply bind_inr in H as (kw & Hkw & H).
    apply bind_inr in H as (plogs & Hplogs & H).
    destruct kw as [[[[tok rk] lp] ti] tl].
    apply bind_inr in H as (tl' & Htl & H).
    injection H as <-.
    apply Forall_cons. split; [| eapply IH; exact Htl].
    apply Forall_cons. split; [| apply Forall_nil_2].
    apply prefill_plogs_dummy in Hplogs. cbn.
    destruct (do_sample sg).
    + apply bind_inr in Hkw as (tok' & _ & Hkw).
      apply bind_inr in Hkw as (rk' & _ & Hkw).
      apply bind_inr in Hkw as (lp' & Hlp & Hkw).
      apply bind_inr in Hkw as (ti' & Hti & Hkw).
      apply bind_inr in Hkw as (tl0 & Htl0 & Hkw).
      injection Hkw as <- <- <- <- <-.
      subst lists. cbn in Hlp, Hti, Htl0.
      apply at2_replicate in Hlp, Hti, Htl0. subst lp' ti' tl0.
      split; [right; reflexivity |]. split; [exact Hplogs |].
      left. exists (slice_bound (Z.to_nat max_logprobs) n).
      split; [apply slice_bound_le |].
      unfold py_slice_to, py_repeat.
      rewrite !length_replicate, !take_replicate.
      pose proof (slice_bound_le (Z.to_nat max_logprobs) n).
      cbn. split; f_equal; lia.
    + injection Hkw as <- <- <- <- <-.
      split; [left; reflexivity |]. split; [exact Hplogs |].
      right. exists (Z.to_nat n). repeat split; reflexivity.
Qed.

Lemma decode_step_dummy (step_index : nat) (indices : list nat) :
  forall outs,
    decode_step seq_group_metadata_list by_step lists seq_ids
      num_logprobs_per_seq step_index indices = inr outs ->
    Forall (dummy_entry max_logprobs) outs.
Proof.
  induction indices as [|sequence_index rest IH]; intros outs H.
  - injection H as <-. apply Forall_nil_2.
  - cbn [decode_step] in H.
    apply bind_inr in H as (seq_meta & _ & H).
    destruct (is_prompt seq_meta); [apply IH; exact H |].
    apply bind_inr in H as (n & _ & H).
    apply bind_inr in H as (tok & _ & H).
    apply bind_inr in H as (rk & _ & H).
    apply bind_inr in H as (lp & Hlp & H).
    apply bind_inr in H as (sid & _ & H).
    apply bind_inr in H as (ti & Hti & H).
    apply bind_inr in H as (tl & Htl & H).
    apply bind_inr in H as (tl' & Hrest & H).
    injection H as <-.
    apply Forall_cons. split; [| apply IH; exact Hrest].
    subst lists. cbn in Hlp, Hti, Htl.
    apply at2_replicate in Hlp, Hti, Htl. subst lp ti tl.
    cbn. split; [right; reflexivity |]. split; [exact I |].
    left. exists (slice_bound (Z.to_nat max_logprobs) n).
    split; [apply slice_bound_le |].
    unfold py_slice_to, py_repeat.
    rewrite !length_replicate, !take_replicate.
    pose proof (slice_bound_le (Z.to_nat max_logprobs) n).
    cbn. split; f_equal; lia.
Qed.

Lemma decode_outputs_dummy (n : nat) (steps : list nat) :
  forall outs,
    decode_outputs seq_group_metadata_list by_step lists seq_ids
      num_logprobs_per_seq n steps = inr outs ->
    dummy_outputs max_logprobs outs.
Proof.
  induction steps as [|step_index rest IH]; intros outs H.
  - injection H as <-. apply Forall_nil_2.
  - cbn [decode_outputs] in H.
    apply bind_inr in H as (step_row & _ & H).
    destruct (all_decodes_padded seq_group_metadata_list step_row);
      [injection H as <-; apply Forall_nil_2 |].
    apply bind_inr in H as (entries & Hentries & H).
    apply bind_inr in H as (tl' & Hrest & H).
    injection H as <-.
    apply Forall_cons. split; [| apply IH; exact Hrest].
    cbn. eapply decode_step_dummy. exact Hentries.
Qed.

End DisabledLogprobs.

Lemma attach_metrics_dummy (max_logprobs : Z) (metrics : option Z)
    (l l' : list SamplerOutput) :
  attach_metrics metrics l = inr l' ->
  dummy_outputs max_logprobs l -> dummy_outputs max_logprobs l'.
Proof.
  unfold attach_metrics. destruct metrics as [m|].
  - destruct l as [|o rest]; [discriminate |].
    intros H. injection H as <-. intros Hd.
    apply Forall_cons in Hd as [Ho Hrest].
    apply Forall_cons. split; assumption.
  - intros H. injection H as <-. auto.
Qed.

(** With logprobs disabled the assembler emits placeholders only. *)
Lemma create_output_sampler_list_dummy (env : assembler_env) (t t' : tracker)
    (sgs : list SequenceGroupMetadata) (accepted_token_ids : tensor2)
    (target_logprobs : list prob_row) (k : Z) (outs : list SamplerOutput) :
  _disable_logprobs env = true ->
  _create_output_sampler_list env t sgs accepted_token_ids target_logprobs
    None k = inr (outs, t') ->
  dummy_outputs (max_logprobs env) outs.
Proof.
  intros Hdis. unfold _create_output_sampler_list. rewrite Hdis.
  destruct (get_all_seq_ids_and_request_ids sgs) as [seq_ids mapping].
  intros H.
  apply bind_inr in H as (prefills & Hpre & H).
  apply bind_inr in H as (decodes & Hdec & H).
  apply bind_inr in H as (t1 & _ & H).
  apply bind_inr in H as (l & Hl & H).
  injection H as <- <-.
  eapply attach_metrics_dummy; [exact Hl |].
  apply Forall_app. split.
  - eapply prefill_outputs_dummy. exact Hpre.
  - eapply decode_outputs_dummy. exact Hdec.
Qed.

Lemma serialize_loop_dummy (max_logprobs : Z)
    (sampled : list (list Z)) (entries : list (Z * SequenceData))
    (sgs : list SequenceGroupMetadata) :
  forall idx output_index outs,
    serialize_loop sampled entries idx output_index sgs = inr outs ->
    Forall (dummy_entry max_logprobs) outs.
Proof.
  induction sgs as [|sg rest IH]; intros idx output_index outs H.
  - injection H as <-. apply Forall_nil_2.
  - cbn [serialize_loop] in H.
    apply bind_inr in H as ([sid sd] & _ & H).
    assert (Hplogs : dummy_prompt_logprobs
              (if is_prompt sg && wants_prompt_logprobs sg
               then Some (dummy_prompt_logprob
                            <$> py_slice (prompt_token_ids sd)
                                  (if _num_computed_tokens sd =? 0 then 1
                                   else _num_computed_tokens sd)
                                  (_num_computed_tokens sd
                                   + token_chunk_size sg))
               else None)).
    { destruct (is_prompt sg && wants_prompt_logprobs sg);
        [apply dummy_prompt_logprobs_fmap | exact I]. }
    destruct (do_sample sg); cbn [negb] in H.
    + apply bind_inr in H as (tok & _ & H).
      apply bind_inr in H as (tl' & Hrest & H).
      injection H as <-.
      apply Forall_cons. split; [| eapply IH; exact Hrest].
      cbn. split; [right; reflexivity |]. split; [exact Hplogs |].
      left. exists 0%nat. split; [lia |]. split; reflexivity.
    + apply bind_inr in H as (tl' & Hrest & H).
      injection H as <-.
      apply Forall_cons. split; [| eapply IH; exact Hrest].
      exact Hplogs.
Qed.

(** The no-spec serializer emits logprob 0.0 and empty top-k lists. *)
Lemma serialize_sampler_output_no_logprobs_dummy (max_logprobs invalid : Z)
    (sgs : list SequenceGroupMetadata) (sampled_token_ids : tensor2)
    (outs : list SamplerOutput) :
  _serialize_sampler_output_no_logprobs invalid sgs sampled_token_ids
  = inr outs ->
  dummy_outputs max_logprobs outs.
Proof.
  unfold _serialize_sampler_output_no_logprobs. intros H.
  apply bind_inr in H as (entries & Hentries & H).
  injection H as <-.
  apply Forall_cons. split; [| apply Forall_nil_2].
  cbn. eapply serialize_loop_dummy. exact Hentries.
Qed.

End AssemblerFacts.

(** ** Steps with logprobs disabled *)

Module DisabledLogprobsFacts.
Import PySeq PyNum DataModel Outputs Tensor Util Bookkeeping Verifier
       Assembler Control Reference AssemblerFacts.

Lemma traced_bind_inr {A B} (m : traced A) (f : A -> traced B) (b : B) :
  (m ≫= f).2 = inr b -> exists a, m.2 = inr a /\ (f a).2 = inr b.
Proof.
  unfold mbind, traced_bind. destruct m as [tr [e|a]]; cbn;
    [discriminate |]. intros H. exists a. auto.
Qed.

Lemma run_no_spec_dummy (w : SpecDecodeWorker) (c : collaborators)
    (sgs : list SequenceGroupMetadata) (skip_proposer : bool)
    (outs : list SamplerOutput) :
  _disable_logprobs (assembler w) = true ->
  (_run_no_spec w c sgs skip_proposer).2 = inr outs ->
  dummy_outputs (max_logprobs (assembler w)) outs.
Proof.
  intros Hdis H. unfold _run_no_spec in H. rewrite Hdis in H.
  apply traced_bind_inr in H as (? & _ & H).
  apply traced_bind_inr in H as (sampler_output & _ & H).
  apply traced_bind_inr in H as (? & _ & H).
  cbn in H. eapply serialize_sampler_output_no_logprobs_dummy. exact H.
Qed.

Lemma run_speculative_decoding_step_dummy (w w' : SpecDecodeWorker)
    (c : collaborators) (sgs : list SequenceGroupMetadata) (k : Z)
    (outs : list SamplerOutput) :
  _disable_logprobs (assembler w) = true ->
  (_run_speculative_decoding_step w c sgs k).2 = inr (outs, w') ->
  dummy_outputs (max_logprobs (assembler w)) outs.
Proof.
  intros Hdis H. unfold _run_speculative_decoding_step in H.
  rewrite Hdis in H.
  apply traced_bind_inr in H as (? & _ & H).
  apply traced_bind_inr in H as (? & _ & H).
  apply traced_bind_inr in H as (? & _ & H).
  destruct (split_batch_by_proposal_len sgs
              (proposal_lens (get_spec_proposals c)))
    as [spec [non_spec_seqs non_spec_indices]].
  apply traced_bind_inr in H as (flags & _ & H).
  apply traced_bind_inr in H as (? & _ & H).
  apply traced_bind_inr in H as ([[accepted target_logprobs] hs] & _ & H).
  apply traced_bind_inr in H as (? & _ & H).
  apply traced_bind_inr in H as ([l t'] & Hout & H).
  cbn in H. injection H as <- _. cbn in Hout.
  eapply create_output_sampler_list_dummy; [exact Hdis | exact Hout].
Qed.

(** X1: with [disable_logprobs] every step of the driver that returns
    emits placeholders only.  Each logprob value is -inf or 0.0 (0.0 also
    in the prompt logprobs, whose top-k lists are empty).  Each top-k list
    holds placeholders only: at most [max_logprobs] entries [None] (the
    dummy list cut to the number of logprobs the sequence asked for, empty
    on a step without speculation), or, for a prefill chunk that samples no
    token, entries -1 and -inf. *)
Theorem disabled_logprobs_emit_placeholders
    (w w' : SpecDecodeWorker) (c : collaborators)
    (req : option ExecuteModelRequest) (tr : list event)
    (outs : list SamplerOutput) :
  _disable_logprobs (assembler w) = true ->
  execute_model w c req = (tr, inr (outs, w')) ->
  dummy_outputs (max_logprobs (assembler w)) outs.
Proof.
  intros Hdis Hrun. apply (f_equal snd) in Hrun. cbn [snd] in Hrun.
  destruct req as [req|].
  - unfold execute_model in Hrun.
    apply traced_bind_inr in Hrun as (t & _ & H).
    apply traced_bind_inr in H as (? & _ & H).
    apply traced_bind_inr in H as (? & _ & H).
    match type of H with
    | context [if ?b then _ else _] => destruct b
    end.
    + apply traced_bind_inr in H as (out & Hout & H).
      cbn in H. injection H as <- _.
      apply (run_no_spec_dummy (with_bookkeeping w t)) in Hout;
        [exact Hout | exact Hdis].
    + apply (run_speculative_decoding_step_dummy (with_bookkeeping w t))
        in H; [exact H | exact Hdis].
  - cbn in Hrun. injection Hrun as <- _. apply Forall_nil_2.
Qed.

Lemma disabled_logprobs_emit_placeholders_witness :
  exists tr outs w',
    execute_model (Scenarios.worker_without_logprobs 3)
      Scenarios.mixed_replies (Some Scenarios.mixed_request)
    = (tr, inr (outs, w'))
    /\ length outs = 4%nat
    /\ dummy_outputs 5 outs.
Proof.
  eexists _, _, _. split; [vm_compute; reflexivity |].
  split; [reflexivity |].
  eapply (disabled_logprobs_emit_placeholders
            (Scenarios.worker_without_logprobs 3) _
            Scenarios.mixed_replies (Some Scenarios.mixed_request)).
  - reflexivity.
  - vm_compute. reflexivity.
Defined.

End DisabledLogprobsFacts.

(** ** Block splitter *)

Module BlockSplitterFacts.
Import PyNum BlockSplitter CacheSizing.

Lemma round_half_even_cases (n d : Z) :
  round_half_even n d = n / d
  \/ (round_half_even n d = n / d + 1 /\ d <= 2 * (n mod d)).
Proof.
  unfold round_half_even.
  destruct (2 * (n mod d) <? d) eqn:H1; [left; reflexivity |].
  apply Z.ltb_ge in H1.
  destruct (d <? 2 * (n mod d)); [right; split; [reflexivity | lia] |].
  destruct (Z.even (n / d)); [left; reflexivity |].
  right. split; [reflexivity | lia].
Qed.

(** The exponent chosen for a dividend below [2^53]: never positive, and,
    unless it is the exponent of the subnormals, at most [- log2 b]. *)
Lemma quotient_expo_small (a b : Z) :
  0 < a < 2 ^ 53 -> 0 < b ->
  quotient_expo a b <= 0
  /\ (quotient_expo a b = 0 -> b = 1)
  /\ (quotient_expo a b = -1074 \/ quotient_expo a b <= - Z.log2 b).
Proof.
  intros [Ha0 Ha] Hb.
  assert (Hla : Z.log2 a < 53) by (apply Z.log2_lt_pow2; lia).
  pose proof (Z.log2_nonneg b) as Hlb.
  unfold quotient_expo.
  set (e1 := Z.log2 a - Z.log2 b - 52).
  set (e' := if scaled_floor a b e1 <? 2 ^ 52 then e1 - 1 else e1).
  assert (He' : e' <= e1) by (subst e'; destruct (_ <? _); lia).
  assert (He1 : e1 <= - Z.log2 b) by (subst e1; lia).
  split; [lia |]. split; [| lia].
  intros H0. assert (Z.log2 b = 0) as Hz by lia.
  pose proof (Z.log2_spec b Hb) as [_ Hup]. rewrite Hz in Hup.
  change (2 ^ Z.succ 0) with 2 in Hup. lia.
Qed.

Lemma pos_true_divide_exact (a b : Z) :
  0 < a < 2 ^ 53 -> 0 < b ->
  exists x, pos_true_divide a b = inr x /\ 0 <= mant x
            /\ int_of_float x = a / b.
Proof.
  intros Ha Hb.
  destruct (quotient_expo_small a b Ha Hb) as (Hle & Hzero & Hbound).
  unfold pos_true_divide.
  set (e := quotient_expo a b) in *.
  assert (Hof : (971 <? e) || ((e =? 971) && (2 ^ 53 <=? scaled_round a b e))
                = false).
  { apply orb_false_intro; [apply Z.ltb_ge; lia |].
    apply andb_false_intro1, Z.eqb_neq. lia. }
  rewrite Hof. eexists. split; [reflexivity |].
  unfold int_of_float, scaled_round. cbn [mant expo].
  destruct (0 <=? e) eqn:Hsign.
  - apply Z.leb_le in Hsign. assert (e = 0) as He0 by lia.
    rewrite (Hzero He0), He0. change (2 ^ 0) with 1.
    unfold round_half_even. rewrite Z.mul_1_r, Z.mod_1_r, Z.div_1_r.
    change (2 * 0 <? 1) with true. cbv iota. split; lia.
  - apply Z.leb_gt in Hsign.
    set (s := - e) in *. assert (0 < s) as Hs by lia.
    set (P := 2 ^ s). assert (0 < P) as HP by (apply Z.pow_pos_nonneg; lia).
    set (N := a * P).
    pose proof (Z.div_mod a b ltac:(lia)) as Hab.
    pose proof (Z.mod_pos_bound a b Hb) as Hr0.
    pose proof (Z.div_mod N b ltac:(lia)) as HN.
    pose proof (Z.mod_pos_bound N b Hb) as HR.
    set (q := a / b) in *. set (r0 := a mod b) in *.
    set (Q := N / b) in *. set (R := N mod b) in *.
    assert (0 <= q) as Hq by (apply Z.div_pos; lia).
    assert (HQlo : q * P <= Q) by (subst N; nia).
    assert (HQhi : Q < (q + 1) * P) by (subst N; nia).
    assert (Hm : q * P <= round_half_even N b < (q + 1) * P).
    { destruct (round_half_even_cases N b) as [-> | [-> Hup]]; [lia |].
      split; [lia |].
      destruct (Z.eq_dec Q ((q + 1) * P - 1)) as [HQ|]; [| lia].
      exfalso.
      assert (HR' : R = b - P * (b - r0)) by (subst N; nia).
      assert (H2P : 2 * P <= b) by nia.
      assert (HQ52 : Q < 2 ^ 52) by (subst N; nia).
      assert (HP52 : P <= 2 ^ 52) by nia.
      assert (Hs52 : s <= 52).
      { apply Z.nlt_ge. intros Hgt.
        assert (2 ^ 53 <= P); [| lia].
        subst P. apply Z.pow_le_mono_r; lia. }
      destruct Hbound as [Hclamp | Hlog]; [lia |].
      assert (s + 1 <= Z.log2 b); [| lia].
      apply Z.log2_le_pow2; [lia |].
      rewrite Z.pow_add_r by lia. change (2 ^ 1) with 2. lia. }
    split; [lia |].
    rewrite Z.quot_div_nonneg by lia.
    symmetry. apply Z.div_unique with (r := round_half_even N b - q * P);
      [lia |].
    fold P. lia.
Qed.

Lemma int_true_divide_exact (a b : Z) :
  0 <= a < 2 ^ 53 -> 0 < b ->
  exists x, int_true_divide a b = inr x /\ int_of_float x = a / b.
Proof.
  intros [Ha0 Ha] Hb. unfold int_true_divide.
  rewrite (proj2 (Z.eqb_neq b 0)) by lia.
  destruct (a =? 0) eqn:Hz.
  - apply Z.eqb_eq in Hz. subst a. eexists. split; [reflexivity |].
    reflexivity.
  - apply Z.eqb_neq in Hz.
    rewrite !Z.abs_eq by lia.
    destruct (pos_true_divide_exact a b ltac:(lia) Hb)
      as (x & -> & Hm & Hx).
    eexists. split; [reflexivity |].
    rewrite !Z.sgn_pos by lia. rewrite <- Hx.
    unfold int_of_float. cbn [mant expo]. rewrite Z.mul_1_l.
    reflexivity.
Qed.

(** X2: as long as [T * S] stays below [2^53], the split is the exact
    floor of [T * S / (S + P)]: the float division loses nothing. *)
Theorem split_num_cache_blocks_evenly_exact (S P T : Z) :
  0 < S -> 0 <= P -> 0 <= T -> T * S < 2 ^ 53 ->
  exists n,
    split_num_cache_blocks_evenly S P T = inr n
    /\ n = T * S / (S + P)
    /\ n * (S + P) <= T * S < (n + 1) * (S + P).
Proof.
  intros HS HP HT Hbound.
  destruct (int_true_divide_exact (T * S) (P + S)) as (x & Hx & Hfloor);
    [nia | lia |].
  unfold split_num_cache_blocks_evenly. rewrite Hx.
  exists (int_of_float x). split; [reflexivity |].
  rewrite Hfloor, (Z.add_comm P S). split; [reflexivity |].
  pose proof (Z.div_mod (T * S) (S + P) ltac:(lia)).
  pose proof (Z.mod_pos_bound (T * S) (S + P) ltac:(lia)). nia.
Qed.

Lemma split_num_cache_blocks_evenly_exact_witness :
  exists n,
    split_num_cache_blocks_evenly 100 60 160 = inr n
    /\ n = 160 * 100 / (100 + 60)
    /\ n * (100 + 60) <= 160 * 100 < (n + 1) * (100 + 60).
Proof.
  apply (split_num_cache_blocks_evenly_exact 100 60 160); lia.
Defined.

(** X3: the division by [P + S] raises [ZeroDivisionError] exactly when the
    two block sizes add up to zero, whatever the number of blocks. *)
Theorem split_num_cache_blocks_evenly_zero_division (S P T : Z) :
  split_num_cache_blocks_evenly S P T = inl ZeroDivisionError <-> P + S = 0.
Proof.
  unfold split_num_cache_blocks_evenly, int_true_divide.
  destruct (P + S =? 0) eqn:Hz.
  - apply Z.eqb_eq in Hz. split; [intros _; exact Hz | reflexivity].
  - apply Z.eqb_neq in Hz. split; [| intros; contradiction].
    destruct (T * S =? 0); [discriminate |].
    unfold pos_true_divide.
    destruct (_ || _); discriminate.
Qed.

Lemma pow2_split (j : Z) :
  54 <= j -> 2 ^ j = 2 ^ 54 * 2 ^ (j - 54) /\ 0 < 2 ^ (j - 54).
Proof.
  intros Hj. split.
  - rewrite <- Z.pow_add_r by lia. f_equal. lia.
  - apply Z.pow_pos_nonneg; lia.
Qed.

(** The quotient [(2^j - 1) / 2] in binary64: the significand rounds up to
    [2^53] at the exponent [j - 54]. *)
Lemma all_ones_quotient (j : Z) :
  54 <= j ->
  quotient_expo (2 ^ j - 1) 2 = j - 54
  /\ scaled_round (2 ^ j - 1) 2 (j - 54) = 2 ^ 53.
Proof.
  intros Hj. destruct (pow2_split j Hj) as [Hpow Hd].
  set (d := 2 ^ (j - 54)) in *.
  assert (Hlog : Z.log2 (2 ^ j - 1) = j - 1).
  { apply Z.log2_unique; [lia |].
    rewrite Z.pow_succ_r by lia.
    assert (2 ^ j = 2 * 2 ^ (j - 1)) as Hhalf.
    { rewrite <- (Z.pow_succ_r 2 (j - 1)) by lia. f_equal. lia. }
    assert (0 < 2 ^ (j - 1)) by (apply Z.pow_pos_nonneg; lia).
    lia. }
  assert (Hdiv : (2 ^ j - 1) / (2 * d) = 2 ^ 53 - 1).
  { symmetry. apply Z.div_unique with (r := 2 * d - 1); [lia |].
    rewrite Hpow. change (2 ^ 54) with (2 * 2 ^ 53). lia. }
  assert (Hmod : (2 ^ j - 1) mod (2 * d) = 2 * d - 1).
  { symmetry. apply Z.mod_unique with (q := 2 ^ 53 - 1); [lia |].
    rewrite Hpow. change (2 ^ 54) with (2 * 2 ^ 53). lia. }
  assert (Hexpo : quotient_expo (2 ^ j - 1) 2 = j - 54).
  { unfold quotient_expo. rewrite Hlog. change (Z.log2 2) with 1.
    replace (j - 1 - 1 - 52) with (j - 54) by lia.
    unfold scaled_floor. rewrite (proj2 (Z.leb_le 0 (j - 54))) by lia.
    fold d. rewrite Hdiv.
    change (2 ^ 53 - 1 <? 2 ^ 52) with false. cbv iota. lia. }
  split; [exact Hexpo |].
  unfold scaled_round. rewrite (proj2 (Z.leb_le 0 (j - 54))) by lia.
  fold d. unfold round_half_even. rewrite Hdiv, Hmod.
  rewrite (proj2 (Z.ltb_ge (2 * (2 * d - 1)) (2 * d))) by lia.
  destruct (2 * d <? 2 * (2 * d - 1)); [reflexivity |].
  change (Z.even (2 ^ 53 - 1)) with false. reflexivity.
Qed.

(** X4: above [2^53] the float division can round up.  With blocks of one
    byte each and [2^j - 1] blocks to split, [54 <= j <= 1024], the result
    is [2^(j-1)], one more than the floor: the two caches together would
    need [2^j] bytes where [2^j - 1] were found. *)
Theorem split_num_cache_blocks_evenly_rounds_up (j : Z) :
  54 <= j <= 1024 ->
  split_num_cache_blocks_evenly 1 1 (2 ^ j - 1) = inr (2 ^ (j - 1))
  /\ (2 ^ j - 1) * 1 < 2 ^ (j - 1) * (1 + 1).
Proof.
  intros [Hlo Hhi].
  destruct (all_ones_quotient j Hlo) as [Hexpo Hround].
  assert (Hhalf : 2 ^ j = 2 * 2 ^ (j - 1)).
  { rewrite <- (Z.pow_succ_r 2 (j - 1)) by lia. f_equal. lia. }
  assert (Hpos : 0 < 2 ^ (j - 1)) by (apply Z.pow_pos_nonneg; lia).
  split; [| lia].
  unfold split_num_cache_blocks_evenly, int_true_divide.
  rewrite Z.mul_1_r. change (1 + 1) with 2. change (2 =? 0) with false.
  rewrite (proj2 (Z.eqb_neq (2 ^ j - 1) 0)) by lia. cbv iota.
  rewrite (Z.abs_eq (2 ^ j - 1)) by lia. change (Z.abs 2) with 2.
  unfold pos_true_divide. rewrite Hexpo, Hround.
  rewrite (proj2 (Z.ltb_ge 971 (j - 54))) by lia.
  rewrite (proj2 (Z.eqb_neq (j - 54) 971)) by lia.
  cbn [orb andb mant expo]. rewrite Z.sgn_pos by lia.
  change (Z.sgn 2) with 1. rewrite !Z.mul_1_l.
  unfold int_of_float. cbn [mant expo].
  rewrite (proj2 (Z.leb_le 0 (j - 54))) by lia.
  f_equal. rewrite <- Z.pow_add_r by lia. f_equal. lia.
Qed.

Lemma split_num_cache_blocks_evenly_rounds_up_witness :
  split_num_cache_blocks_evenly 1 1 (2 ^ 54 - 1) = inr (2 ^ (54 - 1))
  /\ (2 ^ 54 - 1) * 1 < 2 ^ (54 - 1) * (1 + 1).
Proof.
  apply (split_num_cache_blocks_evenly_rounds_up 54). lia.
Defined.

(** X5: a quotient beyond the range of binary64 raises [OverflowError]:
    with blocks of one byte each, for [2^j - 1] blocks from [j = 1025]
    on. *)
Theorem split_num_cache_blocks_evenly_overflow (j : Z) :
  1025 <= j ->
  split_num_cache_blocks_evenly 1 1 (2 ^ j - 1) = inl OverflowError.
Proof.
  intros Hj.
  destruct (all_ones_quotient j ltac:(lia)) as [Hexpo Hround].
  assert (Hpos : 0 < 2 ^ j) by (apply Z.pow_pos_nonneg; lia).
  assert (Hone : 2 ^ j <> 1).
  { assert (2 ^ 1 <= 2 ^ j) by (apply Z.pow_le_mono_r; lia).
    change (2 ^ 1) with 2 in *. lia. }
  unfold split_num_cache_blocks_evenly, int_true_divide.
  rewrite Z.mul_1_r. change (1 + 1) with 2. change (2 =? 0) with false.
  rewrite (proj2 (Z.eqb_neq (2 ^ j - 1) 0)) by lia. cbv iota.
  rewrite (Z.abs_eq (2 ^ j - 1)) by lia. change (Z.abs 2) with 2.
  unfold pos_true_divide. rewrite Hexpo, Hround.
  destruct (971 <? j - 54) eqn:Hgt; [reflexivity |].
  apply Z.ltb_ge in Hgt.
  rewrite (proj2 (Z.eqb_eq (j - 54) 971)) by lia.
  reflexivity.
Qed.

Lemma split_num_cache_blocks_evenly_overflow_witness :
  split_num_cache_blocks_evenly 1 1 (2 ^ 1025 - 1) = inl OverflowError.
Proof.
  apply (split_num_cache_blocks_evenly_overflow 1025). lia.
Defined.

(** X6: [determine_num_available_blocks], for block sizes and a block
    count whose product stays below [2^53]: it returns, the CPU blocks are
    the scorer's, the GPU blocks are no more than the scorer's, and the two
    caches of that many blocks fit in the memory the scorer's blocks
    take. *)
Theorem determine_num_available_blocks_fits (p : worker_profile)
    (num_gpu_blocks num_cpu_blocks : Z) :
  scorer_num_available_blocks p = (num_gpu_blocks, num_cpu_blocks) ->
  0 < scorer_cache_block_size_bytes p ->
  0 <= proposer_cache_block_size_bytes p ->
  0 <= num_gpu_blocks ->
  num_gpu_blocks * scorer_cache_block_size_bytes p < 2 ^ 53 ->
  exists n,
    determine_num_available_blocks p = inr (n, num_cpu_blocks)
    /\ 0 <= n <= num_gpu_blocks
    /\ n * scorer_cache_block_size_bytes p
       + n * proposer_cache_block_size_bytes p
       <= num_gpu_blocks * scorer_cache_block_size_bytes p.
Proof.
  intros Hp HS HP HT Hbound.
  destruct (int_true_divide_exact
              (num_gpu_blocks * scorer_cache_block_size_bytes p)
              (proposer_cache_block_size_bytes p
               + scorer_cache_block_size_bytes p))
    as (x & Hx & Hfloor); [nia | lia |].
  unfold determine_num_available_blocks, split_num_cache_blocks_evenly.
  rewrite Hp, Hx. cbn. exists (int_of_float x).
  split; [reflexivity |]. rewrite Hfloor.
  set (S := scorer_cache_block_size_bytes p) in *.
  set (P := proposer_cache_block_size_bytes p) in *.
  pose proof (Z.div_mod (num_gpu_blocks * S) (P + S) ltac:(lia)).
  pose proof (Z.mod_pos_bound (num_gpu_blocks * S) (P + S) ltac:(lia)).
  assert (0 <= num_gpu_blocks * S / (P + S)) by (apply Z.div_pos; nia).
  split; [| nia].
  split; [assumption |].
  apply Z.div_le_upper_bound; [lia | nia].
Qed.

Lemma determine_num_available_blocks_fits_witness :
  exists n,
    determine_num_available_blocks
      {| scorer_num_available_blocks := (7, 512);
         scorer_cache_block_size_bytes := 100;
         proposer_cache_block_size_bytes := 100 |} = inr (n, 512)
    /\ 0 <= n <= 7
    /\ n * 100 + n * 100 <= 7 * 100.
Proof.
  apply (determine_num_available_blocks_fits
           {| scorer_num_available_blocks := (7, 512);
              scorer_cache_block_size_bytes := 100;
              proposer_cache_block_size_bytes := 100 |} 7 512);
    cbn; try reflexivity; lia.
Defined.

End BlockSplitterFacts.

(** ** Steps of the driver and what the other ranks do for them *)

Module DriverFacts.
Import PySeq DataModel Outputs Tensor Util Threshold Bookkeeping Verifier
       Assembler Control Reference ControlFacts.

Lemma traced_bind_trace {A B} (m : traced A) (f : A -> traced B) :
  (m ≫= f).1 = m.1 ++ match m.2 with inl _ => [] | inr a => (f a).1 end.
Proof.
  unfold mbind, traced_bind. destruct m as [tr [e|a]]; cbn;
    [rewrite app_nil_r |]; reflexivity.
Qed.

Lemma model_calls_bind {A B} (m : traced A) (f : A -> traced B) :
  Forall (fun e => is_model_call e = true) m.1 ->
  (forall a, Forall (fun e => is_model_call e = true) (f a).1) ->
  Forall (fun e => is_model_call e = true) (m ≫= f).1.
Proof.
  intros Hm Hf. rewrite traced_bind_trace. apply Forall_app. split; [exact Hm |].
  destruct m.2; [apply Forall_nil_2 | apply Hf].
Qed.

Lemma model_calls_repeat_n (n : nat) (e : event) :
  is_model_call e = true ->
  Forall (fun e => is_model_call e = true) (repeat_n n (emit e)).1.
Proof.
  intros He. rewrite repeat_n_emit. cbn. apply Forall_replicate. exact He.
Qed.

Lemma model_calls_when (b : bool) (body : traced unit) :
  Forall (fun e => is_model_call e = true) body.1 ->
  Forall (fun e => is_model_call e = true) (when b body).1.
Proof. destruct b; [auto | intros _; apply Forall_nil_2]. Qed.

(** [_run_no_spec] and [_run_speculative_decoding_step] broadcast
    nothing. *)
Lemma run_no_spec_model_calls (w : SpecDecodeWorker) (c : collaborators)
    (sgs : list SequenceGroupMetadata) (skip_proposer : bool) :
  Forall (fun e => is_model_call e = true)
         (_run_no_spec w c sgs skip_proposer).1.
Proof.
  unfold _run_no_spec.
  apply model_calls_bind; [repeat constructor |]. intros _.
  apply model_calls_bind; [apply Forall_nil_2 |]. intros so.
  apply model_calls_bind.
  - apply model_calls_when, model_calls_repeat_n. reflexivity.
  - intros _. destruct (_disable_logprobs (assembler w)); apply Forall_nil_2.
Qed.

Lemma run_speculative_decoding_step_model_calls (w : SpecDecodeWorker)
    (c : collaborators) (sgs : list SequenceGroupMetadata) (k : Z) :
  Forall (fun e => is_model_call e = true)
         (_run_speculative_decoding_step w c sgs k).1.
Proof.
  unfold _run_speculative_decoding_step.
  apply model_calls_bind; [apply model_calls_repeat_n; reflexivity |].
  intros _.
  apply model_calls_bind; [destruct (_ && _); apply Forall_nil_2 |].
  intros _.
  apply model_calls_bind; [repeat constructor |]. intros _.
  destruct (split_batch_by_proposal_len sgs
              (proposal_lens (get_spec_proposals c)))
    as [spec [non_spec_seqs non_spec_indices]].
  apply model_calls_bind; [apply Forall_nil_2 |]. intros flags.
  apply model_calls_bind.
  { apply model_calls_when. repeat constructor. }
  intros _.
  apply model_calls_bind; [apply Forall_nil_2 |].
  intros [[accepted target_logprobs] hs].
  apply model_calls_bind; [destruct (_ =? _); apply Forall_nil_2 |].
  intros _.
  apply model_calls_bind; [apply Forall_nil_2 |]. intros out.
  apply Forall_nil_2.
Qed.

(** The trace of a step of the driver: nothing when the check on prompt-only
    batches fails, otherwise the broadcast of the control dict followed by
    forward passes only. *)
Lemma execute_model_trace (w : SpecDecodeWorker) (c : collaborators)
    (req : ExecuteModelRequest) :
  (execute_model w c (Some req)).1 = []
  \/ exists no_spec calls,
       (execute_model w c (Some req)).1
       = Broadcast
           (broadcast_dict (num_lookahead_slots req) no_spec
              (_should_disable_all_speculation (disable_by_batch_size w)
                 (running_queue_size req))
              (existsb is_prompt (seq_group_metadata_list req)))
         :: calls
       /\ Forall (fun e => is_model_call e = true) calls.
Proof.
  unfold execute_model.
  rewrite BookkeepingFacts.track_finished_closed_form.
  rewrite traced_bind_trace. cbn [lift fst snd app]. cbv zeta.
  rewrite traced_bind_trace.
  match goal with
  | |- context [if ?b then lift _ else _] => destruct b
  end; [left; reflexivity |].
  right. cbn [mret traced_ret fst snd app].
  rewrite traced_bind_trace. cbn [emit fst snd app].
  do 2 eexists. split; [reflexivity |].
  match goal with
  | |- context [if ?b then _ ≫= _ else _] => destruct b
  end.
  - apply model_calls_bind; [apply run_no_spec_model_calls |].
    intros out. apply Forall_nil_2.
  - apply run_speculative_decoding_step_model_calls.
Qed.

(** X7: what the driver broadcasts in a step tells a non-driver rank
    whether to go on.  For a request the dict holds the four keys the rank
    reads, so the rank raises no [KeyError] and returns [True]; for the
    request [None] the dict is empty and the rank returns [False] without a
    forward pass. *)
Theorem driver_broadcast_stops_iff_no_request (w : SpecDecodeWorker)
    (c : collaborators) (req : option ExecuteModelRequest)
    (d : gmap string pyval) :
  Broadcast d ∈ (execute_model w c req).1 ->
  exists calls,
    _run_non_driver_rank d
    = (calls, inr (match req with Some _ => true | None => false end))
    /\ (req = None -> calls = []).
Proof.
  destruct req as [req|].
  - destruct (execute_model_trace w c req) as [-> | (ns & calls & -> & Hcalls)].
    + intros H. apply elem_of_nil in H. contradiction.
    + intros H. apply elem_of_cons in H as [H | H].
      * injection H as ->. eexists. split; [| discriminate].
        apply run_non_driver_rank_broadcast_dict.
      * rewrite Forall_forall in Hcalls. apply Hcalls in H. discriminate.
  - cbn. intros H. apply elem_of_cons in H as [H | H].
    + injection H as ->. exists []. split; reflexivity.
    + apply elem_of_nil in H. contradiction.
Qed.

Lemma driver_broadcast_stops_iff_no_request_witness :
  exists calls,
    _run_non_driver_rank (broadcast_dict 0 true false true)
    = (calls, inr true)
    /\ (Some Scenarios.prefill_request = None -> calls = []).
Proof.
  apply (driver_broadcast_stops_iff_no_request
           (Scenarios.worker_with_prefill_steps 1) (Scenarios.replies [42])
           (Some Scenarios.prefill_request)).
  vm_compute. apply list_elem_of_here.
Defined.

(** The check on prompt-only batches, when it passes. *)
Lemma prompt_only_check_passes (sgs : list SequenceGroupMetadata) (k : Z) :
  forallb is_prompt sgs = false \/ sgs = [] \/ k = 0 ->
  forallb is_prompt sgs && negb (bool_decide (sgs = [])) && negb (k =? 0)
  = false.
Proof.
  intros [-> | [-> | ->]]; [reflexivity | |].
  - rewrite bool_decide_eq_true_2 by reflexivity.
    apply andb_false_intro1, andb_false_intro2. reflexivity.
  - apply andb_false_intro2. reflexivity.
Qed.

Lemma run_no_spec_skip_proposer_trace (w : SpecDecodeWorker)
    (c : collaborators) (sgs : list SequenceGroupMetadata) :
  (_run_no_spec w c sgs true).1 = [ScorerExecute].
Proof.
  unfold _run_no_spec.
  rewrite traced_bind_trace. cbn [emit fst snd app].
  rewrite traced_bind_trace. cbn [lift fst snd app].
  destruct (scorer_execute_model c) as [|so [|so' rest]]; cbn [ok raise];
    try reflexivity.
  rewrite traced_bind_trace. cbn.
  destruct (_disable_logprobs (assembler w)); reflexivity.
Qed.

Lemma model_calls_no_spec_driver_calls (n : Z) (skip : bool) :
  model_calls (no_spec_driver_calls n skip) = no_spec_driver_calls n skip.
Proof.
  unfold model_calls, no_spec_driver_calls. cbn. f_equal.
  destruct skip; [reflexivity |].
  induction (Z.to_nat n) as [|m IH]; [reflexivity |].
  cbn. f_equal. exact IH.
Qed.

(** The trace of a step that runs without speculation. *)
Lemma execute_model_no_spec_trace (w : SpecDecodeWorker) (c : collaborators)
    (req : ExecuteModelRequest) (so : scorer_output) :
  scorer_execute_model c = [so] ->
  forallb is_prompt (seq_group_metadata_list req) = false
  \/ seq_group_metadata_list req = [] \/ num_lookahead_slots req = 0 ->
  (num_lookahead_slots req =? 0)
  || _should_disable_all_speculation (disable_by_batch_size w)
       (running_queue_size req)
  || forallb (fun sgm => bool_decide (num_speculative_tokens sgm = Some 0))
       (seq_group_metadata_list req) = true ->
  (execute_model w c (Some req)).1
  = Broadcast
      (broadcast_dict (num_lookahead_slots req) true
         (_should_disable_all_speculation (disable_by_batch_size w)
            (running_queue_size req))
         (existsb is_prompt (seq_group_metadata_list req)))
    :: no_spec_driver_calls (_num_spec_prefill_steps w)
         (_should_disable_all_speculation (disable_by_batch_size w)
            (running_queue_size req)).
Proof.
  intros Hso Hpass Hns. unfold execute_model.
  rewrite BookkeepingFacts.track_finished_closed_form.
  rewrite traced_bind_trace. cbn [lift fst snd app]. cbv zeta.
  cbn [disable_by_batch_size with_bookkeeping].
  rewrite (prompt_only_check_passes _ _ Hpass), Hns.
  rewrite traced_bind_trace. cbn [mret traced_ret fst snd app].
  rewrite traced_bind_trace. cbn [emit fst snd app]. f_equal.
  rewrite traced_bind_trace.
  rewrite (run_no_spec_trace _ c _ _ so Hso).
  cbn [_num_spec_prefill_steps with_bookkeeping].
  destruct (_run_no_spec _ _ _ _).2; exact (app_nil_r _).
Qed.

(** X8: on a step without speculation the driver and a non-driver rank
    make the same forward passes exactly when all speculation is disabled
    (scorer only) or the worker's [_num_spec_prefill_steps] equals
    [max(num_lookahead_slots, 1)]: the driver runs the proposer
    [_num_spec_prefill_steps] times after the scorer, the other ranks
    [max(num_lookahead_slots, 1)] times. *)
Theorem no_spec_step_same_calls_iff (w : SpecDecodeWorker)
    (c : collaborators) (req : ExecuteModelRequest) (so : scorer_output) :
  scorer_execute_model c = [so] ->
  forallb is_prompt (seq_group_metadata_list req) = false
  \/ seq_group_metadata_list req = [] \/ num_lookahead_slots req = 0 ->
  (num_lookahead_slots req =? 0)
  || _should_disable_all_speculation (disable_by_batch_size w)
       (running_queue_size req)
  || forallb (fun sgm => bool_decide (num_speculative_tokens sgm = Some 0))
       (seq_group_metadata_list req) = true ->
  exists d calls,
    (execute_model w c (Some req)).1 = Broadcast d :: calls
    /\ model_calls calls = calls
    /\ (calls = (_run_non_driver_rank d).1
        <-> _should_disable_all_speculation (disable_by_batch_size w)
              (running_queue_size req) = true
            \/ Z.to_nat (_num_spec_prefill_steps w)
               = Z.to_nat (Z.max (num_lookahead_slots req) 1)).
Proof.
  intros Hso Hpass Hns.
  rewrite (execute_model_no_spec_trace w c req so Hso Hpass Hns).
  do 2 eexists. split; [reflexivity |].
  split; [apply model_calls_no_spec_driver_calls |].
  rewrite run_non_driver_rank_broadcast_dict. cbn [fst].
  apply no_spec_calls_agree_iff.
Qed.

Lemma no_spec_step_same_calls_iff_witness :
  exists d calls,
    (execute_model (Scenarios.worker_with_prefill_steps 1)
       (Scenarios.replies [42]) (Some Scenarios.prefill_request)).1
    = Broadcast d :: calls
    /\ model_calls calls = calls
    /\ (calls = (_run_non_driver_rank d).1
        <-> _should_disable_all_speculation
              (disable_by_batch_size (Scenarios.worker_with_prefill_steps 1))
              (running_queue_size Scenarios.prefill_request) = true
            \/ Z.to_nat (_num_spec_prefill_steps
                           (Scenarios.worker_with_prefill_steps 1))
               = Z.to_nat
                   (Z.max (num_lookahead_slots Scenarios.prefill_request) 1)).
Proof.
  apply (no_spec_step_same_calls_iff (Scenarios.worker_with_prefill_steps 1)
           (Scenarios.replies [42]) Scenarios.prefill_request
           (Scenarios.scorer_reply [42])).
  - reflexivity.
  - right. right. reflexivity.
  - reflexivity.
Defined.

(** X9: once the running queue has reached the threshold, the step runs
    the scorer and nothing else, on the driver and, for the dict the driver
    broadcasts, on the other ranks: the proposer is skipped everywhere. *)
Theorem auto_disabled_step_runs_scorer_only (w : SpecDecodeWorker)
    (c : collaborators) (req : ExecuteModelRequest) :
  _should_disable_all_speculation (disable_by_batch_size w)
    (running_queue_size req) = true ->
  forallb is_prompt (seq_group_metadata_list req) = false
  \/ seq_group_metadata_list req = [] \/ num_lookahead_slots req = 0 ->
  exists d,
    (execute_model w c (Some req)).1 = [Broadcast d; ScorerExecute]
    /\ d !! "disable_all_speculation" = Some (PBool true)
    /\ (_run_non_driver_rank d).1 = [ScorerExecute].
Proof.
  intros Hda Hpass. unfold execute_model.
  rewrite BookkeepingFacts.track_finished_closed_form.
  rewrite traced_bind_trace. cbn [lift fst snd app]. cbv zeta.
  cbn [disable_by_batch_size with_bookkeeping].
  rewrite (prompt_only_check_passes _ _ Hpass), Hda.
  rewrite orb_true_r. cbn [orb].
  rewrite traced_bind_trace. cbn [mret traced_ret fst snd app].
  rewrite traced_bind_trace. cbn [emit fst snd app].
  rewrite traced_bind_trace, run_no_spec_skip_proposer_trace.
  eexists. split; [| split].
  - f_equal. destruct (_run_no_spec _ _ _ _).2; reflexivity.
  - apply broadcast_dict_disable_all_speculation.
  - rewrite run_non_driver_rank_broadcast_dict. reflexivity.
Qed.

Lemma auto_disabled_step_runs_scorer_only_witness :
  exists d,
    (execute_model
       {| disable_by_batch_size := Finite 2;
          _num_spec_prefill_steps := 1;
          _allow_zero_draft_token_step := true;
          bookkeeping := Tracker ∅ ∅;
          verifier := Scenarios.idle_verifier;
          assembler := Scenarios.plain_assembler false |}
       (Scenarios.replies [42; 43])
       (Some Scenarios.switched_off_request)).1
    = [Broadcast d; ScorerExecute]
    /\ d !! "disable_all_speculation" = Some (PBool true)
    /\ (_run_non_driver_rank d).1 = [ScorerExecute].
Proof.
  apply (auto_disabled_step_runs_scorer_only
           {| disable_by_batch_size := Finite 2;
              _num_spec_prefill_steps := 1;
              _allow_zero_draft_token_step := true;
              bookkeeping := Tracker ∅ ∅;
              verifier := Scenarios.idle_verifier;
              assembler := Scenarios.plain_assembler false |}
           (Scenarios.replies [42; 43]) Scenarios.switched_off_request).
  - reflexivity.
  - left. reflexivity.
Defined.

Lemma maybe_disable_all_zero (sgs : list SequenceGroupMetadata) :
  forallb (fun sgm => bool_decide (num_speculative_tokens sgm = Some 0))
          (_maybe_disable_speculative_tokens true sgs) = true
  /\ is_prompt <$> _maybe_disable_speculative_tokens true sgs
     = is_prompt <$> sgs.
Proof.
  unfold _maybe_disable_speculative_tokens. cbn [negb].
  induction sgs as [|sg rest [IH1 IH2]]; [split; reflexivity |].
  rewrite !fmap_cons. cbn [forallb num_speculative_tokens is_prompt].
  rewrite bool_decide_eq_true_2 by reflexivity.
  split; [exact IH1 | f_equal; exact IH2].
Qed.

(** X10: speculation stays off for records that went through
    [_maybe_disable_speculative_tokens] with the flag set: a later step
    whose batch holds only such records runs without speculation (scorer
    first, then the prefill passes of the proposer), whatever its lookahead
    slots, and tells the other ranks so. *)
Theorem disabled_records_never_speculate (w : SpecDecodeWorker)
    (c : collaborators) (req : ExecuteModelRequest)
    (sgs : list SequenceGroupMetadata) (so : scorer_output) :
  seq_group_metadata_list req = _maybe_disable_speculative_tokens true sgs ->
  scorer_execute_model c = [so] ->
  forallb is_prompt sgs = false \/ sgs = [] \/ num_lookahead_slots req = 0 ->
  exists d,
    (execute_model w c (Some req)).1
    = Broadcast d
      :: no_spec_driver_calls (_num_spec_prefill_steps w)
           (_should_disable_all_speculation (disable_by_batch_size w)
              (running_queue_size req))
    /\ d !! "no_spec" = Some (PBool true).
Proof.
  intros Hreq Hso Hpass.
  destruct (maybe_disable_all_zero sgs) as [Hzero Hprompts].
  rewrite (execute_model_no_spec_trace w c req so Hso).
  - eexists. split; [reflexivity | apply broadcast_dict_no_spec].
  - rewrite Hreq.
    destruct Hpass as [Hp | [-> | Hk]]; [left | right; left; reflexivity
                                        | right; right; exact Hk].
    rewrite <- Hp. clear -Hprompts.
    revert Hprompts.
    generalize (_maybe_disable_speculative_tokens true sgs) as l.
    induction sgs as [|sg rest IH]; intros [|x l] H; try discriminate;
      [reflexivity |].
    rewrite !fmap_cons in H. injection H as Hx Hl. cbn.
    rewrite Hx, (IH l Hl). reflexivity.
  - rewrite Hreq, Hzero. apply orb_true_r.
Qed.

Lemma disabled_records_never_speculate_witness :
  exists d,
    (execute_model (Scenarios.worker_with_prefill_steps 1)
       (Scenarios.replies [42; 43]) (Some Scenarios.switched_off_request)).1
    = Broadcast d
      :: no_spec_driver_calls
           (_num_spec_prefill_steps (Scenarios.worker_with_prefill_steps 1))
           (_should_disable_all_speculation
              (disable_by_batch_size (Scenarios.worker_with_prefill_steps 1))
              (running_queue_size Scenarios.switched_off_request))
    /\ d !! "no_spec" = Some (PBool true).
Proof.
  apply (disabled_records_never_speculate
           (Scenarios.worker_with_prefill_steps 1)
           (Scenarios.replies [42; 43]) Scenarios.switched_off_request
           [Scenarios.decode_record "req-1" 1 4;
            Scenarios.decode_record "req-2" 2 4]
           (Scenarios.scorer_reply [42; 43])).
  - reflexivity.
  - reflexivity.
  - left. reflexivity.
Defined.

(** X23: a step on an empty batch never speculates, whatever the
    lookahead slots: the driver broadcasts [no_spec] and no prompt, runs the
    scorer and then, unless speculation is auto-disabled, the proposer
    [_num_spec_prefill_steps] times. *)
Theorem empty_batch_step (w : SpecDecodeWorker) (c : collaborators)
    (req : ExecuteModelRequest) (so : scorer_output) :
  seq_group_metadata_list req = [] ->
  scorer_execute_model c = [so] ->
  (execute_model w c (Some req)).1
  = Broadcast
      (broadcast_dict (num_lookahead_slots req) true
         (_should_disable_all_speculation (disable_by_batch_size w)
            (running_queue_size req))
         false)
    :: no_spec_driver_calls (_num_spec_prefill_steps w)
         (_should_disable_all_speculation (disable_by_batch_size w)
            (running_queue_size req)).
Proof.
  intros Hempty Hso.
  rewrite (execute_model_no_spec_trace w c req so Hso).
  - rewrite Hempty. reflexivity.
  - right. left. exact Hempty.
  - rewrite Hempty. apply orb_true_r.
Qed.

Lemma empty_batch_step_witness :
  (execute_model (Scenarios.worker_with_prefill_steps 1)
     (Scenarios.replies [])
     (Some {| seq_group_metadata_list := [];
              num_lookahead_slots := 3;
              running_queue_size := 0;
              finished_requests_ids := [] |})).1
  = [Broadcast (broadcast_dict 3 true false false);
     ScorerExecute; ProposerExecute].
Proof.
  apply (empty_batch_step (Scenarios.worker_with_prefill_steps 1)
           (Scenarios.replies [])
           {| seq_group_metadata_list := [];
              num_lookahead_slots := 3;
              running_queue_size := 0;
              finished_requests_ids := [] |}
           (Scenarios.scorer_reply [])).
  - reflexivity.
  - reflexivity.
Defined.

Lemma traced_bind_ok {A B} (m : traced A) (f : A -> traced B)
    (tr : list event) (a : A) :
  m = (tr, inr a) -> m ≫= f = (tr ++ (f a).1, (f a).2).
Proof. intros ->. reflexivity. Qed.

Lemma traced_bind_fail {A B} (m : traced A) (f : A -> traced B)
    (tr : list event) (e : exception) :
  m = (tr, inl e) -> m ≫= f = (tr, inl e).
Proof. intros ->. reflexivity. Qed.

(** X24: a speculative step whose proposer returned no proposal, on a
    worker that does not allow steps without draft tokens: the driver
    raises [RuntimeError] after the proposer's passes and before the
    scorer runs, having told the other ranks to speculate. *)
Theorem zero_draft_step_raises_before_scoring (w : SpecDecodeWorker)
    (c : collaborators) (req : ExecuteModelRequest) :
  _allow_zero_draft_token_step w = false ->
  no_proposals (get_spec_proposals c) = true ->
  forallb is_prompt (seq_group_metadata_list req) = false
  \/ seq_group_metadata_list req = [] \/ num_lookahead_slots req = 0 ->
  (num_lookahead_slots req =? 0)
  || _should_disable_all_speculation (disable_by_batch_size w)
       (running_queue_size req)
  || forallb (fun sgm => bool_decide (num_speculative_tokens sgm = Some 0))
       (seq_group_metadata_list req) = false ->
  exists d,
    execute_model w c (Some req)
    = (Broadcast d :: replicate (draft_forward_passes c) ProposerExecute,
       inl RuntimeError)
    /\ d !! "no_spec" = Some (PBool false).
Proof.
  intros Hzero Hnone Hpass Hns. unfold execute_model.
  rewrite BookkeepingFacts.track_finished_closed_form.
  erewrite traced_bind_ok by reflexivity. cbv zeta.
  cbn [disable_by_batch_size with_bookkeeping].
  rewrite (prompt_only_check_passes _ _ Hpass), Hns.
  erewrite traced_bind_ok by reflexivity.
  erewrite traced_bind_ok by reflexivity.
  unfold _run_speculative_decoding_step.
  cbn [_allow_zero_draft_token_step with_bookkeeping].
  rewrite Hzero, Hnone. cbn [negb andb].
  erewrite traced_bind_ok by apply repeat_n_emit.
  erewrite traced_bind_fail by reflexivity.
  cbn [fst snd app]. rewrite app_nil_r.
  eexists. split; [reflexivity | apply broadcast_dict_no_spec].
Qed.

Lemma zero_draft_step_raises_before_scoring_witness :
  exists d,
    execute_model
      {| disable_by_batch_size := Infinity;
         _num_spec_prefill_steps := 1;
         _allow_zero_draft_token_step := false;
         bookkeeping := Tracker ∅ ∅;
         verifier := Scenarios.idle_verifier;
         assembler := Scenarios.plain_assembler false |}
      {| scorer_execute_model := [];
         get_spec_proposals := Scenarios.no_proposals_reply;
         draft_forward_passes := 2;
         score_proposals := Scenarios.no_scores_reply |}
      (Some Scenarios.mixed_request)
    = ([Broadcast d; ProposerExecute; ProposerExecute], inl RuntimeError)
    /\ d !! "no_spec" = Some (PBool false).
Proof.
  apply (zero_draft_step_raises_before_scoring
           {| disable_by_batch_size := Infinity;
              _num_spec_prefill_steps := 1;
              _allow_zero_draft_token_step := false;
              bookkeeping := Tracker ∅ ∅;
              verifier := Scenarios.idle_verifier;
              assembler := Scenarios.plain_assembler false |}
           {| scorer_execute_model := [];
              get_spec_proposals := Scenarios.no_proposals_reply;
              draft_forward_passes := 2;
              score_proposals := Scenarios.no_scores_reply |}
           Scenarios.mixed_request).
  - reflexivity.
  - reflexivity.
  - left. reflexivity.
  - reflexivity.
Defined.

End DriverFacts.

(** ** Life of the bookkeeping across steps *)

Module TrackingFacts.
Import PySeq Tensor Bookkeeping Reference BookkeepingFacts.

Lemma update_mapping_lookup (new d : gmap string (gset Z)) (r : string) :
  update_mapping new d !! r
  = match new !! r with
    | Some seqs => Some (default ∅ (d !! r) ∪ seqs)
    | None => d !! r
    end.
Proof.
  unfold update_mapping.
  apply (map_fold_weak_ind
           (fun acc (m : gmap string (gset Z)) =>
              acc !! r = match m !! r with
                         | Some seqs => Some (default ∅ (d !! r) ∪ seqs)
                         | None => d !! r
                         end)).
  - rewrite lookup_empty. reflexivity.
  - intros i x m acc Hi IH. unfold defaultdict_getitem.
    destruct (decide (i = r)) as [-> | Hne].
    + rewrite lookup_insert_eq. rewrite Hi in IH.
      destruct (acc !! r) as [s|] eqn:Hacc; rewrite lookup_insert_eq.
      * rewrite <- IH. reflexivity.
      * rewrite <- IH. reflexivity.
    + rewrite (lookup_insert_ne m) by assumption.
      destruct (acc !! i) as [s|] eqn:Hacc;
        rewrite ?lookup_insert_ne by assumption; exact IH.
Qed.

Lemma track_sequences_mapping_lookup
    (seq_ids : list Z) (request_ids_seq_ids_mapping : gmap string (gset Z))
    (accepted_token_ids_by_step : list (list Z)) (t t' : tracker) :
  _track_sequences_with_bonus_tokens seq_ids request_ids_seq_ids_mapping
    accepted_token_ids_by_step t = inr t' ->
  forall r,
    _request_id_seq_id_mapping t' !! r
    = match request_ids_seq_ids_mapping !! r with
      | Some seqs =>
          Some (default ∅ (_request_id_seq_id_mapping t !! r) ∪ seqs)
      | None => _request_id_seq_id_mapping t !! r
      end.
Proof.
  unfold _track_sequences_with_bonus_tokens. intros H r.
  destruct (track_bonus_loop _ _ _ _) as [e|bonus]; [discriminate |].
  injection H as <-. cbn. apply update_mapping_lookup.
Qed.

(** X11: [_track_sequences_with_bonus_tokens] only adds to the request map:
    a request of the batch ends with the union of the sequence ids it had
    and those of the batch, every other request keeps its entry. *)
Theorem track_sequences_mapping_accumulates
    (seq_ids : list Z) (request_ids_seq_ids_mapping : gmap string (gset Z))
    (accepted_token_ids_by_step : list (list Z)) (t t' : tracker) :
  _track_sequences_with_bonus_tokens seq_ids request_ids_seq_ids_mapping
    accepted_token_ids_by_step t = inr t' ->
  forall r,
    _request_id_seq_id_mapping t' !! r
    = match request_ids_seq_ids_mapping !! r with
      | Some seqs =>
          Some (default ∅ (_request_id_seq_id_mapping t !! r) ∪ seqs)
      | None => _request_id_seq_id_mapping t !! r
      end.
Proof. apply track_sequences_mapping_lookup. Qed.

Lemma track_sequences_mapping_accumulates_witness :
  exists t',
    _track_sequences_with_bonus_tokens [7] {["req-a" := {[7]}]} [[5]; [6]]
      (Tracker ∅ (<["req-a" := {[1]}]> {["req-b" := {[2]}]})) = inr t'
    /\ _request_id_seq_id_mapping t' !! "req-a" = Some ({[1]} ∪ {[7]})
    /\ _request_id_seq_id_mapping t' !! "req-b" = Some {[2]}.
Proof.
  eexists. split; [reflexivity |].
  split.
  - rewrite (track_sequences_mapping_accumulates [7] {["req-a" := {[7]}]}
               [[5]; [6]]
               (Tracker ∅ (<["req-a" := {[1]}]> {["req-b" := {[2]}]}))
               _ eq_refl "req-a").
    reflexivity.
  - rewrite (track_sequences_mapping_accumulates [7] {["req-a" := {[7]}]}
               [[5]; [6]]
               (Tracker ∅ (<["req-a" := {[1]}]> {["req-b" := {[2]}]}))
               _ eq_refl "req-b").
    reflexivity.
Defined.

Lemma track_bonus_loop_returns_iff (by_step : list (list Z)) :
  forall (seq_ids : list Z) (i0 : nat) (bonus : gset Z),
    (exists bonus', track_bonus_loop by_step i0 seq_ids bonus = inr bonus')
    <-> seq_ids = []
        \/ exists row, last by_step = Some row
                       /\ (i0 + length seq_ids <= length row)%nat.
Proof.
  induction seq_ids as [|s rest IH]; intros i0 bonus.
  - split; [left; reflexivity | intros _; eexists; reflexivity].
  - cbn [track_bonus_loop]. unfold py_last, py_getitem.
    destruct (last by_step) as [row|] eqn:Hlast; cbn.
    + destruct (row !! i0) as [tok|] eqn:Htok; cbn.
      * rewrite IH. apply lookup_lt_Some in Htok. cbn [length]. split.
        -- intros [-> | (row' & Hrow' & Hlen)]; right;
             exists row; (split; [reflexivity |]).
           ++ cbn. lia.
           ++ injection Hrow' as <-. lia.
        -- intros [Habs | (row' & Hrow' & Hlen)]; [discriminate |].
           injection Hrow' as <-.
           destruct rest; [left; reflexivity |].
           right. exists row. split; [reflexivity | cbn in *; lia].
      * apply lookup_ge_None in Htok. split.
        -- intros [b Hb]. discriminate.
        -- intros [Habs | (row' & Hrow' & Hlen)]; [discriminate |].
           injection Hrow' as <-. cbn in Hlen. lia.
    + split.
      * intros [b Hb]. discriminate.
      * intros [Habs | (row' & Hrow' & _)]; discriminate.
Qed.

Lemma track_sequences_raises
    (seq_ids : list Z) (request_ids_seq_ids_mapping : gmap string (gset Z))
    (accepted_token_ids_by_step : list (list Z)) (t : tracker)
    (e : exception) :
  _track_sequences_with_bonus_tokens seq_ids request_ids_seq_ids_mapping
    accepted_token_ids_by_step t = inl e ->
  e = IndexError.
Proof.
  unfold _track_sequences_with_bonus_tokens.
  generalize (_seq_with_bonus_token_in_last_step t) as bonus.
  generalize 0%nat as i0.
  induction seq_ids as [|s rest IH]; intros i0 bonus H; [discriminate |].
  cbn [track_bonus_loop] in H. unfold py_last, py_getitem in H.
  destruct (last accepted_token_ids_by_step) as [row|]; cbn in H;
    [| injection H as <-; reflexivity].
  destruct (row !! i0) as [tok|]; cbn in H;
    [| injection H as <-; reflexivity].
  eapply IH. exact H.
Qed.

(** X12: [_track_sequences_with_bonus_tokens] returns exactly when the
    batch has no sequence, or the last step of the accepted tokens exists
    and holds an entry for every sequence; otherwise
    [accepted_token_ids_by_step[-1][seq_index]] raises [IndexError]. *)
Theorem track_sequences_returns_iff
    (seq_ids : list Z) (request_ids_seq_ids_mapping : gmap string (gset Z))
    (accepted_token_ids_by_step : list (list Z)) (t : tracker) :
  ((exists t',
      _track_sequences_with_bonus_tokens seq_ids request_ids_seq_ids_mapping
        accepted_token_ids_by_step t = inr t')
   <-> seq_ids = []
       \/ exists row, last accepted_token_ids_by_step = Some row
                      /\ (length seq_ids <= length row)%nat)
  /\ (forall e,
        _track_sequences_with_bonus_tokens seq_ids
          request_ids_seq_ids_mapping accepted_token_ids_by_step t = inl e ->
        e = IndexError).
Proof.
  split.
  - rewrite <- (track_bonus_loop_returns_iff accepted_token_ids_by_step
                  seq_ids 0 (_seq_with_bonus_token_in_last_step t)).
    unfold _track_sequences_with_bonus_tokens.
    destruct (track_bonus_loop _ _ _ _) as [e|bonus]; cbn; split.
    + intros [t' H]. discriminate.
    + intros [b H]. discriminate.
    + intros _. eexists. reflexivity.
    + intros _. eexists. reflexivity.
  - intros e. apply track_sequences_raises.
Qed.

(** X13: nothing of a finished batch stays behind.  After a batch was
    tracked, whose sequence ids all belong to requests of the batch, and
    its requests were then reported finished, no sequence id of the batch
    is in the bonus set and no finished request has an entry in the
    request map. *)
Theorem finished_batch_leaves_nothing
    (seq_ids : list Z) (request_ids_seq_ids_mapping : gmap string (gset Z))
    (accepted_token_ids_by_step : list (list Z))
    (finished_requests_ids : list string) (t t1 t2 : tracker) :
  (forall s, s ∈ seq_ids ->
     exists r seqs, request_ids_seq_ids_mapping !! r = Some seqs
                    /\ s ∈ seqs /\ r ∈ finished_requests_ids) ->
  _track_sequences_with_bonus_tokens seq_ids request_ids_seq_ids_mapping
    accepted_token_ids_by_step t = inr t1 ->
  _track_finished_requests finished_requests_ids t1 = inr t2 ->
  (forall s, s ∈ seq_ids -> s ∉ _seq_with_bonus_token_in_last_step t2)
  /\ (forall r, r ∈ finished_requests_ids ->
        _request_id_seq_id_mapping t2 !! r = None).
Proof.
  intros Hown Htrack Hfin.
  rewrite track_finished_closed_form in Hfin. injection Hfin as <-.
  split.
  - intros s Hs. destruct (Hown s Hs) as (r & seqs & Hr & Hin & Hfinished).
    eapply (foldl_finish_request_drops finished_requests_ids t1 r);
      [exact Hfinished | | ].
    + rewrite (track_sequences_mapping_lookup _ _ _ _ _ Htrack).
      rewrite Hr. reflexivity.
    + set_solver.
  - intros r Hr. rewrite foldl_finish_request_mapping.
    rewrite bool_decide_eq_true_2 by assumption. reflexivity.
Qed.

Lemma finished_batch_leaves_nothing_witness :
  exists t1 t2,
    _track_sequences_with_bonus_tokens [7] {["req-a" := {[7]}]} [[5]; [6]]
      (Tracker ∅ ∅) = inr t1
    /\ 7 ∈ _seq_with_bonus_token_in_last_step t1
    /\ _track_finished_requests ["req-a"] t1 = inr t2
    /\ (forall s, s ∈ [7] -> s ∉ _seq_with_bonus_token_in_last_step t2)
    /\ (forall r, r ∈ ["req-a"] -> _request_id_seq_id_mapping t2 !! r = None).
Proof.
  eexists _, _. split; [reflexivity |].
  split; [vm_compute; set_solver |].
  split; [apply track_finished_closed_form |].
  eapply (finished_batch_leaves_nothing [7] {["req-a" := {[7]}]} [[5]; [6]]
            ["req-a"] (Tracker ∅ ∅)).
  - intros s Hs. exists "req-a", {[7]}.
    split; [reflexivity |]. split; set_solver.
  - reflexivity.
  - apply track_finished_closed_form.
Defined.

End TrackingFacts.

(** ** Outputs of a step without speculation *)

Module SerializerFacts.
Import PySeq DataModel Outputs Tensor Assembler AssemblerFacts.

Lemma py_getitem_inr {A} (l : list A) (i : nat) (x : A) :
  py_getitem l i = inr x -> l !! i = Some x.
Proof.
  unfold py_getitem. destruct (l !! i); [| discriminate].
  intros H. injection H as ->. reflexivity.
Qed.

Lemma at2_inr {A} (xs : list (list A)) (i j : nat) (x : A) :
  at2 xs i j = inr x <-> exists row, xs !! i = Some row /\ row !! j = Some x.
Proof.
  unfold at2, py_getitem. split.
  - destruct (xs !! i) as [row|]; cbn; [| discriminate].
    destruct (row !! j) as [y|] eqn:Hy; cbn; [| discriminate].
    intros H. injection H as ->. exists row. split; [reflexivity | exact Hy].
  - intros (row & -> & Hx). cbn. rewrite Hx. reflexivity.
Qed.

Lemma serialize_loop_spec (sampled : list (list Z))
    (entries : list (Z * SequenceData)) (sgs : list SequenceGroupMetadata) :
  forall (idx oi : nat) (outs : list CompletionSequenceGroupOutput),
    serialize_loop sampled entries idx oi sgs = inr outs ->
    length outs = length sgs
    /\ forall i sg,
         sgs !! i = Some sg ->
         exists e sid sd,
           outs !! i = Some e
           /\ entries !! (idx + i)%nat = Some (sid, sd)
           /\ if do_sample sg
              then exists a row,
                     e = Created a
                     /\ sampled !! (oi + length
                                          (filter (fun s => do_sample s = true)
                                                  (take i sgs)))%nat
                        = Some row
                     /\ row !! 0%nat = Some (sgo_token_id a)
                     /\ sgo_seq_id a = sid
                     /\ sgo_token_id_logprob_rank a = -1
                     /\ sgo_token_id_logprob a = float_zero
                     /\ sgo_topk_token_ids a = []
                     /\ sgo_topk_logprobs a = []
              else exists plogs, e = NoSamples plogs.
Proof.
  induction sgs as [|sg rest IH]; intros idx oi outs H.
  - injection H as <-. split; [reflexivity |].
    intros i sg Hi. rewrite lookup_nil in Hi. discriminate.
  - cbn [serialize_loop] in H.
    apply bind_inr in H as ([sid sd] & Hentry & H).
    apply py_getitem_inr in Hentry.
    destruct (do_sample sg) eqn:Hds; cbn [negb] in H.
    + apply bind_inr in H as (tok & Htok & H).
      apply bind_inr in H as (tl' & Hrest & H). injection H as <-.
      destruct (IH _ _ _ Hrest) as [Hlen Hspec].
      apply at2_inr in Htok as (row & Hrow & Htok).
      split; [cbn; lia |].
      intros [|i] sg' Hi; cbn in Hi.
      * injection Hi as <-. rewrite Hds.
        eexists _, sid, sd. split; [reflexivity |].
        split; [rewrite Nat.add_0_r; exact Hentry |].
        eexists _, row. split; [reflexivity |].
        cbn. rewrite Nat.add_0_r. repeat split; assumption.
      * destruct (Hspec i sg' Hi) as (e & sid' & sd' & He & Hen' & Hcase).
        exists e, sid', sd'. split; [exact He |].
        split; [replace (idx + S i)%nat with (S idx + i)%nat by lia;
                exact Hen' |].
        cbn [take]. rewrite filter_cons_True by exact Hds. cbn [length].
        replace (oi + S (length (filter (fun s => do_sample s = true)
                                        (take i rest))))%nat
          with (S oi + length (filter (fun s => do_sample s = true)
                                      (take i rest)))%nat by lia.
        exact Hcase.
    + apply bind_inr in H as (tl' & Hrest & H). injection H as <-.
      destruct (IH _ _ _ Hrest) as [Hlen Hspec].
      split; [cbn; lia |].
      intros [|i] sg' Hi; cbn in Hi.
      * injection Hi as <-. rewrite Hds.
        eexists _, sid, sd. split; [reflexivity |].
        split; [rewrite Nat.add_0_r; exact Hentry |].
        eexists. reflexivity.
      * destruct (Hspec i sg' Hi) as (e & sid' & sd' & He & Hen' & Hcase).
        exists e, sid', sd'. split; [exact He |].
        split; [replace (idx + S i)%nat with (S idx + i)%nat by lia;
                exact Hen' |].
        cbn [take].
        rewrite filter_cons_False by (rewrite Hds; discriminate).
        exact Hcase.
Qed.

(** X14: what [_serialize_sampler_output_no_logprobs] returns: one
    [SamplerOutput] without metrics, with one entry per record of the
    batch, in batch order.  A record that does not sample gets an entry
    without samples.  The j-th record that samples gets the first token of
    row j of the sampled ids (of the rows kept, when prompt logprobs are
    asked for), with rank -1, logprob 0.0, empty top-k lists, and the
    sequence id found at the record's position in the flattened
    [seq_data]. *)
Theorem serialize_sampler_output_aligned (invalid : Z)
    (sgs : list SequenceGroupMetadata) (sampled_token_ids : tensor2)
    (outs : list SamplerOutput) :
  _serialize_sampler_output_no_logprobs invalid sgs sampled_token_ids
  = inr outs ->
  exists entries,
    outs = [{| outputs := entries; spec_decode_worker_metrics := None |}]
    /\ length entries = length sgs
    /\ forall i sg,
         sgs !! i = Some sg ->
         exists e sid sd,
           entries !! i = Some e
           /\ (sg' ← sgs; seq_data sg') !! i = Some (sid, sd)
           /\ if do_sample sg
              then exists a row,
                     e = Created a
                     /\ (if existsb id
                              ((fun sg' => is_prompt sg'
                                           && wants_prompt_logprobs sg')
                                 <$> sgs)
                         then drop_invalid_rows invalid sampled_token_ids
                         else rows sampled_token_ids)
                        !! length (filter (fun s => do_sample s = true)
                                          (take i sgs))
                        = Some row
                     /\ row !! 0%nat = Some (sgo_token_id a)
                     /\ sgo_seq_id a = sid
                     /\ sgo_token_id_logprob_rank a = -1
                     /\ sgo_token_id_logprob a = float_zero
                     /\ sgo_topk_token_ids a = []
                     /\ sgo_topk_logprobs a = []
              else exists plogs, e = NoSamples plogs.
Proof.
  unfold _serialize_sampler_output_no_logprobs. intros H.
  apply bind_inr in H as (entries & Hloop & H). injection H as <-.
  exists entries. split; [reflexivity |].
  apply serialize_loop_spec in Hloop as [Hlen Hspec].
  split; [exact Hlen |]. exact Hspec.
Qed.

Lemma serialize_sampler_output_aligned_witness :
  exists entries,
    [{| outputs :=
          [Created {| sgo_token_id := 7;
                      sgo_token_id_logprob_rank := -1;
                      sgo_token_id_logprob := float_zero;
                      sgo_seq_id := 0;
                      sgo_topk_token_ids := [];
                      sgo_topk_logprobs := [];
                      sgo_prompt_logprobs := None;
                      sgo_step_index := 0 |}];
        spec_decode_worker_metrics := None |}]
    = [{| outputs := entries; spec_decode_worker_metrics := None |}]
    /\ length entries = length [Scenarios.prompt_record "req-0" 0].
Proof.
  destruct (serialize_sampler_output_aligned (-1)
              [Scenarios.prompt_record "req-0" 0] (Tensor2 1 [[7]]) _ eq_refl)
    as (entries & Houts & Hlen & _).
  exists entries. split; [exact Houts | exact Hlen].
Defined.

Lemma serialize_loop_returns_iff (sampled : list (list Z))
    (entries : list (Z * SequenceData)) (sgs : list SequenceGroupMetadata) :
  forall (idx oi : nat),
    (exists outs, serialize_loop sampled entries idx oi sgs = inr outs)
    <-> (forall i, (i < length sgs)%nat -> (idx + i < length entries)%nat)
        /\ (forall j,
              (j < length (filter (fun s => do_sample s = true) sgs))%nat ->
              exists row tok, sampled !! (oi + j)%nat = Some row
                              /\ row !! 0%nat = Some tok).
Proof.
  induction sgs as [|sg rest IH]; intros idx oi.
  - split; [| intros _; eexists; reflexivity].
    intros _. split; intros i Hi; cbn in Hi; lia.
  - cbn [serialize_loop]. unfold py_getitem at 1.
    destruct (entries !! idx) as [[sid sd]|] eqn:Hentry; cbn [mbind result_bind ok raise].
    + destruct (do_sample sg) eqn:Hds; cbn [negb].
      * rewrite filter_cons_True by exact Hds.
        destruct (at2 sampled oi 0) as [e|tok] eqn:Htok; cbn [mbind result_bind ok raise].
        -- split; [intros [outs H]; discriminate |].
           intros [_ Hrows].
           destruct (Hrows 0%nat ltac:(cbn; lia)) as (row & tok & Hrow & Ht).
           rewrite Nat.add_0_r in Hrow.
           assert (at2 sampled oi 0 = inr tok) as Habs
               by (apply at2_inr; eauto).
           rewrite Habs in Htok. discriminate.
        -- apply at2_inr in Htok as (row & Hrow & Ht).
           specialize (IH (S idx) (S oi)).
           destruct (serialize_loop sampled entries (S idx) (S oi) rest)
             as [e|tl'] eqn:Hrest; cbn [mbind result_bind ok raise].
           ++ split; [intros [outs H]; discriminate |].
              intros [Hent Hrows].
              destruct (proj2 IH) as [outs Houts]; [| discriminate].
              split.
              ** intros i Hi. specialize (Hent (S i) ltac:(cbn; lia)). lia.
              ** intros j Hj.
                 destruct (Hrows (S j) ltac:(cbn; lia))
                   as (row' & tok' & Hrow' & Ht').
                 exists row', tok'.
                 replace (S oi + j)%nat with (oi + S j)%nat by lia. eauto.
           ++ split; [| intros _; eexists; reflexivity].
              intros _. destruct (proj1 IH ltac:(eauto)) as [Hent Hrows].
              split.
              ** intros [|i] Hi; cbn in Hi.
                 --- apply lookup_lt_Some in Hentry. lia.
                 --- specialize (Hent i ltac:(lia)). lia.
              ** intros [|j] Hj; cbn in Hj.
                 --- exists row, tok. rewrite Nat.add_0_r. eauto.
                 --- destruct (Hrows j ltac:(lia))
                       as (row' & tok' & Hrow' & Ht').
                     exists row', tok'.
                     replace (oi + S j)%nat with (S oi + j)%nat by lia. eauto.
      * rewrite filter_cons_False by (rewrite Hds; discriminate).
        specialize (IH (S idx) oi).
        destruct (serialize_loop sampled entries (S idx) oi rest)
          as [e|tl'] eqn:Hrest; cbn [mbind result_bind ok raise].
        -- split; [intros [outs H]; discriminate |].
           intros [Hent Hrows].
           destruct (proj2 IH) as [outs Houts]; [| discriminate].
           split; [| exact Hrows].
           intros i Hi. specialize (Hent (S i) ltac:(cbn; lia)). lia.
        -- split; [| intros _; eexists; reflexivity].
           intros _. destruct (proj1 IH ltac:(eauto)) as [Hent Hrows].
           split; [| exact Hrows].
           intros [|i] Hi; cbn in Hi.
           ++ apply lookup_lt_Some in Hentry. lia.
           ++ specialize (Hent i ltac:(lia)). lia.
    + apply lookup_ge_None in Hentry. split.
      * intros [outs H]. discriminate.
      * intros [Hent _]. specialize (Hent 0%nat ltac:(cbn; lia)). lia.
Qed.

Lemma serialize_loop_raises (sampled : list (list Z))
    (entries : list (Z * SequenceData)) (sgs : list SequenceGroupMetadata) :
  forall (idx oi : nat) (e : exception),
    serialize_loop sampled entries idx oi sgs = inl e -> e = IndexError.
Proof.
  induction sgs as [|sg rest IH]; intros idx oi e H; [discriminate |].
  cbn [serialize_loop] in H. unfold py_getitem at 1 in H.
  destruct (entries !! idx) as [[sid sd]|]; cbn in H;
    [| injection H as <-; reflexivity].
  destruct (do_sample sg); cbn [negb] in H.
  - unfold at2, py_getitem in H.
    destruct (sampled !! oi) as [row|]; cbn in H;
      [| injection H as <-; reflexivity].
    destruct (row !! 0%nat) as [tok|]; cbn in H;
      [| injection H as <-; reflexivity].
    destruct (serialize_loop sampled entries (S idx) (S oi) rest)
      as [e'|tl'] eqn:Hrest; cbn in H; [| discriminate].
    injection H as <-. eapply IH. exact Hrest.
  - destruct (serialize_loop sampled entries (S idx) oi rest)
      as [e'|tl'] eqn:Hrest; cbn in H; [| discriminate].
    injection H as <-. eapply IH. exact Hrest.
Qed.

(** X15: [_serialize_sampler_output_no_logprobs] returns exactly when the
    flattened [seq_data] has an entry at every position of the batch and
    the sampled ids (the rows kept, when prompt logprobs are asked for)
    hold a non-empty row for every record that samples; otherwise it
    raises [IndexError], and nothing else. *)
Theorem serialize_sampler_output_returns_iff (invalid : Z)
    (sgs : list SequenceGroupMetadata) (sampled_token_ids : tensor2) :
  ((exists outs,
      _serialize_sampler_output_no_logprobs invalid sgs sampled_token_ids
      = inr outs)
   <-> (length sgs <= length (sg ← sgs; seq_data sg))%nat
       /\ (forall j,
             (j < length (filter (fun s => do_sample s = true) sgs))%nat ->
             exists row tok,
               (if existsb id
                     ((fun sg => is_prompt sg && wants_prompt_logprobs sg)
                        <$> sgs)
                then drop_invalid_rows invalid sampled_token_ids
                else rows sampled_token_ids) !! j = Some row
               /\ row !! 0%nat = Some tok))
  /\ (forall e,
        _serialize_sampler_output_no_logprobs invalid sgs sampled_token_ids
        = inl e -> e = IndexError).
Proof.
  unfold _serialize_sampler_output_no_logprobs.
  set (L := if existsb id _ then _ else _).
  set (entries := sg ← sgs; seq_data sg).
  pose proof (serialize_loop_returns_iff L entries sgs 0 0) as Hiff.
  split.
  - split.
    + intros [outs H]. apply bind_inr in H as (es & Hes & _).
      destruct (proj1 Hiff ltac:(eauto)) as [Hent Hrows].
      split; [| exact Hrows].
      destruct sgs as [|sg rest]; [cbn; lia |].
      specialize (Hent (length rest) ltac:(cbn; lia)). cbn in *. lia.
    + intros [Hent Hrows].
      destruct (proj2 Hiff) as [es Hes].
      { split; [| exact Hrows]. intros i Hi. lia. }
      rewrite Hes. eexists. reflexivity.
  - intros e H.
    destruct (serialize_loop L entries 0 0 sgs) as [e'|es] eqn:Hes;
      cbn in H; [| discriminate].
    injection H as <-. eapply serialize_loop_raises. exact Hes.
Qed.

End SerializerFacts.

(** ** Shape of the outputs of a speculative step *)

Module ShapeFacts.
Import PySeq DataModel Outputs Tensor Util Bookkeeping Assembler Shapes
       AssemblerFacts SerializerFacts TrackingFacts.

Lemma prefill_outputs_shape (accepted_token_ids : tensor2)
    (lists : logprob_lists) (seq_ids num_logprobs_per_seq : list Z)
    (prompt_logprobs_arg : option (list (list logprobs_output)))
    (sgs : list SequenceGroupMetadata) :
  forall (i : nat) (outs : list SamplerOutput),
    prefill_outputs accepted_token_ids lists seq_ids num_logprobs_per_seq
      prompt_logprobs_arg i sgs = inr outs ->
    length outs = leading_prompts sgs
    /\ Forall (fun o => length (outputs o) = 1%nat) outs.
Proof.
  induction sgs as [|sg rest IH]; intros i outs H.
  - injection H as <-. split; [reflexivity | apply Forall_nil_2].
  - cbn [prefill_outputs leading_prompts] in H |- *.
    destruct (is_prompt sg); cbn [negb] in H.
    + apply bind_inr in H as (n & _ & H).
      apply bind_inr in H as (sid & _ & H).
      apply bind_inr in H as (kw & _ & H).
      apply bind_inr in H as (plogs & _ & H).
      destruct kw as [[[[tok rk] lp] ti] tl].
      apply bind_inr in H as (tl' & Hrest & H). injection H as <-.
      destruct (IH _ _ Hrest) as [Hlen Hall].
      split; [cbn; lia |].
      apply Forall_cons. split; [reflexivity | exact Hall].
    + injection H as <-. split; [reflexivity | apply Forall_nil_2].
Qed.

Lemma decode_step_shape (sgs : list SequenceGroupMetadata)
    (by_step : list (list Z)) (lists : logprob_lists)
    (seq_ids num_logprobs_per_seq : list Z) (step_index : nat) :
  forall (n a : nat) (es : list CompletionSequenceGroupOutput),
    decode_step sgs by_step lists seq_ids num_logprobs_per_seq step_index
      (seq a n) = inr es ->
    length es
    = length (filter (fun sg => is_prompt sg = false) (take n (drop a sgs))).
Proof.
  induction n as [|n IH]; intros a es H.
  - injection H as <-. reflexivity.
  - cbn [seq decode_step] in H.
    apply bind_inr in H as (seq_meta & Hmeta & H).
    apply py_getitem_inr in Hmeta.
    rewrite (drop_S _ _ _ Hmeta). cbn [take].
    destruct (is_prompt seq_meta) eqn:Hp.
    + rewrite filter_cons_False by (rewrite Hp; discriminate).
      apply IH. exact H.
    + rewrite filter_cons_True by exact Hp.
      apply bind_inr in H as (nl & _ & H).
      apply bind_inr in H as (tok & _ & H).
      apply bind_inr in H as (rk & _ & H).
      apply bind_inr in H as (lp & _ & H).
      apply bind_inr in H as (sid & _ & H).
      apply bind_inr in H as (ti & _ & H).
      apply bind_inr in H as (tl & _ & H).
      apply bind_inr in H as (tl' & Hrest & H). injection H as <-.
      cbn. f_equal. apply IH. exact Hrest.
Qed.

Lemma decode_outputs_shape (sgs : list SequenceGroupMetadata)
    (by_step : list (list Z)) (lists : logprob_lists)
    (seq_ids num_logprobs_per_seq : list Z) (batch_size : nat) :
  forall (n a : nat) (outs : list SamplerOutput),
    decode_outputs sgs by_step lists seq_ids num_logprobs_per_seq
      batch_size (seq a n) = inr outs ->
    length outs = live_steps sgs (take n (drop a by_step))
    /\ Forall (fun o =>
                 length (outputs o)
                 = length (filter (fun sg => is_prompt sg = false)
                                  (take batch_size sgs))) outs.
Proof.
  induction n as [|n IH]; intros a outs H.
  - injection H as <-. split; [reflexivity | apply Forall_nil_2].
  - cbn [seq decode_outputs] in H.
    apply bind_inr in H as (step_row & Hrow & H).
    apply py_getitem_inr in Hrow.
    rewrite (drop_S _ _ _ Hrow). cbn [take live_steps].
    destruct (all_decodes_padded sgs step_row).
    + injection H as <-. split; [reflexivity | apply Forall_nil_2].
    + apply bind_inr in H as (es & Hes & H).
      apply bind_inr in H as (tl' & Hrest & H). injection H as <-.
      destruct (IH _ _ Hrest) as [Hlen Hall].
      split; [cbn; lia |].
      apply Forall_cons. split; [| exact Hall].
      cbn. rewrite (decode_step_shape _ _ _ _ _ _ _ _ _ Hes).
      rewrite drop_0. reflexivity.
Qed.

Lemma attach_metrics_shape (metrics : option Z) (l l' : list SamplerOutput) :
  attach_metrics metrics l = inr l' -> outputs <$> l' = outputs <$> l.
Proof.
  unfold attach_metrics. destruct metrics as [m|].
  - destruct l as [|o rest]; [discriminate |].
    intros H. injection H as <-. reflexivity.
  - intros H. injection H as <-. reflexivity.
Qed.

Lemma live_steps_le (sgs : list SequenceGroupMetadata)
    (by_step : list (list Z)) :
  (live_steps sgs by_step <= length by_step)%nat.
Proof.
  induction by_step as [|row rest IH]; cbn; [lia |].
  destruct (all_decodes_padded sgs row); lia.
Qed.

(** X16: the shape of what [_create_output_sampler_list] returns.  There
    is one output with one entry for each prompt at the head of the batch,
    then one output for each step before the first step at which every
    decode holds -1, at most as many as the accepted tokens have columns,
    each with one entry per decode of the batch.  A prompt that comes
    after a decode gets no entry. *)
Theorem create_output_sampler_list_shape (env : assembler_env)
    (t t' : tracker) (sgs : list SequenceGroupMetadata)
    (accepted_token_ids : tensor2) (target_logprobs : list prob_row)
    (prompt_logprobs_arg : option (list (list logprobs_output))) (k : Z)
    (outs : list SamplerOutput) :
  _create_output_sampler_list env t sgs accepted_token_ids target_logprobs
    prompt_logprobs_arg k = inr (outs, t') ->
  length outs
  = (leading_prompts sgs + live_steps sgs (transpose accepted_token_ids))%nat
  /\ (length outs <= leading_prompts sgs + ncols accepted_token_ids)%nat
  /\ Forall (fun o => length (outputs o) = 1%nat)
            (take (leading_prompts sgs) outs)
  /\ Forall (fun o =>
               length (outputs o)
               = length (filter (fun sg => is_prompt sg = false)
                                (take (length (rows accepted_token_ids))
                                      sgs)))
            (drop (leading_prompts sgs) outs).
Proof.
  unfold _create_output_sampler_list.
  destruct (get_all_seq_ids_and_request_ids sgs) as [seq_ids mapping].
  intros H.
  apply bind_inr in H as (prefills & Hpre & H).
  apply bind_inr in H as (decodes & Hdec & H).
  apply bind_inr in H as (t1 & _ & H).
  apply bind_inr in H as (l & Hl & H).
  injection H as <- <-.
  apply prefill_outputs_shape in Hpre as [Hplen Hpall].
  apply decode_outputs_shape in Hdec as [Hdlen Hdall].
  rewrite drop_0 in Hdlen.
  assert (Hby : length (transpose accepted_token_ids)
                = ncols accepted_token_ids).
  { unfold transpose. rewrite length_fmap, length_seq. reflexivity. }
  rewrite <- Hby, firstn_all in Hdlen.
  apply attach_metrics_shape in Hl.
  assert (Hlen : length l = length (prefills ++ decodes)).
  { rewrite <- (length_fmap outputs l), Hl, length_fmap. reflexivity. }
  rewrite length_app in Hlen.
  pose proof (live_steps_le sgs (transpose accepted_token_ids)) as Hle.
  split; [lia |]. split; [lia |].
  assert (Hshape : forall (P : nat -> Prop) (xs : list SamplerOutput),
             Forall (fun o => P (length (outputs o))) xs
             <-> Forall P (length <$> (outputs <$> xs))).
  { intros P xs. rewrite !Forall_fmap. reflexivity. }
  split.
  - apply (Hshape (fun n => n = 1%nat)).
    rewrite fmap_take, Hl, <- fmap_take, <- Hplen, take_app_length.
    apply Hshape. exact Hpall.
  - apply (Hshape (fun n => n = _)).
    rewrite fmap_drop, Hl, <- fmap_drop, <- Hplen, drop_app_length.
    apply Hshape. exact Hdall.
Qed.

Lemma create_output_sampler_list_shape_witness :
  exists outs t',
    _create_output_sampler_list (Scenarios.plain_assembler true)
      (Tracker ∅ ∅) Scenarios.mixed_batch
      (Tensor2 3 [[50; -1; -1]; [61; 62; -1]]) [] None 2 = inr (outs, t')
    /\ length outs = 3%nat
    /\ length outs
       = Nat.add (leading_prompts Scenarios.mixed_batch)
                 (live_steps Scenarios.mixed_batch
                    (transpose (Tensor2 3 [[50; -1; -1]; [61; 62; -1]]))).
Proof.
  eexists _, _. split; [vm_compute; reflexivity |].
  split; [reflexivity |].
  eapply (create_output_sampler_list_shape (Scenarios.plain_assembler true)
            (Tracker ∅ ∅) _ Scenarios.mixed_batch
            (Tensor2 3 [[50; -1; -1]; [61; 62; -1]]) [] None 2).
  vm_compute. reflexivity.
Defined.

Lemma py_slice_to_length {A} (l : list A) (n : Z) :
  0 <= n -> (length (py_slice_to l n) <= Z.to_nat n)%nat.
Proof.
  intros Hn. unfold py_slice_to, slice_bound. rewrite length_take.
  rewrite (proj2 (Z.ltb_ge n 0)) by lia. lia.
Qed.

Lemma decode_step_entries (sgs : list SequenceGroupMetadata)
    (by_step : list (list Z)) (lists : logprob_lists)
    (seq_ids num_logprobs_per_seq : list Z) (step_index : nat) :
  forall (indices : list nat) (es : list CompletionSequenceGroupOutput),
    decode_step sgs by_step lists seq_ids num_logprobs_per_seq step_index
      indices = inr es ->
    Forall2
      (fun i e =>
         exists a step_row n,
           e = Created a
           /\ by_step !! step_index = Some step_row
           /\ step_row !! i = Some (sgo_token_id a)
           /\ seq_ids !! i = Some (sgo_seq_id a)
           /\ sgo_step_index a = step_index
           /\ sgo_prompt_logprobs a = None
           /\ num_logprobs_per_seq !! i = Some n
           /\ (0 <= n ->
               (length (sgo_topk_token_ids a) <= Z.to_nat n)%nat
               /\ (length (sgo_topk_logprobs a) <= Z.to_nat n)%nat))
      (filter (fun i => is_prompt <$> sgs !! i = Some false) indices) es.
Proof.
  induction indices as [|i rest IH]; intros es H.
  - injection H as <-. constructor.
  - cbn [decode_step] in H.
    apply bind_inr in H as (seq_meta & Hmeta & H).
    apply py_getitem_inr in Hmeta.
    destruct (is_prompt seq_meta) eqn:Hp.
    + rewrite filter_cons_False by (rewrite Hmeta; cbn; rewrite Hp;
                                    discriminate).
      apply IH. exact H.
    + rewrite filter_cons_True by (rewrite Hmeta; cbn; rewrite Hp;
                                   reflexivity).
      apply bind_inr in H as (nl & Hnl & H).
      apply bind_inr in H as (tok & Htok & H).
      apply bind_inr in H as (rk & _ & H).
      apply bind_inr in H as (lp & _ & H).
      apply bind_inr in H as (sid & Hsid & H).
      apply bind_inr in H as (ti & _ & H).
      apply bind_inr in H as (tl & _ & H).
      apply bind_inr in H as (tl' & Hrest & H). injection H as <-.
      apply py_getitem_inr in Hnl, Hsid.
      apply at2_inr in Htok as (step_row & Hrow & Htok).
      constructor; [| apply IH; exact Hrest].
      eexists _, step_row, nl. cbn.
      repeat split; try assumption; try reflexivity;
        apply py_slice_to_length; assumption.
Qed.

Lemma decode_outputs_steps (sgs : list SequenceGroupMetadata)
    (by_step : list (list Z)) (lists : logprob_lists)
    (seq_ids num_logprobs_per_seq : list Z) (batch_size : nat) :
  forall (n a : nat) (outs : list SamplerOutput),
    decode_outputs sgs by_step lists seq_ids num_logprobs_per_seq
      batch_size (seq a n) = inr outs ->
    forall s o,
      outs !! s = Some o ->
      decode_step sgs by_step lists seq_ids num_logprobs_per_seq (a + s)
        (seq 0 batch_size) = inr (outputs o).
Proof.
  induction n as [|n IH]; intros a outs H s o Hs.
  - injection H as <-. rewrite lookup_nil in Hs. discriminate.
  - cbn [seq decode_outputs] in H.
    apply bind_inr in H as (step_row & _ & H).
    destruct (all_decodes_padded sgs step_row).
    + injection H as <-. rewrite lookup_nil in Hs. discriminate.
    + apply bind_inr in H as (es & Hes & H).
      apply bind_inr in H as (tl' & Hrest & H). injection H as <-.
      destruct s as [|s]; cbn in Hs.
      * injection Hs as <-. rewrite Nat.add_0_r. exact Hes.
      * replace (a + S s)%nat with (S a + s)%nat by lia.
        eapply IH; eassumption.
Qed.

(** X25: the entries of the decode outputs of
    [_create_output_sampler_list].  The output of step [s] holds, for the
    decodes of the batch in batch order, the token accepted for that
    sequence at step [s], the sequence id at its batch position, the step
    index [s], no prompt logprobs, and top-k lists of at most the number of
    logprobs the sequence asked for. *)
Theorem create_output_sampler_list_decode_entries (env : assembler_env)
    (t t' : tracker) (sgs : list SequenceGroupMetadata)
    (accepted_token_ids : tensor2) (target_logprobs : list prob_row)
    (prompt_logprobs_arg : option (list (list logprobs_output))) (k : Z)
    (outs : list SamplerOutput) :
  _create_output_sampler_list env t sgs accepted_token_ids target_logprobs
    prompt_logprobs_arg k = inr (outs, t') ->
  forall s o,
    outs !! (leading_prompts sgs + s)%nat = Some o ->
    Forall2
      (fun i e =>
         exists a step_row n,
           e = Created a
           /\ transpose accepted_token_ids !! s = Some step_row
           /\ step_row !! i = Some (sgo_token_id a)
           /\ (get_all_seq_ids_and_request_ids sgs).1 !! i
              = Some (sgo_seq_id a)
           /\ sgo_step_index a = s
           /\ sgo_prompt_logprobs a = None
           /\ get_all_num_logprobs env sgs !! i = Some n
           /\ (0 <= n ->
               (length (sgo_topk_token_ids a) <= Z.to_nat n)%nat
               /\ (length (sgo_topk_logprobs a) <= Z.to_nat n)%nat))
      (filter (fun i => is_prompt <$> sgs !! i = Some false)
              (seq 0 (length (rows accepted_token_ids))))
      (outputs o).
Proof.
  unfold _create_output_sampler_list.
  destruct (get_all_seq_ids_and_request_ids sgs) as [seq_ids mapping].
  intros H s o Ho.
  apply bind_inr in H as (prefills & Hpre & H).
  apply bind_inr in H as (decodes & Hdec & H).
  apply bind_inr in H as (t1 & _ & H).
  apply bind_inr in H as (l & Hl & H).
  injection H as <- <-.
  apply prefill_outputs_shape in Hpre as [Hplen _].
  apply attach_metrics_shape in Hl.
  assert (Hlook : outputs <$> (prefills ++ decodes)
                    !! (leading_prompts sgs + s)%nat = Some (outputs o)).
  { rewrite <- list_lookup_fmap, <- Hl, list_lookup_fmap, Ho. reflexivity. }
  rewrite <- Hplen, lookup_app_r in Hlook by lia.
  replace (length prefills + s - length prefills)%nat with s in Hlook by lia.
  destruct (decodes !! s) as [o'|] eqn:Ho'; [| discriminate].
  cbn in Hlook. injection Hlook as Hsame.
  pose proof (decode_outputs_steps _ _ _ _ _ _ _ _ _ Hdec s o' Ho') as Hstep.
  rewrite Hsame in Hstep. cbn [Nat.add] in Hstep.
  apply decode_step_entries in Hstep. exact Hstep.
Qed.

Lemma create_output_sampler_list_decode_entries_witness :
  exists outs t' o,
    _create_output_sampler_list (Scenarios.plain_assembler true)
      (Tracker ∅ ∅) Scenarios.mixed_batch
      (Tensor2 3 [[50; -1; -1]; [61; 62; -1]]) [] None 2 = inr (outs, t')
    /\ outs !! (leading_prompts Scenarios.mixed_batch + 1)%nat = Some o
    /\ sgo_token_id <$> (outputs o ≫= fun e =>
                           match e with Created a => [a] | _ => [] end)
       = [62]
    /\ length (outputs o) = 1%nat.
Proof.
  pose proof (create_output_sampler_list_decode_entries
                (Scenarios.plain_assembler true) (Tracker ∅ ∅) _
                Scenarios.mixed_batch
                (Tensor2 3 [[50; -1; -1]; [61; 62; -1]]) [] None 2 _
                eq_refl 1%nat _ eq_refl) as H.
  eexists _, _, _. split; [reflexivity |].
  split; [reflexivity |]. split; [reflexivity |].
  apply Forall2_length in H. rewrite <- H. reflexivity.
Defined.

Lemma prefill_outputs_entries (accepted_token_ids : tensor2)
    (lists : logprob_lists) (seq_ids num_logprobs_per_seq : list Z)
    (prompt_logprobs_arg : option (list (list logprobs_output)))
    (sgs : list SequenceGroupMetadata) :
  forall (i : nat) (outs : list SamplerOutput),
    prefill_outputs accepted_token_ids lists seq_ids num_logprobs_per_seq
      prompt_logprobs_arg i sgs = inr outs ->
    forall j o,
      outs !! j = Some o ->
      exists a sg n,
        outputs o = [Created a]
        /\ sgs !! j = Some sg
        /\ is_prompt sg = true
        /\ seq_ids !! (i + j)%nat = Some (sgo_seq_id a)
        /\ sgo_step_index a = 0%nat
        /\ num_logprobs_per_seq !! (i + j)%nat = Some n
        /\ (if do_sample sg
            then exists row,
                   rows accepted_token_ids !! (i + j)%nat = Some row
                   /\ row !! 0%nat = Some (sgo_token_id a)
            else sgo_token_id a = -1
                 /\ sgo_token_id_logprob_rank a = 0
                 /\ sgo_token_id_logprob a = FNegInf
                 /\ sgo_topk_token_ids a = py_repeat (Some (-1)) n
                 /\ sgo_topk_logprobs a = py_repeat (Some FNegInf) n)
        /\ (forall p, prompt_logprobs_arg = Some p ->
                      exists x, p !! (i + j)%nat = Some x
                                /\ sgo_prompt_logprobs a = Some x).
Proof.
  induction sgs as [|sg rest IH]; intros i outs H j o Hj.
  - injection H as <-. rewrite lookup_nil in Hj. discriminate.
  - cbn [prefill_outputs] in H.
    destruct (is_prompt sg) eqn:Hp; cbn [negb] in H.
    2:{ injection H as <-. rewrite lookup_nil in Hj. discriminate. }
    apply bind_inr in H as (n & Hn & H).
    apply bind_inr in H as (sid & Hsid & H).
    apply bind_inr in H as (kw & Hkw & H).
    apply bind_inr in H as (plogs & Hplogs & H).
    destruct kw as [[[[tok rk] lp] ti] tl].
    apply bind_inr in H as (tl' & Hrest & H). injection H as <-.
    apply py_getitem_inr in Hn, Hsid.
    destruct j as [|j]; cbn in Hj.
    + injection Hj as <-. rewrite Nat.add_0_r.
      eexists _, sg, n. cbn.
      split; [reflexivity |]. split; [reflexivity |].
      split; [exact Hp |]. split; [exact Hsid |].
      split; [reflexivity |]. split; [exact Hn |].
      split.
      * destruct (do_sample sg).
        -- apply bind_inr in Hkw as (tok0 & Htok0 & Hkw).
           apply bind_inr in Hkw as (rk0 & _ & Hkw).
           apply bind_inr in Hkw as (lp0 & _ & Hkw).
           apply bind_inr in Hkw as (ti0 & _ & Hkw).
           apply bind_inr in Hkw as (tl0 & _ & Hkw).
           injection Hkw as <- <- <- <- <-.
           apply at2_inr in Htok0. exact Htok0.
        -- injection Hkw as <- <- <- <- <-. repeat split; reflexivity.
      * intros p ->. cbn in Hplogs.
        apply bind_inr in Hplogs as (x & Hx & Hplogs).
        injection Hplogs as <-. apply py_getitem_inr in Hx.
        exists x. split; [exact Hx | reflexivity].
    + replace (i + S j)%nat with (S i + j)%nat by lia.
      eapply IH; eassumption.
Qed.

(** X26: the entries of the prefill outputs of
    [_create_output_sampler_list].  The output at the position of a prompt
    at the head of the batch holds one entry, with the sequence id at that
    batch position and step index 0.  If the prompt samples (terminal
    chunk) its token is the first accepted token of its row; otherwise the
    token is -1 with rank 0, logprob -inf and as many top-k entries -1 and
    -inf as the sequence asked for.  When the scorer's prompt logprobs are
    passed, the entry carries those of its batch position. *)
Theorem create_output_sampler_list_prefill_entries (env : assembler_env)
    (t t' : tracker) (sgs : list SequenceGroupMetadata)
    (accepted_token_ids : tensor2) (target_logprobs : list prob_row)
    (prompt_logprobs_arg : option (list (list logprobs_output))) (k : Z)
    (outs : list SamplerOutput) :
  _create_output_sampler_list env t sgs accepted_token_ids target_logprobs
    prompt_logprobs_arg k = inr (outs, t') ->
  forall j o,
    (j < leading_prompts sgs)%nat ->
    outs !! j = Some o ->
    exists a sg n,
      outputs o = [Created a]
      /\ sgs !! j = Some sg
      /\ is_prompt sg = true
      /\ (get_all_seq_ids_and_request_ids sgs).1 !! j = Some (sgo_seq_id a)
      /\ sgo_step_index a = 0%nat
      /\ get_all_num_logprobs env sgs !! j = Some n
      /\ (if do_sample sg
          then exists row,
                 rows accepted_token_ids !! j = Some row
                 /\ row !! 0%nat = Some (sgo_token_id a)
          else sgo_token_id a = -1
               /\ sgo_token_id_logprob_rank a = 0
               /\ sgo_token_id_logprob a = FNegInf
               /\ sgo_topk_token_ids a = py_repeat (Some (-1)) n
               /\ sgo_topk_logprobs a = py_repeat (Some FNegInf) n)
      /\ (forall p, prompt_logprobs_arg = Some p ->
                    exists x, p !! j = Some x
                              /\ sgo_prompt_logprobs a = Some x).
Proof.
  unfold _create_output_sampler_list.
  destruct (get_all_seq_ids_and_request_ids sgs) as [seq_ids mapping].
  intros H j o Hj Ho.
  apply bind_inr in H as (prefills & Hpre & H).
  apply bind_inr in H as (decodes & Hdec & H).
  apply bind_inr in H as (t1 & _ & H).
  apply bind_inr in H as (l & Hl & H).
  injection H as <- <-.
  pose proof (prefill_outputs_shape _ _ _ _ _ _ _ _ Hpre) as [Hplen _].
  apply attach_metrics_shape in Hl.
  assert (Hlook : outputs <$> (prefills ++ decodes) !! j
                  = Some (outputs o)).
  { rewrite <- list_lookup_fmap, <- Hl, list_lookup_fmap, Ho. reflexivity. }
  rewrite lookup_app_l in Hlook by lia.
  destruct (prefills !! j) as [o'|] eqn:Ho'; [| discriminate].
  cbn in Hlook. injection Hlook as Hsame.
  destruct (prefill_outputs_entries _ _ _ _ _ _ _ _ Hpre j o' Ho')
    as (a & sg & n & Hout & Hrest).
  exists a, sg, n. rewrite <- Hsame. split; [exact Hout |].
  cbn [Nat.add] in Hrest. exact Hrest.
Qed.

Lemma create_output_sampler_list_prefill_entries_witness :
  exists outs t' o a,
    _create_output_sampler_list (Scenarios.plain_assembler true)
      (Tracker ∅ ∅) Scenarios.mixed_batch
      (Tensor2 3 [[50; -1; -1]; [61; 62; -1]]) [] None 2 = inr (outs, t')
    /\ (0 < leading_prompts Scenarios.mixed_batch)%nat
    /\ outs !! 0%nat = Some o
    /\ outputs o = [Created a]
    /\ sgo_token_id a = 50.
Proof.
  destruct (create_output_sampler_list_prefill_entries
              (Scenarios.plain_assembler true) (Tracker ∅ ∅) _
              Scenarios.mixed_batch
              (Tensor2 3 [[50; -1; -1]; [61; 62; -1]]) [] None 2 _
              eq_refl 0%nat _ ltac:(cbn; lia) eq_refl)
    as (a & sg & n & Hout & Hsg & _ & _ & _ & _ & Htok & _).
  eexists _, _, _, a.
  split; [reflexivity |]. split; [cbn; lia |].
  split; [reflexivity |]. split; [exact Hout |].
  injection Hsg as <-. cbn in Htok.
  destruct Htok as (row & Hrow & Htok).
  injection Hrow as <-. injection Htok as <-. reflexivity.
Defined.

Lemma prefill_outputs_metrics (accepted_token_ids : tensor2)
    (lists : logprob_lists) (seq_ids num_logprobs_per_seq : list Z)
    (prompt_logprobs_arg : option (list (list logprobs_output)))
    (sgs : list SequenceGroupMetadata) :
  forall (i : nat) (outs : list SamplerOutput),
    prefill_outputs accepted_token_ids lists seq_ids num_logprobs_per_seq
      prompt_logprobs_arg i sgs = inr outs ->
    Forall (fun o => spec_decode_worker_metrics o = None) outs.
Proof.
  induction sgs as [|sg rest IH]; intros i outs H.
  - injection H as <-. apply Forall_nil_2.
  - cbn [prefill_outputs] in H.
    destruct (is_prompt sg); cbn [negb] in H;
      [| injection H as <-; apply Forall_nil_2].
    apply bind_inr in H as (n & _ & H).
    apply bind_inr in H as (sid & _ & H).
    apply bind_inr in H as (kw & _ & H).
    apply bind_inr in H as (plogs & _ & H).
    destruct kw as [[[[tok rk] lp] ti] tl].
    apply bind_inr in H as (tl' & Hrest & H). injection H as <-.
    apply Forall_cons. split; [reflexivity | eapply IH; exact Hrest].
Qed.

Lemma decode_outputs_metrics (sgs : list SequenceGroupMetadata)
    (by_step : list (list Z)) (lists : logprob_lists)
    (seq_ids num_logprobs_per_seq : list Z) (batch_size : nat) :
  forall (steps : list nat) (outs : list SamplerOutput),
    decode_outputs sgs by_step lists seq_ids num_logprobs_per_seq
      batch_size steps = inr outs ->
    Forall (fun o => spec_decode_worker_metrics o = None) outs.
Proof.
  induction steps as [|step rest IH]; intros outs H.
  - injection H as <-. apply Forall_nil_2.
  - cbn [decode_outputs] in H.
    apply bind_inr in H as (step_row & _ & H).
    destruct (all_decodes_padded sgs step_row);
      [injection H as <-; apply Forall_nil_2 |].
    apply bind_inr in H as (es & _ & H).
    apply bind_inr in H as (tl' & Hrest & H). injection H as <-.
    apply Forall_cons. split; [reflexivity | eapply IH; exact Hrest].
Qed.

Lemma prefill_outputs_none (accepted_token_ids : tensor2)
    (lists : logprob_lists) (seq_ids num_logprobs_per_seq : list Z)
    (prompt_logprobs_arg : option (list (list logprobs_output)))
    (sgs : list SequenceGroupMetadata) (i : nat) :
  leading_prompts sgs = 0%nat ->
  prefill_outputs accepted_token_ids lists seq_ids num_logprobs_per_seq
    prompt_logprobs_arg i sgs = inr [].
Proof.
  destruct sgs as [|sg rest]; [reflexivity |].
  cbn. destruct (is_prompt sg); [discriminate | reflexivity].
Qed.

Lemma decode_outputs_none (sgs : list SequenceGroupMetadata)
    (t : tensor2) (lists : logprob_lists)
    (seq_ids num_logprobs_per_seq : list Z) (batch_size : nat) :
  live_steps sgs (transpose t) = 0%nat ->
  decode_outputs sgs (transpose t) lists seq_ids num_logprobs_per_seq
    batch_size (seq 0 (ncols t)) = inr [].
Proof.
  assert (Hlen : length (transpose t) = ncols t).
  { unfold transpose. rewrite length_fmap, length_seq. reflexivity. }
  destruct (transpose t) as [|row rest] eqn:Hby; cbn in Hlen.
  - rewrite <- Hlen. reflexivity.
  - rewrite <- Hlen. cbn.
    destruct (all_decodes_padded sgs row); [reflexivity | discriminate].
Qed.

(** X27: the metrics of a speculative step.  When
    [_create_output_sampler_list] returns, the first output carries what
    [maybe_collect_rejsample_metrics] returned and no other output carries
    metrics.  When metrics are due and the step has no output (no prompt at
    the head of the batch and every decode holding -1 at step 0), the
    assignment to [sampler_output_list[0]] raises [IndexError]. *)
Theorem create_output_sampler_list_metrics (env : assembler_env)
    (t : tracker) (sgs : list SequenceGroupMetadata)
    (accepted_token_ids : tensor2) (target_logprobs : list prob_row)
    (prompt_logprobs_arg : option (list (list logprobs_output))) (k : Z) :
  (forall outs t',
     _create_output_sampler_list env t sgs accepted_token_ids
       target_logprobs prompt_logprobs_arg k = inr (outs, t') ->
     forall j o,
       outs !! j = Some o ->
       spec_decode_worker_metrics o
       = match j with
         | O => maybe_collect_rejsample_metrics env k
         | S _ => None
         end)
  /\ (forall m,
        maybe_collect_rejsample_metrics env k = Some m ->
        leading_prompts sgs = 0%nat ->
        live_steps sgs (transpose accepted_token_ids) = 0%nat ->
        _create_output_sampler_list env t sgs accepted_token_ids
          target_logprobs prompt_logprobs_arg k = inl IndexError).
Proof.
  unfold _create_output_sampler_list.
  destruct (get_all_seq_ids_and_request_ids sgs) as [seq_ids mapping].
  split.
  - intros outs t' H j o Ho.
    apply bind_inr in H as (prefills & Hpre & H).
    apply bind_inr in H as (decodes & Hdec & H).
    apply bind_inr in H as (t1 & _ & H).
    apply bind_inr in H as (l & Hl & H).
    injection H as <- <-.
    apply prefill_outputs_metrics in Hpre.
    apply decode_outputs_metrics in Hdec.
    assert (Hall : Forall (fun o => spec_decode_worker_metrics o = None)
                          (prefills ++ decodes))
      by (apply Forall_app; split; assumption).
    unfold attach_metrics in Hl.
    destruct (maybe_collect_rejsample_metrics env k) as [m|].
    + destruct (prefills ++ decodes) as [|o0 rest]; [discriminate |].
      injection Hl as <-. apply Forall_cons in Hall as [_ Hrest].
      destruct j as [|j]; cbn in Ho.
      * injection Ho as <-. reflexivity.
      * rewrite Forall_forall in Hrest. apply Hrest.
        eapply list_elem_of_lookup_2. exact Ho.
    + injection Hl as <-. rewrite Forall_forall in Hall.
      destruct j; apply Hall; eapply list_elem_of_lookup_2; exact Ho.
  - intros m Hm Hprompts Hlive.
    rewrite (prefill_outputs_none _ _ _ _ _ _ _ Hprompts).
    cbn [mbind result_bind].
    rewrite (decode_outputs_none _ _ _ _ _ _ Hlive).
    cbn [mbind result_bind].
    destruct (_track_sequences_with_bonus_tokens seq_ids mapping
                (transpose accepted_token_ids) t) as [e|t1] eqn:Htrack.
    + apply track_sequences_raises in Htrack. subst e. reflexivity.
    + rewrite Hm. reflexivity.
Qed.

Lemma create_output_sampler_list_metrics_witness :
  _create_output_sampler_list
    {| _disable_logprobs := true;
       max_logprobs := 5;
       _create_logprob_lists_from_tensors :=
         _create_logprob_lists_from_tensors (Scenarios.plain_assembler true);
       get_all_num_logprobs := fun sgs => (fun _ => 0) <$> sgs;
       maybe_collect_rejsample_metrics := fun _ => Some 9 |}
    (Tracker ∅ ∅) [Scenarios.decode_record "req-1" 1 1]
    (Tensor2 2 [[-1; -1]]) [] None 1 = inl IndexError.
Proof.
  apply (proj2 (create_output_sampler_list_metrics
                  {| _disable_logprobs := true;
                     max_logprobs := 5;
                     _create_logprob_lists_from_tensors :=
                       _create_logprob_lists_from_tensors
                         (Scenarios.plain_assembler true);
                     get_all_num_logprobs := fun sgs => (fun _ => 0) <$> sgs;
                     maybe_collect_rejsample_metrics := fun _ => Some 9 |}
                  (Tracker ∅ ∅) [Scenarios.decode_record "req-1" 1 1]
                  (Tensor2 2 [[-1; -1]]) [] None 1) 9).
  - reflexivity.
  - reflexivity.
  - reflexivity.
Defined.

End ShapeFacts.

(** ** Sampler arguments and hidden states of the verifier *)

Module VerifierArgumentFacts.
Import PySeq PyNum DataModel Outputs Tensor Util Verifier AssemblerFacts.

Lemma build_seeded_seqs_spec (gens : gmap string Z)
    (sgs : list SequenceGroupMetadata) :
  forall (idx : nat) (d : list (nat * Z)),
    build_seeded_seqs gens idx sgs = inr d ->
    forall i g,
      (i, g) ∈ d
      <-> exists j sg, i = (idx + j)%nat /\ sgs !! j = Some sg
                       /\ seed (sampling_params sg) <> None
                       /\ gens !! request_id sg = Some g.
Proof.
  induction sgs as [|sgm rest IH]; intros idx d H i g.
  - injection H as <-. split.
    + intros Hin. apply elem_of_nil in Hin. contradiction.
    + intros (j & sg & _ & Hj & _). rewrite lookup_nil in Hj. discriminate.
  - cbn [build_seeded_seqs] in H.
    destruct (seed (sampling_params sgm)) as [sd|] eqn:Hseed.
    + destruct (gens !! request_id sgm) as [g0|] eqn:Hg; [| discriminate].
      apply bind_inr in H as (tl & Htl & H). injection H as <-.
      rewrite elem_of_cons, (IH _ _ Htl). split.
      * intros [Heq | (j & sg & -> & Hj & Hs & Hgen)].
        -- injection Heq as -> ->. exists 0%nat, sgm.
           rewrite Hseed. repeat split; [lia | discriminate | exact Hg].
        -- exists (S j), sg. repeat split; [lia | exact Hj | exact Hs
                                           | exact Hgen].
      * intros ([|j] & sg & -> & Hj & Hs & Hgen); cbn in Hj.
        -- injection Hj as <-. left. rewrite Hg in Hgen.
           injection Hgen as ->. f_equal. lia.
        -- right. exists j, sg. repeat split; [lia | exact Hj | exact Hs
                                              | exact Hgen].
    + rewrite (IH _ _ H). split.
      * intros (j & sg & -> & Hj & Hs & Hgen).
        exists (S j), sg. repeat split; [lia | exact Hj | exact Hs
                                        | exact Hgen].
      * intros ([|j] & sg & -> & Hj & Hs & Hgen); cbn in Hj.
        -- injection Hj as <-. rewrite Hseed in Hs. contradiction.
        -- exists j, sg. repeat split; [lia | exact Hj | exact Hs
                                       | exact Hgen].
Qed.

Lemma build_seeded_seqs_raises (gens : gmap string Z)
    (sgs : list SequenceGroupMetadata) :
  forall (idx : nat),
    (exists e, build_seeded_seqs gens idx sgs = inl e)
    <-> exists sg, sg ∈ sgs /\ seed (sampling_params sg) <> None
                   /\ gens !! request_id sg = None.
Proof.
  induction sgs as [|sgm rest IH]; intros idx.
  - split; [intros [e H]; discriminate |].
    intros (sg & Hin & _). apply elem_of_nil in Hin. contradiction.
  - cbn [build_seeded_seqs].
    destruct (seed (sampling_params sgm)) as [sd|] eqn:Hseed.
    + destruct (gens !! request_id sgm) as [g0|] eqn:Hg.
      * destruct (build_seeded_seqs gens (S idx) rest) as [e|tl] eqn:Htl;
          cbn.
        -- split; [| intros _; eexists; reflexivity].
           intros _.
           destruct (proj1 (IH (S idx))) as (sg & Hin & Hs & Hgen);
             [rewrite Htl; eauto |].
           exists sg. split; [apply elem_of_cons; right; exact Hin |].
           split; assumption.
        -- split; [intros [e H]; discriminate |].
           intros (sg & Hin & Hs & Hgen).
           apply elem_of_cons in Hin as [-> | Hin]; [congruence |].
           destruct (proj2 (IH (S idx))) as [e He]; [eauto |].
           rewrite Htl in He. discriminate.
      * split; [| intros _; eexists; reflexivity].
        intros _. exists sgm. split; [apply elem_of_cons; left; reflexivity |].
        rewrite Hseed. split; [discriminate | exact Hg].
    + rewrite IH. split.
      * intros (sg & Hin & Hs & Hgen). exists sg.
        split; [apply elem_of_cons; right; exact Hin |]. split; assumption.
      * intros (sg & Hin & Hs & Hgen).
        apply elem_of_cons in Hin as [-> | Hin]; [congruence |].
        exists sg. split; [exact Hin |]. split; assumption.
Qed.

Lemma build_seeded_seqs_key_error (gens : gmap string Z)
    (sgs : list SequenceGroupMetadata) :
  forall (idx : nat) (e : exception),
    build_seeded_seqs gens idx sgs = inl e -> e = KeyError.
Proof.
  induction sgs as [|sgm rest IH]; intros idx e H; [discriminate |].
  cbn [build_seeded_seqs] in H.
  destruct (seed (sampling_params sgm)).
  - destruct (gens !! request_id sgm); [| injection H as <-; reflexivity].
    destruct (build_seeded_seqs gens (S idx) rest) as [e'|tl] eqn:Htl;
      cbn in H; [| discriminate].
    injection H as <-. eapply IH. exact Htl.
  - eapply IH. exact H.
Qed.

(** X17: the [seeded_seqs] argument of the acceptance sampler.  It is
    passed only by a worker with generators and a stochastic sampler; it
    then maps exactly the positions, in the whole batch, of the records
    with a seed to the generator of their request.  Building it raises
    [KeyError], and nothing else, exactly when a record with a seed has no
    generator. *)
Theorem sampler_extra_kwargs_seeded_seqs (env : verifier_env)
    (sgs : list SequenceGroupMetadata) :
  (forall d,
     sampler_extra_kwargs env sgs = inr (Some d) ->
     sampler_is_stochastic env = true
     /\ exists gens,
          generators env = Some gens /\ gens <> ∅
          /\ forall i g,
               (i, g) ∈ d
               <-> exists sg, sgs !! i = Some sg
                              /\ seed (sampling_params sg) <> None
                              /\ gens !! request_id sg = Some g)
  /\ (forall e,
        sampler_extra_kwargs env sgs = inl e
        <-> e = KeyError
            /\ sampler_is_stochastic env = true
            /\ exists gens sg,
                 generators env = Some gens /\ gens <> ∅ /\ sg ∈ sgs
                 /\ seed (sampling_params sg) <> None
                 /\ gens !! request_id sg = None).
Proof.
  unfold sampler_extra_kwargs. split.
  - intros d H.
    destruct (generators env) as [gens|]; [| discriminate].
    destruct (bool_decide (gens = ∅)) eqn:Hempty; [discriminate |].
    apply bool_decide_eq_false_1 in Hempty.
    destruct (sampler_is_stochastic env); [| discriminate].
    apply bind_inr in H as (d' & Hd & H). injection H as <-.
    split; [reflexivity |]. exists gens.
    split; [reflexivity |]. split; [exact Hempty |].
    intros i g. rewrite (build_seeded_seqs_spec gens sgs 0 d' Hd). split.
    + intros (j & sg & -> & Hrest). exists sg. exact Hrest.
    + intros (sg & Hrest). exists i, sg. split; [reflexivity | exact Hrest].
  - intros e.
    destruct (generators env) as [gens|].
    + destruct (bool_decide (gens = ∅)) eqn:Hempty.
      * apply bool_decide_eq_true_1 in Hempty. split; [discriminate |].
        intros (_ & _ & gens' & sg & Hg & Hne & _). congruence.
      * apply bool_decide_eq_false_1 in Hempty.
        destruct (sampler_is_stochastic env).
        -- destruct (build_seeded_seqs gens 0 sgs) as [e'|d] eqn:Hd; cbn.
           ++ split.
              ** intros H. injection H as <-.
                 split; [eapply build_seeded_seqs_key_error; exact Hd |].
                 split; [reflexivity |].
                 destruct (proj1 (build_seeded_seqs_raises gens sgs 0))
                   as (sg & Hin & Hs & Hgen); [eauto |].
                 exists gens, sg. repeat split; assumption.
              ** intros (-> & _). f_equal.
                 eapply build_seeded_seqs_key_error. exact Hd.
           ++ split; [discriminate |].
              intros (_ & _ & gens' & sg & Hg & _ & Hin & Hs & Hgen).
              injection Hg as <-.
              destruct (proj2 (build_seeded_seqs_raises gens sgs 0))
                as [e' He']; [eauto |].
              rewrite Hd in He'. discriminate.
        -- split; [discriminate |]. intros (_ & Habs & _). discriminate.
    + split; [discriminate |].
      intros (_ & _ & gens' & sg & Hg & _). discriminate.
Qed.

Lemma mapM_Forall2 {A B} (f : A -> result B) (l : list A) :
  forall ys, mapM f l = inr ys -> Forall2 (fun x y => f x = inr y) l ys.
Proof.
  induction l as [|x l IH]; intros ys H.
  - injection H as <-. constructor.
  - cbn [mapM] in H.
    apply bind_inr in H as (y & Hy & H).
    apply bind_inr in H as (ys' & Hys & H). injection H as <-.
    constructor; [exact Hy | apply IH; exact Hys].
Qed.

Lemma py_getitem_Z_second_last {A} (l : list A) (x : A) :
  py_getitem_Z l (-2) = inr x ->
  (2 <= length l)%nat /\ l !! (length l - 2)%nat = Some x.
Proof.
  unfold py_getitem_Z. change (-2 <? 0) with true. cbv iota.
  destruct (Z.ltb_spec (-2 + Z.of_nat (length l)) 0) as [Hlt | Hge];
    [discriminate |].
  intros H. apply SerializerFacts.py_getitem_inr in H.
  split; [lia |].
  replace (length l - 2)%nat with (Z.to_nat (-2 + Z.of_nat (length l)))
    by lia.
  exact H.
Qed.

(** X18: the hidden states [_verify_tokens] keeps for the next step.
    There is one per record that samples, in batch order: of the
    sequences whose count of accepted tokens, less one, is not
    [VLLM_INVALID_TOKEN_ID], the hidden state at the position of the last
    accepted token, and beside it, as second-last-token hidden state, the
    hidden state at the last position but one. *)
Theorem verify_hidden_states_one_per_sampling_record (env : verifier_env)
    (sgs : list SequenceGroupMetadata) (hidden : tensor3)
    (accepted_token_ids : tensor2) (hs : HiddenStates) :
  verify_hidden_states env sgs hidden accepted_token_ids = inr hs ->
  hs_seq_group_metadata_list hs = filter (fun sg => do_sample sg = true) sgs
  /\ length (hs_hidden_states hs)
     = length (filter (fun sg => do_sample sg = true) sgs)
  /\ length (hs_second_last_token_hidden_states hs)
     = length (filter (fun sg => do_sample sg = true) sgs)
  /\ Forall2 (fun si h =>
                0 <= si.2 < Z.of_nat (nsteps hidden)
                /\ si.1 !! Z.to_nat si.2 = Some h)
       (filter (fun si => si.2 <> VLLM_INVALID_TOKEN_ID env)
               (zip (slabs hidden)
                    (accepted_index_of <$> rows accepted_token_ids)))
       (hs_hidden_states hs)
  /\ Forall2 (fun si h =>
                (2 <= length si.1)%nat
                /\ si.1 !! (length si.1 - 2)%nat = Some h)
       (filter (fun si => si.2 <> VLLM_INVALID_TOKEN_ID env)
               (zip (slabs hidden)
                    (accepted_index_of <$> rows accepted_token_ids)))
       (hs_second_last_token_hidden_states hs).
Proof.
  unfold verify_hidden_states. intros H.
  destruct (negb (bool_decide (_ = _))); [discriminate |].
  destruct (negb (bool_decide (length _ = length _))) eqn:Hkept;
    [discriminate |].
  apply negb_false_iff, bool_decide_eq_true_1 in Hkept.
  destruct (Nat.ltb (nsteps hidden) 2); [discriminate |].
  apply bind_inr in H as (second_last & Hsl & H).
  apply bind_inr in H as (states & Hst & H). injection H as <-.
  cbn [hs_seq_group_metadata_list hs_hidden_states
       hs_second_last_token_hidden_states].
  apply mapM_Forall2 in Hsl, Hst.
  split; [reflexivity |].
  split; [rewrite <- (Forall2_length _ _ _ Hst); exact Hkept |].
  split; [rewrite <- (Forall2_length _ _ _ Hsl); exact Hkept |].
  split.
  - eapply Forall2_impl; [exact Hst |].
    intros [slab i] h Hg. unfold gather_step in Hg. cbn [fst snd].
    destruct ((i <? 0) || (Z.of_nat (nsteps hidden) <=? i)) eqn:Hrange;
      [discriminate |].
    apply orb_false_elim in Hrange as [Hlo Hhi].
    apply Z.ltb_ge in Hlo. apply Z.leb_gt in Hhi.
    split; [lia |]. apply SerializerFacts.py_getitem_inr. exact Hg.
  - eapply Forall2_impl; [exact Hsl |].
    intros [slab i] h Hg. cbn [fst] in *.
    apply py_getitem_Z_second_last. exact Hg.
Qed.

Lemma verify_hidden_states_one_per_sampling_record_witness :
  exists hs,
    verify_hidden_states Scenarios.accept_all_verifier
      [Scenarios.decode_record "req-1" 1 2]
      (Tensor3 3 [[[Float64 1 0]; [Float64 2 0]; [Float64 3 0]]])
      (Tensor2 3 [[61; 62; 63]]) = inr hs
    /\ hs_hidden_states hs = [[Float64 3 0]]
    /\ hs_second_last_token_hidden_states hs = [[Float64 2 0]]
    /\ length (hs_hidden_states hs)
       = length (filter (fun sg => do_sample sg = true)
                        [Scenarios.decode_record "req-1" 1 2]).
Proof.
  eexists. split; [vm_compute; reflexivity |].
  split; [reflexivity |]. split; [reflexivity |].
  eapply (verify_hidden_states_one_per_sampling_record
            Scenarios.accept_all_verifier
            [Scenarios.decode_record "req-1" 1 2]
            (Tensor3 3 [[[Float64 1 0]; [Float64 2 0]; [Float64 3 0]]])
            (Tensor2 3 [[61; 62; 63]])).
  vm_compute. reflexivity.
Defined.

End VerifierArgumentFacts.

(** ** Construction of the worker *)

Module ConstructionFacts.
Import PySeq DataModel Outputs Tensor Util Threshold Bookkeeping Verifier
       Assembler Control Reference Construction ControlFacts DriverFacts.

Lemma creation_bind_inr {A B} (m : creation A) (f : A -> creation B) (b : B) :
  m ≫= f = inr b -> exists a, m = inr a /\ f a = inr b.
Proof.
  destruct m as [e|a]; [discriminate |]. intros H. exists a. auto.
Qed.

Lemma create_worker_flags_spec (a : create_worker_args)
    (args : worker_init_args) :
  constructor_arguments a = inr args ->
  (init_allow_zero_draft_token_step args = false
   <-> exists cfg,
         ngram_prompt_lookup_max a <= 0 /\ draft_config a = Some cfg
         /\ model_type cfg <> "mlp_speculator" /\ model_type cfg <> "medusa"
         /\ draft_tensor_parallel_size a <> 1)
  /\ (init_enable_lm_head_weight_load args = true
      <-> exists cfg,
            ngram_prompt_lookup_max a <= 0 /\ draft_config a = Some cfg
            /\ model_type cfg = "eagle"
            /\ draft_tensor_parallel_size a = 1)
  /\ (init_num_spec_prefill_steps args
      = match draft_config a with
        | Some cfg =>
            if (ngram_prompt_lookup_max a <=? 0)
               && bool_decide (model_type cfg = "deepseek_mtp")
            then n_predict cfg else 1
        | None => 1
        end).
Proof.
  unfold constructor_arguments. intros H.
  apply creation_bind_inr in H as (chosen & Hch & H).
  destruct chosen as [[[[proposer wrap] az] lm] nsps].
  injection H as <-. cbn.
  unfold choose_proposer in Hch.
  destruct (Z.ltb_spec 0 (ngram_prompt_lookup_max a)) as [Hng | Hng].
  { injection Hch as <- <- <- <- <-.
    rewrite (proj2 (Z.leb_gt _ _) Hng). cbn.
    split; [| split].
    - split; [discriminate |]. intros (cfg & Hle & _). lia.
    - split; [discriminate |]. intros (cfg & Hle & _). lia.
    - destruct (draft_config a); reflexivity. }
  rewrite (proj2 (Z.leb_le _ _) Hng). cbn [andb].
  destruct (draft_config a) as [cfg|]; [| discriminate].
  destruct (decide (model_type cfg = "mlp_speculator")) as [Hmlp | Hmlp].
  { rewrite bool_decide_eq_true_2 in Hch by assumption.
    injection Hch as <- <- <- <- <-.
    rewrite bool_decide_eq_false_2 by (rewrite Hmlp; discriminate).
    split; [| split; [| reflexivity]].
    - split; [discriminate |].
      intros (cfg' & _ & Hc & Hn & _). injection Hc as <-. contradiction.
    - split; [discriminate |].
      intros (cfg' & _ & Hc & He & _). injection Hc as <-.
      rewrite Hmlp in He. discriminate. }
  rewrite bool_decide_eq_false_2 in Hch by assumption.
  destruct (decide (model_type cfg = "medusa")) as [Hmed | Hmed].
  { rewrite bool_decide_eq_true_2 in Hch by assumption.
    injection Hch as <- <- <- <- <-.
    rewrite bool_decide_eq_false_2 by (rewrite Hmed; discriminate).
    split; [| split; [| reflexivity]].
    - split; [discriminate |].
      intros (cfg' & _ & Hc & _ & Hn & _). injection Hc as <-. contradiction.
    - split; [discriminate |].
      intros (cfg' & _ & Hc & He & _). injection Hc as <-.
      rewrite Hmed in He. discriminate. }
  rewrite bool_decide_eq_false_2 in Hch by assumption.
  apply creation_bind_inr in Hch as ([runner allow] & Hflags & Hch).
  injection Hch as <- <- <- <- <-.
  destruct (Z.eqb_spec (draft_tensor_parallel_size a) 1) as [Htp | Htp].
  - injection Hflags as <- <-.
    split; [| split; [| reflexivity]].
    + split; [discriminate |].
      intros (cfg' & _ & _ & _ & _ & Hne). contradiction.
    + rewrite bool_decide_eq_true. split.
      * intros He. exists cfg. repeat split; assumption.
      * intros (cfg' & _ & Hc & He & _). injection Hc as <-. exact He.
  - destruct (decide (model_type cfg = "eagle")) as [He | He].
    { rewrite bool_decide_eq_true_2 in Hflags by assumption. discriminate. }
    rewrite bool_decide_eq_false_2 in Hflags by assumption.
    injection Hflags as <- <-.
    split; [| split; [| reflexivity]].
    + split; [| reflexivity].
      intros _. exists cfg. repeat split; assumption.
    + rewrite bool_decide_eq_true. split; [contradiction |].
      intros (cfg' & _ & Hc & He' & _). injection Hc as <-. contradiction.
Qed.

(** X19: the flags [create_worker] derives for the worker it builds.  Steps
    without draft tokens are disallowed exactly for a [MultiStepWorker]
    draft with a TP degree other than 1; the [lm_head] weights are loaded
    exactly for an eagle draft (which then has TP degree 1); and the number
    of speculative prefill steps is [n_predict] for a deepseek_mtp draft
    and 1 for every other. *)
Theorem create_worker_flags (a : create_worker_args)
    (args : worker_init_args) :
  constructor_arguments a = inr args ->
  (init_allow_zero_draft_token_step args = false
   <-> exists cfg,
         ngram_prompt_lookup_max a <= 0 /\ draft_config a = Some cfg
         /\ model_type cfg <> "mlp_speculator" /\ model_type cfg <> "medusa"
         /\ draft_tensor_parallel_size a <> 1)
  /\ (init_enable_lm_head_weight_load args = true
      <-> exists cfg,
            ngram_prompt_lookup_max a <= 0 /\ draft_config a = Some cfg
            /\ model_type cfg = "eagle"
            /\ draft_tensor_parallel_size a = 1)
  /\ (init_num_spec_prefill_steps args
      = match draft_config a with
        | Some cfg =>
            if (ngram_prompt_lookup_max a <=? 0)
               && bool_decide (model_type cfg = "deepseek_mtp")
            then n_predict cfg else 1
        | None => 1
        end).
Proof. apply create_worker_flags_spec. Qed.

Lemma create_worker_flags_witness :
  exists args,
    constructor_arguments
      {| ngram_prompt_lookup_max := 0;
         ngram_prompt_lookup_min := 0;
         draft_config := Some {| model_type := "deepseek_mtp";
                                 n_predict := 2;
                                 max_model_len := 4096 |};
         draft_tensor_parallel_size := 1;
         target_tensor_parallel_size := 1;
         is_cuda_alike := true;
         scorer_attn_backend := "FLASH_ATTN";
         scorer_max_model_len := 4096;
         scorer_enforce_eager := true;
         disable_mqa_scorer := false;
         disable_by_batch_size_arg := None;
         draft_token_acceptance_method := "rejection_sampler";
         typical_acceptance_sampler_posterior_threshold := float_zero;
         typical_acceptance_sampler_posterior_alpha := float_zero;
         disable_logprobs := false;
         disable_log_stats := true |} = inr args
    /\ init_num_spec_prefill_steps args = 2.
Proof.
  eexists. split; [reflexivity |].
  eapply (create_worker_flags
            {| ngram_prompt_lookup_max := 0;
               ngram_prompt_lookup_min := 0;
               draft_config := Some {| model_type := "deepseek_mtp";
                                       n_predict := 2;
                                       max_model_len := 4096 |};
               draft_tensor_parallel_size := 1;
               target_tensor_parallel_size := 1;
               is_cuda_alike := true;
               scorer_attn_backend := "FLASH_ATTN";
               scorer_max_model_len := 4096;
               scorer_enforce_eager := true;
               disable_mqa_scorer := false;
               disable_by_batch_size_arg := None;
               draft_token_acceptance_method := "rejection_sampler";
               typical_acceptance_sampler_posterior_threshold := float_zero;
               typical_acceptance_sampler_posterior_alpha := float_zero;
               disable_logprobs := false;
               disable_log_stats := true |}).
  reflexivity.
Defined.

Lemma constructor_arguments_raises (a : create_worker_args) :
  (constructor_arguments a = inl NotImplementedError
   <-> exists cfg,
         ngram_prompt_lookup_max a <= 0 /\ draft_config a = Some cfg
         /\ model_type cfg = "eagle"
         /\ draft_tensor_parallel_size a <> 1)
  /\ (constructor_arguments a = inl AttributeError
      <-> ngram_prompt_lookup_max a <= 0 /\ draft_config a = None).
Proof.
  unfold constructor_arguments, choose_proposer.
  destruct (Z.ltb_spec 0 (ngram_prompt_lookup_max a)) as [Hng | Hng].
  { cbn. split; (split; [discriminate |]).
    - intros (cfg & Hle & _). lia.
    - intros (Hle & _). lia. }
  destruct (draft_config a) as [cfg|].
  2:{ cbn. split; (split; [try discriminate |]).
      - intros (cfg & _ & Hc & _). discriminate.
      - intros _. split; [assumption | reflexivity].
      - intros _. reflexivity. }
  assert (Hattr : forall X : Prop,
             (X <-> ngram_prompt_lookup_max a <= 0 /\ Some cfg = None)
             <-> ~ X).
  { intros X. split.
    - intros HX Hx. apply HX in Hx as [_ Habs]. discriminate.
    - intros Hn. split; [contradiction | intros [_ Habs]; discriminate]. }
  destruct (decide (model_type cfg = "mlp_speculator")) as [Hmlp | Hmlp].
  { rewrite bool_decide_eq_true_2 by assumption. cbn.
    split; [| apply Hattr; discriminate].
    split; [discriminate |].
    intros (cfg' & _ & Hc & He & _). injection Hc as <-.
    rewrite Hmlp in He. discriminate. }
  rewrite bool_decide_eq_false_2 by assumption.
  destruct (decide (model_type cfg = "medusa")) as [Hmed | Hmed].
  { rewrite bool_decide_eq_true_2 by assumption. cbn.
    split; [| apply Hattr; discriminate].
    split; [discriminate |].
    intros (cfg' & _ & Hc & He & _). injection Hc as <-.
    rewrite Hmed in He. discriminate. }
  rewrite bool_decide_eq_false_2 by assumption.
  destruct (Z.eqb_spec (draft_tensor_parallel_size a) 1) as [Htp | Htp].
  { cbn. split; [| apply Hattr; discriminate].
    split; [discriminate |].
    intros (cfg' & _ & _ & _ & Hne). contradiction. }
  destruct (decide (model_type cfg = "eagle")) as [He | He].
  - rewrite bool_decide_eq_true_2 by assumption. cbn.
    split; [| apply Hattr; discriminate].
    split; [| reflexivity].
    intros _. exists cfg. repeat split; assumption.
  - rewrite bool_decide_eq_false_2 by assumption. cbn.
    split; [| apply Hattr; discriminate].
    split; [discriminate |].
    intros (cfg' & _ & Hc & He' & _). injection Hc as <-. contradiction.
Qed.

Lemma choose_sampler_none (a : create_worker_args) :
  choose_sampler a = None
  <-> draft_token_acceptance_method a <> "rejection_sampler"
      /\ draft_token_acceptance_method a <> "typical_acceptance_sampler".
Proof.
  unfold choose_sampler.
  destruct (decide (draft_token_acceptance_method a = "rejection_sampler"))
    as [Hr | Hr].
  { rewrite bool_decide_eq_true_2 by assumption.
    split; [discriminate | intros [Habs _]; contradiction]. }
  rewrite bool_decide_eq_false_2 by assumption.
  destruct (decide (draft_token_acceptance_method a
                    = "typical_acceptance_sampler")) as [Ht | Ht].
  { rewrite bool_decide_eq_true_2 by assumption.
    split; [discriminate | intros [_ Habs]; contradiction]. }
  rewrite bool_decide_eq_false_2 by assumption.
  split; [intros _; split; assumption | reflexivity].
Qed.

(** X20: what [create_worker] raises.  [NotImplementedError] exactly for an
    eagle draft with a TP degree other than 1, when no n-gram lookup is
    configured.  [AttributeError] exactly when, without n-gram lookup, the
    draft's model config is [None] (the read of [hf_config]), or when the
    acceptance method is neither [rejection_sampler] nor
    [typical_acceptance_sampler] and the arguments were computed: the
    sampler is then [None] and the constructor reads
    [self.spec_decode_sampler.probs_dtype]. *)
Theorem create_worker_not_implemented (a : create_worker_args)
    (e : init_environment) :
  (create_worker a e = inl NotImplementedError
   <-> exists cfg,
         ngram_prompt_lookup_max a <= 0 /\ draft_config a = Some cfg
         /\ model_type cfg = "eagle"
         /\ draft_tensor_parallel_size a <> 1)
  /\ (create_worker a e = inl AttributeError
      <-> (ngram_prompt_lookup_max a <= 0 /\ draft_config a = None)
          \/ (draft_token_acceptance_method a <> "rejection_sampler"
              /\ draft_token_acceptance_method a
                 <> "typical_acceptance_sampler"
              /\ ~ exists cfg,
                    ngram_prompt_lookup_max a <= 0
                    /\ draft_config a = Some cfg
                    /\ model_type cfg = "eagle"
                    /\ draft_tensor_parallel_size a <> 1)).
Proof.
  destruct (constructor_arguments_raises a) as [Hni Hattr].
  unfold create_worker.
  destruct (constructor_arguments a) as [[|]|args] eqn:Hargs.
  - cbn. pose proof (proj1 Hni eq_refl) as Hcond. split.
    + split; [intros _; exact Hcond | reflexivity].
    + split; [discriminate |].
      intros [Hnone | (_ & _ & Hnot)]; [| contradiction].
      apply Hattr in Hnone. discriminate.
  - cbn. pose proof (proj1 Hattr eq_refl) as Hcond. split.
    + split; [discriminate |]. intros Hc. apply Hni in Hc. discriminate.
    + split; [intros _; left; exact Hcond | reflexivity].
  - assert (Hinit : init_spec_decode_sampler args = choose_sampler a).
    { unfold constructor_arguments in Hargs.
      destruct (choose_proposer a) as [err|chosen]; [discriminate |].
      destruct chosen as [[[[proposer wrap] az] lm] nsps].
      injection Hargs as <-. reflexivity. }
    cbn. unfold __init__. rewrite Hinit. split.
    + split.
      * destruct (choose_sampler a); discriminate.
      * intros Hc. apply Hni in Hc. discriminate.
    + split.
      * intros H. right.
        destruct (choose_sampler a) eqn:Hs; [discriminate |].
        apply choose_sampler_none in Hs as [Hr Ht].
        split; [exact Hr |]. split; [exact Ht |].
        intros Hc. apply Hni in Hc. discriminate.
      * intros [Hnone | (Hr & Ht & _)].
        -- apply Hattr in Hnone. discriminate.
        -- rewrite (proj2 (choose_sampler_none a) (conj Hr Ht)).
           reflexivity.
Qed.

(** X21: the MQA scorer stays enabled only if it was not disabled by the
    caller, the scorer's attention backend is FLASH_ATTN, the draft model's
    [max_model_len] is not below the scorer's, and the scorer runs in
    eager mode. *)
Theorem create_worker_mqa_scorer (a : create_worker_args)
    (args : worker_init_args) :
  constructor_arguments a = inr args ->
  (init_disable_mqa_scorer args = false
   <-> disable_mqa_scorer a = false
       /\ scorer_attn_backend a = "FLASH_ATTN"
       /\ (forall cfg, draft_config a = Some cfg ->
                       scorer_max_model_len a <= max_model_len cfg)
       /\ scorer_enforce_eager a = true).
Proof.
  unfold constructor_arguments. intros H.
  apply creation_bind_inr in H as (chosen & _ & H).
  destruct chosen as [[[[proposer wrap] az] lm] nsps].
  injection H as <-. cbn [init_disable_mqa_scorer].
  unfold choose_disable_mqa_scorer.
  destruct (disable_mqa_scorer a); cbn [negb].
  { split; [discriminate | intros [Habs _]; discriminate]. }
  destruct (scorer_enforce_eager a); cbn [negb].
  2:{ split; [discriminate | intros (_ & _ & _ & Habs); discriminate]. }
  destruct (decide (scorer_attn_backend a = "FLASH_ATTN")) as [Hb | Hb].
  - rewrite bool_decide_eq_true_2 by assumption. cbn [negb].
    destruct (draft_config a) as [cfg|].
    + destruct (Z.ltb_spec (max_model_len cfg) (scorer_max_model_len a))
        as [Hlt | Hge].
      * split; [discriminate |].
        intros (_ & _ & Hlen & _). specialize (Hlen cfg eq_refl). lia.
      * split; [| reflexivity]. intros _.
        repeat split; try assumption.
        intros cfg' Hc. injection Hc as <-. exact Hge.
    + split; [| reflexivity]. intros _.
      repeat split; try assumption. intros cfg' Hc. discriminate.
  - rewrite bool_decide_eq_false_2 by assumption. cbn [negb].
    assert (Hd : match draft_config a with
                 | Some cfg =>
                     if max_model_len cfg <? scorer_max_model_len a
                     then true else true
                 | None => true
                 end = true).
    { destruct (draft_config a) as [cfg|]; [| reflexivity].
      destruct (_ <? _); reflexivity. }
    rewrite Hd. split; [discriminate |].
    intros (_ & Habs & _). contradiction.
Qed.

Lemma create_worker_mqa_scorer_witness :
  init_disable_mqa_scorer
    {| init_proposer_worker := NGramWorker 1 4;
       init_maybe_wrap_worker := None;
       init_disable_mqa_scorer := true;
       init_disable_logprobs := false;
       init_disable_log_stats := true;
       init_disable_by_batch_size := None;
       init_spec_decode_sampler := Some RejectionSampler;
       init_allow_zero_draft_token_step := true;
       init_enable_lm_head_weight_load := false;
       init_num_spec_prefill_steps := 1 |} = false
  <-> false = false /\ "XFORMERS" = "FLASH_ATTN"
      /\ (forall cfg, @None draft_model_config = Some cfg ->
                      4096 <= max_model_len cfg)
      /\ true = true.
Proof.
  apply (create_worker_mqa_scorer
           {| ngram_prompt_lookup_max := 4;
              ngram_prompt_lookup_min := 1;
              draft_config := None;
              draft_tensor_parallel_size := 1;
              target_tensor_parallel_size := 1;
              is_cuda_alike := true;
              scorer_attn_backend := "XFORMERS";
              scorer_max_model_len := 4096;
              scorer_enforce_eager := true;
              disable_mqa_scorer := false;
              disable_by_batch_size_arg := None;
              draft_token_acceptance_method := "rejection_sampler";
              typical_acceptance_sampler_posterior_threshold := float_zero;
              typical_acceptance_sampler_posterior_alpha := float_zero;
              disable_logprobs := false;
              disable_log_stats := true |}).
  reflexivity.
Defined.

(** X22: a prompt step (no lookahead slot, speculation not auto-disabled)
    of a worker built by [create_worker] and [__init__].  The driver runs
    the scorer and then the proposer [n_predict] times for a deepseek_mtp
    draft, once for every other draft; a non-driver rank, for the dict of
    that step, runs the scorer and the proposer once.  The ranks make the
    same forward passes unless the draft is a deepseek_mtp model whose
    [n_predict] is not 1. *)
Theorem created_worker_prompt_step (a : create_worker_args)
    (args : worker_init_args) (e : init_environment) (w : SpecDecodeWorker)
    (c : collaborators) (req : ExecuteModelRequest) (so : scorer_output) :
  constructor_arguments a = inr args ->
  __init__ args e = inr w ->
  scorer_execute_model c = [so] ->
  num_lookahead_slots req = 0 ->
  _should_disable_all_speculation (Control.disable_by_batch_size w)
    (running_queue_size req) = false ->
  exists d,
    (execute_model w c (Some req)).1
    = Broadcast d :: ScorerExecute
      :: replicate
           (Z.to_nat
              match draft_config a with
              | Some cfg =>
                  if (ngram_prompt_lookup_max a <=? 0)
                     && bool_decide (model_type cfg = "deepseek_mtp")
                  then n_predict cfg else 1
              | None => 1
              end)
           ProposerExecute
    /\ (_run_non_driver_rank d).1 = [ScorerExecute; ProposerExecute].
Proof.
  intros Hcreate Hinit Hso Hk Hda.
  destruct (create_worker_flags_spec a args Hcreate) as (_ & _ & Hn).
  assert (Hsteps : _num_spec_prefill_steps w
                   = init_num_spec_prefill_steps args).
  { unfold __init__ in Hinit.
    destruct (init_spec_decode_sampler args); [| discriminate].
    injection Hinit as <-. reflexivity. }
  rewrite (execute_model_no_spec_trace w c req so Hso).
  - rewrite Hda, Hk, Hsteps, Hn. eexists. split; [reflexivity |].
    rewrite run_non_driver_rank_broadcast_dict. reflexivity.
  - right. right. exact Hk.
  - rewrite Hk. reflexivity.
Qed.

Lemma created_worker_prompt_step_witness :
  exists w d,
    __init__
      {| init_proposer_worker := MultiStepWorker true;
         init_maybe_wrap_worker := Some (1, 1);
         init_disable_mqa_scorer := false;
         init_disable_logprobs := false;
         init_disable_log_stats := true;
         init_disable_by_batch_size := None;
         init_spec_decode_sampler := Some RejectionSampler;
         init_allow_zero_draft_token_step := true;
         init_enable_lm_head_weight_load := false;
         init_num_spec_prefill_steps := 2 |}
      {| env_generators := None;
         env_sampler := Scenarios.accept_all_sampler;
         env_sampler_is_stochastic := true;
         env_invalid_token_id := -1;
         env_max_logprobs := 5;
         env_create_logprob_lists_from_tensors :=
           _create_logprob_lists_from_tensors
             (Scenarios.plain_assembler false);
         env_get_all_num_logprobs := fun sgs => (fun _ => 0) <$> sgs;
         env_maybe_collect_rejsample_metrics := fun _ => None |} = inr w
    /\ (execute_model w (Scenarios.replies [42])
          (Some Scenarios.prefill_request)).1
       = [Broadcast d; ScorerExecute; ProposerExecute; ProposerExecute]
    /\ (_run_non_driver_rank d).1 = [ScorerExecute; ProposerExecute].
Proof.
  eexists. 
  destruct (created_worker_prompt_step
              {| ngram_prompt_lookup_max := 0;
                 ngram_prompt_lookup_min := 0;
                 draft_config := Some {| model_type := "deepseek_mtp";
                                         n_predict := 2;
                                         max_model_len := 4096 |};
                 draft_tensor_parallel_size := 1;
                 target_tensor_parallel_size := 1;
                 is_cuda_alike := true;
                 scorer_attn_backend := "FLASH_ATTN";
                 scorer_max_model_len := 4096;
                 scorer_enforce_eager := true;
                 disable_mqa_scorer := false;
                 disable_by_batch_size_arg := None;
                 draft_token_acceptance_method := "rejection_sampler";
                 typical_acceptance_sampler_posterior_threshold := float_zero;
                 typical_acceptance_sampler_posterior_alpha := float_zero;
                 disable_logprobs := false;
                 disable_log_stats := true |}
              _
              {| env_generators := None;
                 env_sampler := Scenarios.accept_all_sampler;
                 env_sampler_is_stochastic := true;
                 env_invalid_token_id := -1;
                 env_max_logprobs := 5;
                 env_create_logprob_lists_from_tensors :=
                   _create_logprob_lists_from_tensors
                     (Scenarios.plain_assembler false);
                 env_get_all_num_logprobs := fun sgs => (fun _ => 0) <$> sgs;
                 env_maybe_collect_rejsample_metrics := fun _ => None |}
              _ (Scenarios.replies [42]) Scenarios.prefill_request
              (Scenarios.scorer_reply [42])
              eq_refl eq_refl eq_refl eq_refl eq_refl)
    as (d & Htrace & Hother).
  exists d. split; [reflexivity |]. split; [exact Htrace | exact Hother].
Defined.

End ConstructionFacts.

(** ** The division by the number of lookahead slots *)

Module DivisionFacts.
Import PySeq PyNum DataModel Outputs Tensor Util Threshold Bookkeeping
       Verifier Assembler Control Reference.

Lemma no_zde_bind {A B} (m : result A) (f : A -> result B) :
  m <> inl ZeroDivisionError ->
  (forall a, f a <> inl ZeroDivisionError) ->
  m ≫= f <> inl ZeroDivisionError.
Proof.
  intros Hm Hf. destruct m as [e|a]; [| apply Hf].
  intros H. apply Hm. cbn in H. injection H as ->. reflexivity.
Qed.

Lemma no_zde_getitem {A} (l : list A) (i : nat) :
  py_getitem l i <> inl ZeroDivisionError.
Proof. unfold py_getitem. destruct (l !! i); discriminate. Qed.

Lemma no_zde_getitem_Z {A} (l : list A) (i : Z) :
  py_getitem_Z l i <> inl ZeroDivisionError.
Proof.
  unfold py_getitem_Z. destruct (_ <? 0); [discriminate |].
  apply no_zde_getitem.
Qed.

Lemma no_zde_last {A} (l : list A) : py_last l <> inl ZeroDivisionError.
Proof. unfold py_last. destruct (last l); discriminate. Qed.

Lemma no_zde_mapM {A B} (f : A -> result B) (l : list A) :
  (forall a, f a <> inl ZeroDivisionError) ->
  mapM f l <> inl ZeroDivisionError.
Proof.
  intros Hf. induction l as [|x l IH]; [discriminate |].
  cbn [mapM]. apply no_zde_bind; [apply Hf |]. intros y.
  apply no_zde_bind; [exact IH |]. discriminate.
Qed.

(** Case analysis for computations none of whose steps divides. *)
Ltac no_zde :=
  repeat first
    [ assumption
    | apply no_zde_getitem
    | apply no_zde_getitem_Z
    | apply no_zde_last
    | apply no_zde_mapM; intros ?
    | apply no_zde_bind; [| intros ?]
    | match goal with
      | |- (if ?b then _ else _) <> _ => destruct b
      | |- (match ?x with _ => _ end) <> _ => destruct x
      end
    | discriminate ].

Lemma no_zde_at2 {A} (xs : list (list A)) (i j : nat) :
  at2 xs i j <> inl ZeroDivisionError.
Proof. unfold at2. no_zde. Qed.

Lemma no_zde_track_finished (finished : list string) (t : tracker) :
  _track_finished_requests finished t <> inl ZeroDivisionError.
Proof.
  rewrite BookkeepingFacts.track_finished_closed_form. discriminate.
Qed.

Lemma no_zde_track_sequences (seq_ids : list Z) (m : gmap string (gset Z))
    (by_step : list (list Z)) (t : tracker) :
  _track_sequences_with_bonus_tokens seq_ids m by_step t
  <> inl ZeroDivisionError.
Proof.
  intros H. apply TrackingFacts.track_sequences_raises in H. discriminate.
Qed.

Lemma no_zde_serialize (invalid : Z) (sgs : list SequenceGroupMetadata)
    (sampled : tensor2) :
  _serialize_sampler_output_no_logprobs invalid sgs sampled
  <> inl ZeroDivisionError.
Proof.
  unfold _serialize_sampler_output_no_logprobs.
  apply no_zde_bind; [| discriminate].
  intros H. apply SerializerFacts.serialize_loop_raises in H. discriminate.
Qed.

Lemma no_zde_build_seeded_seqs (gens : gmap string Z)
    (sgs : list SequenceGroupMetadata) (idx : nat) :
  build_seeded_seqs gens idx sgs <> inl ZeroDivisionError.
Proof.
  intros H.
  apply VerifierArgumentFacts.build_seeded_seqs_key_error in H.
  discriminate.
Qed.

Lemma no_zde_prefill_outputs (accepted_token_ids : tensor2)
    (lists : logprob_lists) (seq_ids num_logprobs_per_seq : list Z)
    (prompt_logprobs_arg : option (list (list logprobs_output)))
    (sgs : list SequenceGroupMetadata) :
  forall i,
    prefill_outputs accepted_token_ids lists seq_ids num_logprobs_per_seq
      prompt_logprobs_arg i sgs <> inl ZeroDivisionError.
Proof.
  induction sgs as [|sg rest IH]; intros i; [discriminate |].
  cbn [prefill_outputs].
  destruct (negb (is_prompt sg)); [discriminate |].
  apply no_zde_bind; [apply no_zde_getitem |]. intros n.
  apply no_zde_bind; [apply no_zde_getitem |]. intros sid.
  apply no_zde_bind.
  { destruct (do_sample sg); [| discriminate].
    repeat (apply no_zde_bind; [apply no_zde_at2 | intros ?]).
    discriminate. }
  intros kw.
  apply no_zde_bind.
  { unfold prefill_plogs. no_zde. }
  intros plogs. destruct kw as [[[[tok rk] lp] ti] tl].
  apply no_zde_bind; [apply IH |]. discriminate.
Qed.

Lemma no_zde_decode_step (sgs : list SequenceGroupMetadata)
    (by_step : list (list Z)) (lists : logprob_lists)
    (seq_ids num_logprobs_per_seq : list Z) (step_index : nat) :
  forall indices,
    decode_step sgs by_step lists seq_ids num_logprobs_per_seq step_index
      indices <> inl ZeroDivisionError.
Proof.
  induction indices as [|i rest IH]; [discriminate |].
  cbn [decode_step].
  apply no_zde_bind; [apply no_zde_getitem |]. intros seq_meta.
  destruct (is_prompt seq_meta); [exact IH |].
  apply no_zde_bind; [apply no_zde_getitem |]. intros n.
  repeat (apply no_zde_bind; [apply no_zde_at2 | intros ?]).
  apply no_zde_bind; [apply no_zde_getitem |]. intros sid.
  repeat (apply no_zde_bind; [apply no_zde_at2 | intros ?]).
  apply no_zde_bind; [exact IH |]. discriminate.
Qed.

Lemma no_zde_decode_outputs (sgs : list SequenceGroupMetadata)
    (by_step : list (list Z)) (lists : logprob_lists)
    (seq_ids num_logprobs_per_seq : list Z) (batch_size : nat) :
  forall steps,
    decode_outputs sgs by_step lists seq_ids num_logprobs_per_seq
      batch_size steps <> inl ZeroDivisionError.
Proof.
  induction steps as [|step rest IH]; [discriminate |].
  cbn [decode_outputs].
  apply no_zde_bind; [apply no_zde_getitem |]. intros row.
  destruct (all_decodes_padded sgs row); [discriminate |].
  apply no_zde_bind; [apply no_zde_decode_step |]. intros es.
  apply no_zde_bind; [exact IH |]. discriminate.
Qed.

Lemma no_zde_create_output (env : assembler_env) (t : tracker)
    (sgs : list SequenceGroupMetadata) (accepted_token_ids : tensor2)
    (target_logprobs : list prob_row)
    (prompt_logprobs_arg : option (list (list logprobs_output))) (k : Z) :
  _create_output_sampler_list env t sgs accepted_token_ids target_logprobs
    prompt_logprobs_arg k <> inl ZeroDivisionError.
Proof.
  unfold _create_output_sampler_list.
  destruct (get_all_seq_ids_and_request_ids sgs) as [seq_ids mapping].
  apply no_zde_bind; [apply no_zde_prefill_outputs |]. intros prefills.
  apply no_zde_bind; [apply no_zde_decode_outputs |]. intros decodes.
  apply no_zde_bind; [apply no_zde_track_sequences |]. intros t1.
  apply no_zde_bind; [| discriminate].
  unfold attach_metrics. no_zde.
Qed.

Lemma no_zde_verify_tokens (env : verifier_env)
    (sgs : list SequenceGroupMetadata) (scores : SpeculativeScores)
    (proposals : SpeculativeProposals) (k : Z) :
  (forall call, spec_decode_sampler env call <> inl ZeroDivisionError) ->
  _verify_tokens env sgs scores proposals k <> inl ZeroDivisionError.
Proof.
  intros Hsampler. unfold _verify_tokens.
  apply no_zde_bind.
  { unfold verify_accepted. apply no_zde_bind.
    - unfold verify_concat.
      destruct (split_batch_by_proposal_len sgs (proposal_lens proposals))
        as [[spec_seqs spec] [non_spec_seqs non_spec]].
      unfold index_select, index_rows, index_rows_last_col, index_select.
      apply no_zde_bind; [no_zde |]. intros vp.
      apply no_zde_bind; [no_zde |]. intros ns.
      apply no_zde_bind; [no_zde |]. intros bonus.
      apply no_zde_bind; [no_zde |]. intros pp.
      apply no_zde_bind; [no_zde |]. intros pt.
      apply no_zde_bind.
      { unfold sampler_extra_kwargs.
        destruct (generators env) as [gens|]; [| discriminate].
        destruct (bool_decide (gens = ∅)); [discriminate |].
        destruct (sampler_is_stochastic env); [| discriminate].
        apply no_zde_bind; [apply no_zde_build_seeded_seqs | discriminate]. }
      intros extra.
      apply no_zde_bind; [apply Hsampler |]. intros sampled.
      apply no_zde_bind; [unfold expand_cols; no_zde |]. intros expanded.
      apply no_zde_bind; [unfold cat; no_zde | discriminate].
    - intros concat. unfold index_put. no_zde. }
  intros accepted.
  destruct (hidden_states scores) as [hidden|]; [| discriminate].
  apply no_zde_bind; [| discriminate].
  unfold verify_hidden_states.
  destruct (negb _); [discriminate |].
  destruct (negb _); [discriminate |].
  destruct (Nat.ltb _ _); [discriminate |].
  apply no_zde_bind; [no_zde |]. intros sl.
  apply no_zde_bind; [| discriminate].
  apply no_zde_mapM. intros [slab i]. unfold gather_step. no_zde.
Qed.

Lemma no_zde_traced_bind {A B} (m : traced A) (f : A -> traced B) :
  m.2 <> inl ZeroDivisionError ->
  (forall a, (f a).2 <> inl ZeroDivisionError) ->
  (m ≫= f).2 <> inl ZeroDivisionError.
Proof.
  intros Hm Hf. unfold mbind, traced_bind.
  destruct m as [tr [e|a]]; cbn in *; [| apply Hf].
  intros H. apply Hm. injection H as ->. reflexivity.
Qed.

Lemma no_zde_repeat_n (n : nat) (e : event) :
  (repeat_n n (emit e)).2 <> inl ZeroDivisionError.
Proof. rewrite ControlFacts.repeat_n_emit. discriminate. Qed.

(** X28: a step of the driver never divides by zero.  The proposal time
    is divided by [num_lookahead_slots] in
    [_run_speculative_decoding_step], which [execute_model] enters only
    with [num_lookahead_slots] other than 0; nothing else in the step
    divides, so [ZeroDivisionError] can come out of the acceptance
    sampler only. *)
Theorem execute_model_never_divides_by_zero (w : SpecDecodeWorker)
    (c : collaborators) (req : option ExecuteModelRequest) :
  (forall call,
     spec_decode_sampler (verifier w) call <> inl ZeroDivisionError) ->
  (execute_model w c req).2 <> inl ZeroDivisionError.
Proof.
  intros Hsampler. destruct req as [req|]; [| discriminate].
  unfold execute_model.
  apply no_zde_traced_bind; [apply no_zde_track_finished |]. intros t.
  cbv zeta.
  apply no_zde_traced_bind; [destruct (_ && _); discriminate |]. intros _.
  apply no_zde_traced_bind; [discriminate |]. intros _.
  destruct (num_lookahead_slots req =? 0) eqn:Hk; cbn [orb].
  - apply no_zde_traced_bind; [| discriminate].
    unfold _run_no_spec.
    apply no_zde_traced_bind; [discriminate |]. intros _.
    apply no_zde_traced_bind.
    { cbn. destruct (scorer_execute_model c) as [|so [|]]; discriminate. }
    intros so.
    apply no_zde_traced_bind.
    { unfold when. destruct (negb _); [apply no_zde_repeat_n |
                                      discriminate]. }
    intros _.
    destruct (_disable_logprobs _); [apply no_zde_serialize | discriminate].
  - match goal with
    | |- (if ?b then _ else _).2 <> _ => destruct b
    end.
    + apply no_zde_traced_bind; [| discriminate].
      unfold _run_no_spec.
      apply no_zde_traced_bind; [discriminate |]. intros _.
      apply no_zde_traced_bind.
      { cbn. destruct (scorer_execute_model c) as [|so [|]]; discriminate. }
      intros so.
      apply no_zde_traced_bind.
      { unfold when. destruct (negb _); [apply no_zde_repeat_n |
                                        discriminate]. }
      intros _.
      destruct (_disable_logprobs _); [apply no_zde_serialize
                                      | discriminate].
    + unfold _run_speculative_decoding_step.
      apply no_zde_traced_bind; [apply no_zde_repeat_n |]. intros _.
      apply no_zde_traced_bind; [destruct (_ && _); discriminate |].
      intros _.
      apply no_zde_traced_bind; [discriminate |]. intros _.
      destruct (split_batch_by_proposal_len _ _)
        as [spec [non_spec_seqs non_spec_indices]].
      apply no_zde_traced_bind.
      { cbn [lift snd]. no_zde. }
      intros flags.
      apply no_zde_traced_bind.
      { unfold when. destruct (existsb id flags); discriminate. }
      intros _.
      apply no_zde_traced_bind.
      { cbn [lift snd]. apply no_zde_verify_tokens. exact Hsampler. }
      intros [[accepted target_logprobs] hs].
      rewrite Hk.
      apply no_zde_traced_bind; [discriminate |]. intros _.
      apply no_zde_traced_bind; [| discriminate].
      cbn [lift snd]. apply no_zde_create_output.
Qed.

Lemma execute_model_never_divides_by_zero_witness :
  (execute_model (Scenarios.worker_without_logprobs 3)
     Scenarios.mixed_replies (Some Scenarios.mixed_request)).2
  <> inl ZeroDivisionError.
Proof.
  apply (execute_model_never_divides_by_zero
           (Scenarios.worker_without_logprobs 3) Scenarios.mixed_replies
           (Some Scenarios.mixed_request)).
  intros call. discriminate.
Defined.

End DivisionFacts.

(** ** The bonus-token set after a step of the driver *)

Module StepBookkeepingFacts.
Import PySeq DataModel Outputs Tensor Util Threshold Bookkeeping Verifier
       Assembler Control Reference StepState BookkeepingFacts TrackingFacts
       AssemblerFacts DisabledLogprobsFacts.

Lemma finish_request_owned (t : tracker) (r : string) :
  bonus_ids_owned t -> bonus_ids_owned (finish_request t r).
Proof.
  intros Hown s Hs. unfold finish_request in *. cbn in *.
  apply elem_of_difference in Hs as [Hs Hnot].
  destruct (Hown s Hs) as (r0 & seqs & Hr0 & Hin).
  exists r0, seqs. split; [| exact Hin].
  rewrite lookup_delete_ne; [exact Hr0 |].
  intros ->. rewrite Hr0 in Hnot. contradiction.
Qed.

Lemma foldl_finish_request_owned (finished : list string) (t : tracker) :
  bonus_ids_owned t -> bonus_ids_owned (foldl finish_request t finished).
Proof.
  revert t. induction finished as [|r rest IH]; intros t Hown; [exact Hown |].
  cbn. apply IH, finish_request_owned, Hown.
Qed.

(** The first loop of [_track_sequences_with_bonus_tokens] leaves the
    membership of the ids outside the batch as it was. *)
Lemma track_bonus_loop_others (by_step : list (list Z)) :
  forall (seq_ids : list Z) (i0 : nat) (bonus bonus' : gset Z),
    track_bonus_loop by_step i0 seq_ids bonus = inr bonus' ->
    forall s, s ∉ seq_ids -> s ∈ bonus' <-> s ∈ bonus.
Proof.
  induction seq_ids as [|x rest IH]; intros i0 bonus bonus' H s Hs.
  - injection H as <-. reflexivity.
  - cbn [track_bonus_loop] in H.
    apply bind_inr in H as (row & _ & H).
    apply bind_inr in H as (tok & _ & H).
    apply not_elem_of_cons in Hs as [Hne Hs].
    rewrite (IH _ _ _ H s Hs).
    destruct (tok =? -1); set_solver.
Qed.

Lemma track_sequences_bonus_loop
    (seq_ids : list Z) (m : gmap string (gset Z))
    (by_step : list (list Z)) (t t' : tracker) :
  _track_sequences_with_bonus_tokens seq_ids m by_step t = inr t' ->
  track_bonus_loop by_step 0 seq_ids (_seq_with_bonus_token_in_last_step t)
  = inr (_seq_with_bonus_token_in_last_step t').
Proof.
  unfold _track_sequences_with_bonus_tokens. intros H.
  destruct (track_bonus_loop _ _ _ _) as [e|bonus]; [discriminate |].
  injection H as <-. reflexivity.
Qed.

(** After the tracking of a batch, an id of the batch is in the bonus set
    exactly when the last element of its accepted-token row is not -1. *)
Lemma tracked_membership (seq_ids : list Z) (m : gmap string (gset Z))
    (accepted_token_ids : tensor2) (t t' : tracker) :
  _track_sequences_with_bonus_tokens seq_ids m
    (transpose accepted_token_ids) t = inr t' ->
  wf_tensor2 accepted_token_ids ->
  NoDup seq_ids ->
  forall i s row,
    seq_ids !! i = Some s ->
    rows accepted_token_ids !! i = Some row ->
    s ∈ _seq_with_bonus_token_in_last_step t'
    <-> exists tok, last row = Some tok /\ tok <> -1.
Proof.
  intros Htrack Hwf Hnd i s row Hi Hrow.
  apply track_sequences_bonus_loop in Htrack.
  destruct (proj1 (track_bonus_loop_returns_iff
                     (transpose accepted_token_ids) seq_ids 0
                     (_seq_with_bonus_token_in_last_step t)))
    as [Hnil | (last_row & Hlast & Hlen)]; [eauto | |].
  { rewrite Hnil, lookup_nil in Hi. discriminate. }
  destruct (ncols accepted_token_ids) as [|n] eqn:Hn.
  { unfold transpose in Hlast. rewrite Hn in Hlast. discriminate. }
  rewrite (transpose_last accepted_token_ids n Hn) in Hlast.
  injection Hlast as <-.
  destruct (track_bonus_loop_spec _ _
              (transpose_last accepted_token_ids n Hn) seq_ids 0%nat
              (_seq_with_bonus_token_in_last_step t) Hnd Hlen)
    as (bonus' & Hrun & Hin & _).
  rewrite Htrack in Hrun. injection Hrun as <-.
  assert (Hrow_last : last row = Some (default 0 (row !! n))).
  { apply (wf_row_last accepted_token_ids); try assumption.
    apply list_elem_of_lookup. eauto. }
  rewrite (Hin i s (default 0 (row !! n)) Hi).
  - rewrite Hrow_last. split.
    + intros Hne. eexists. split; [reflexivity | exact Hne].
    + intros (tok & Heq & Hne). injection Heq as ->. exact Hne.
  - cbn. rewrite list_lookup_fmap, Hrow. reflexivity.
Qed.

(** The request map built for a batch holds, for every record, a set with
    the record's sequence ids. *)
Lemma request_map_mono (sgs : list SequenceGroupMetadata) :
  forall (acc : gmap string (gset Z)) (r : string) (seqs0 : gset Z),
    acc !! r = Some seqs0 ->
    exists seqs,
      foldl (fun acc sg =>
               <[request_id sg :=
                   default ∅ (acc !! request_id sg)
                   ∪ list_to_set (fst <$> seq_data sg)]> acc) acc sgs !! r
      = Some seqs
      /\ seqs0 ⊆ seqs.
Proof.
  induction sgs as [|sg rest IH]; intros acc r seqs0 Hr.
  - exists seqs0. split; [exact Hr | reflexivity].
  - cbn [foldl].
    destruct (decide (request_id sg = r)) as [<- | Hne].
    + edestruct IH as (seqs & Hseqs & Hsub); [apply lookup_insert_eq |].
      exists seqs. split; [exact Hseqs |].
      rewrite Hr in Hsub. cbn in Hsub. set_solver.
    + edestruct IH as (seqs & Hseqs & Hsub);
        [rewrite lookup_insert_ne by exact Hne; exact Hr |].
      exists seqs. split; [exact Hseqs | exact Hsub].
Qed.

Lemma request_map_holds_batch (sgs : list SequenceGroupMetadata) :
  forall (acc : gmap string (gset Z)) (sg : SequenceGroupMetadata) (s : Z),
    sg ∈ sgs -> s ∈ fst <$> seq_data sg ->
    exists seqs,
      foldl (fun acc sg =>
               <[request_id sg :=
                   default ∅ (acc !! request_id sg)
                   ∪ list_to_set (fst <$> seq_data sg)]> acc) acc sgs
      !! request_id sg = Some seqs
      /\ s ∈ seqs.
Proof.
  induction sgs as [|sg0 rest IH]; intros acc sg s Hsg Hs.
  - apply elem_of_nil in Hsg. contradiction.
  - cbn [foldl]. apply elem_of_cons in Hsg as [-> | Hsg].
    + edestruct (request_map_mono rest) as (seqs & Hseqs & Hsub);
        [apply lookup_insert_eq |].
      exists seqs. split; [exact Hseqs |].
      apply Hsub. apply elem_of_union. right.
      apply elem_of_list_to_set. exact Hs.
    + apply IH; assumption.
Qed.

Lemma batch_ids_owned (sgs : list SequenceGroupMetadata) (s : Z) :
  s ∈ batch_seq_ids sgs ->
  exists r seqs,
    (get_all_seq_ids_and_request_ids sgs).2 !! r = Some seqs /\ s ∈ seqs.
Proof.
  unfold batch_seq_ids, get_all_seq_ids_and_request_ids. cbn [fst snd].
  intros Hs. apply list_elem_of_bind in Hs as (sg & Hs & Hsg).
  destruct (request_map_holds_batch sgs ∅ sg s Hsg Hs) as (seqs & Hm & Hin).
  exists (request_id sg), seqs. split; assumption.
Qed.

(** Tracking a batch keeps every id of the bonus set owned. *)
Lemma track_sequences_owned (sgs : list SequenceGroupMetadata)
    (by_step : list (list Z)) (t t' : tracker) :
  bonus_ids_owned t ->
  _track_sequences_with_bonus_tokens (batch_seq_ids sgs)
    (get_all_seq_ids_and_request_ids sgs).2 by_step t = inr t' ->
  bonus_ids_owned t'.
Proof.
  intros Hown Htrack s Hs.
  pose proof (track_sequences_mapping_lookup _ _ _ _ _ Htrack) as Hmap.
  destruct (decide (s ∈ batch_seq_ids sgs)) as [Hin | Hnin].
  - destruct (batch_ids_owned sgs s Hin) as (r & seqs & Hr & Hsr).
    exists r. eexists. rewrite Hmap, Hr. split; [reflexivity |].
    apply elem_of_union. right. exact Hsr.
  - apply (track_bonus_loop_others _ _ _ _ _
             (track_sequences_bonus_loop _ _ _ _ _ Htrack) s Hnin) in Hs.
    destruct (Hown s Hs) as (r & seqs & Hr & Hsr).
    exists r. rewrite Hmap, Hr.
    destruct ((get_all_seq_ids_and_request_ids sgs).2 !! r) as [seqs'|].
    + eexists. split; [reflexivity |]. cbn.
      apply elem_of_union. left. exact Hsr.
    + exists seqs. split; [reflexivity | exact Hsr].
Qed.

Lemma request_map_keys (sgs : list SequenceGroupMetadata) :
  forall (acc : gmap string (gset Z)) (r : string),
    acc !! r = None ->
    (forall sg, sg ∈ sgs -> request_id sg <> r) ->
    foldl (fun acc sg =>
             <[request_id sg :=
                 default ∅ (acc !! request_id sg)
                 ∪ list_to_set (fst <$> seq_data sg)]> acc) acc sgs !! r
    = None.
Proof.
  induction sgs as [|sg rest IH]; intros acc r Hr Hne; [exact Hr |].
  cbn [foldl]. apply IH.
  - rewrite lookup_insert_ne; [exact Hr |].
    apply Hne. apply elem_of_cons. left. reflexivity.
  - intros sg' Hsg'. apply Hne. apply elem_of_cons. right. exact Hsg'.
Qed.

(** How a step that returns leaves the bookkeeping: as the cleanup of the
    finished requests left it when the step ran without speculation,
    otherwise as the tracking of the verified batch left it. *)
Lemma execute_model_bookkeeping (w w' : SpecDecodeWorker)
    (c : collaborators) (req : ExecuteModelRequest) (tr : list event)
    (outs : list SamplerOutput) :
  execute_model w c (Some req) = (tr, inr (outs, w')) ->
  (step_no_spec w req = true
   /\ bookkeeping w'
      = foldl finish_request (bookkeeping w) (finished_requests_ids req))
  \/ (step_no_spec w req = false
      /\ exists accepted target_logprobs hs,
           _verify_tokens (verifier w) (seq_group_metadata_list req)
             (score_proposals c) (get_spec_proposals c)
             (num_lookahead_slots req)
           = inr (accepted, target_logprobs, hs)
           /\ _track_sequences_with_bonus_tokens
                (batch_seq_ids (seq_group_metadata_list req))
                (get_all_seq_ids_and_request_ids
                   (seq_group_metadata_list req)).2
                (transpose accepted)
                (foldl finish_request (bookkeeping w)
                   (finished_requests_ids req))
              = inr (bookkeeping w')).
Proof.
  intros Hrun. apply (f_equal snd) in Hrun. cbn [snd] in Hrun.
  unfold execute_model in Hrun.
  rewrite track_finished_closed_form in Hrun.
  apply traced_bind_inr in Hrun as (t & Ht & H).
  cbn in Ht. injection Ht as <-.
  apply traced_bind_inr in H as (? & _ & H).
  apply traced_bind_inr in H as (? & _ & H).
  cbn [disable_by_batch_size with_bookkeeping] in H.
  fold (step_no_spec w req) in H.
  destruct (step_no_spec w req) eqn:Hns.
  - left. split; [reflexivity |].
    apply traced_bind_inr in H as (out & _ & H).
    cbn in H. injection H as _ <-. reflexivity.
  - right. split; [reflexivity |].
    unfold step_no_spec in Hns.
    apply orb_false_elim in Hns as [Hns _].
    apply orb_false_elim in Hns as [_ Hda].
    rewrite Hda in H. cbn [_maybe_disable_speculative_tokens negb] in H.
    unfold _maybe_disable_speculative_tokens in H. cbn [negb] in H.
    unfold _run_speculative_decoding_step in H.
    apply traced_bind_inr in H as (? & _ & H).
    apply traced_bind_inr in H as (? & _ & H).
    apply traced_bind_inr in H as (? & _ & H).
    destruct (split_batch_by_proposal_len _ _)
      as [spec [non_spec_seqs non_spec_indices]].
    apply traced_bind_inr in H as (flags & _ & H).
    apply traced_bind_inr in H as (? & _ & H).
    apply traced_bind_inr in H as ([[accepted target_logprobs] hs] & Hver & H).
    apply traced_bind_inr in H as (? & _ & H).
    apply traced_bind_inr in H as ([l t'] & Hout & H).
    cbn in H. injection H as _ <-. cbn in Hver, Hout.
    exists accepted, target_logprobs, hs. split; [exact Hver |].
    unfold _create_output_sampler_list in Hout.
    unfold batch_seq_ids, get_all_seq_ids_and_request_ids. cbn [fst snd].
    apply bind_inr in Hout as (prefills & _ & Hout).
    apply bind_inr in Hout as (decodes & _ & Hout).
    apply bind_inr in Hout as (t1 & Htrack & Hout).
    apply bind_inr in Hout as (l' & _ & Hout).
    injection Hout as _ <-. exact Htrack.
Qed.

(** A step that returns keeps every id of the bonus set owned, and so does
    every sequence of such steps. *)
Lemma execute_model_owned (w w' : SpecDecodeWorker) (c : collaborators)
    (req : ExecuteModelRequest) (tr : list event)
    (outs : list SamplerOutput) :
  execute_model w c (Some req) = (tr, inr (outs, w')) ->
  bonus_ids_owned (bookkeeping w) -> bonus_ids_owned (bookkeeping w').
Proof.
  intros Hrun Hown.
  destruct (execute_model_bookkeeping _ _ _ _ _ _ Hrun)
    as [[_ Hbook] | (_ & accepted & tl & hs & _ & Htrack)].
  - rewrite Hbook. apply foldl_finish_request_owned, Hown.
  - eapply track_sequences_owned; [| exact Htrack].
    apply foldl_finish_request_owned, Hown.
Qed.

Lemma steps_keep_bonus_ids_owned (w0 w : SpecDecodeWorker) :
  steps_from w0 w ->
  bonus_ids_owned (bookkeeping w0) -> bonus_ids_owned (bookkeeping w).
Proof.
  induction 1 as [| w w' c req tr outs _ IH Hrun]; intros Hown;
    [exact Hown |].
  eapply execute_model_owned; [exact Hrun | apply IH, Hown].
Qed.

Lemma empty_tracker_owned : bonus_ids_owned (Tracker ∅ ∅).
Proof. intros s Hs. cbn in Hs. set_solver. Qed.

(** In every state a worker built by [create_worker] reaches, each id of
    the bonus set belongs to a request of the request map. *)
Lemma created_worker_bonus_ids_owned (a : Construction.create_worker_args)
    (e : Construction.init_environment) (w0 w : SpecDecodeWorker) :
  Construction.create_worker a e = inr w0 ->
  steps_from w0 w ->
  bonus_ids_owned (bookkeeping w).
Proof.
  intros Hcreate Hsteps.
  apply (steps_keep_bonus_ids_owned w0 w Hsteps).
  unfold Construction.create_worker in Hcreate.
  destruct (Construction.constructor_arguments a) as [err|args];
    [discriminate |].
  cbn in Hcreate. unfold Construction.__init__ in Hcreate.
  destruct (Construction.init_spec_decode_sampler args); [| discriminate].
  injection Hcreate as <-. exact empty_tracker_owned.
Qed.

(** C4: the bonus-token set across a step of the driver.  At the start of
    the step the cleanup of the finished requests always returns; it
    removes from the set every sequence id the request map holds for a
    finished request and drops the entries of the finished requests.  When
    the step returns: if it ran without speculation the bookkeeping is what
    the cleanup left; if it reached the output assembler, a sequence id of
    the batch is in the set exactly when the last element of its
    accepted-token row is not -1 (for distinct ids and a rectangular
    tensor), the ids outside the batch keep the membership the cleanup
    left, and the request map holds every sequence id of the batch under
    its request.  So the map ties the set to the tracked batches: if every
    id of the set belonged to a request of the map before the step, so it
    does after the cleanup and after the step; no id of a request finished
    at this step stays in the set unless a record of the batch carries it;
    no finished request keeps an entry unless the batch holds one of its
    records; and the entry of a request that is not finished keeps every
    sequence id it had, so the ids tracked for a request are those its
    finish removes. *)
Theorem C4_bonus_token_set_membership (w : SpecDecodeWorker)
    (c : collaborators) (req : ExecuteModelRequest) :
  exists t1,
    _track_finished_requests (finished_requests_ids req) (bookkeeping w)
    = inr t1
    /\ (forall r seqs s,
          r ∈ finished_requests_ids req ->
          _request_id_seq_id_mapping (bookkeeping w) !! r = Some seqs ->
          s ∈ seqs ->
          s ∉ _seq_with_bonus_token_in_last_step t1)
    /\ (forall r, r ∈ finished_requests_ids req ->
                  _request_id_seq_id_mapping t1 !! r = None)
    /\ (bonus_ids_owned (bookkeeping w) -> bonus_ids_owned t1)
    /\ forall tr outs w',
         execute_model w c (Some req) = (tr, inr (outs, w')) ->
         (bonus_ids_owned (bookkeeping w) ->
          bonus_ids_owned (bookkeeping w'))
         /\ (forall r seqs s,
               r ∈ finished_requests_ids req ->
               _request_id_seq_id_mapping (bookkeeping w) !! r = Some seqs ->
               s ∈ seqs ->
               s ∉ batch_seq_ids (seq_group_metadata_list req) ->
               s ∉ _seq_with_bonus_token_in_last_step (bookkeeping w'))
         /\ (forall r,
               r ∈ finished_requests_ids req ->
               (forall sg, sg ∈ seq_group_metadata_list req ->
                           request_id sg <> r) ->
               _request_id_seq_id_mapping (bookkeeping w') !! r = None)
         /\ (forall r seqs,
               r ∉ finished_requests_ids req ->
               _request_id_seq_id_mapping (bookkeeping w) !! r = Some seqs ->
               exists seqs',
                 _request_id_seq_id_mapping (bookkeeping w') !! r
                 = Some seqs'
                 /\ seqs ⊆ seqs')
         /\ (step_no_spec w req = true -> bookkeeping w' = t1)
         /\ (step_no_spec w req = false ->
             exists accepted target_logprobs hs,
               _verify_tokens (verifier w) (seq_group_metadata_list req)
                 (score_proposals c) (get_spec_proposals c)
                 (num_lookahead_slots req)
               = inr (accepted, target_logprobs, hs)
               /\ (wf_tensor2 accepted ->
                   NoDup (batch_seq_ids (seq_group_metadata_list req)) ->
                   forall i s row,
                     batch_seq_ids (seq_group_metadata_list req) !! i
                     = Some s ->
                     rows accepted !! i = Some row ->
                     s ∈ _seq_with_bonus_token_in_last_step (bookkeeping w')
                     <-> exists tok, last row = Some tok /\ tok <> -1)
               /\ (forall s,
                     s ∉ batch_seq_ids (seq_group_metadata_list req) ->
                     s ∈ _seq_with_bonus_token_in_last_step (bookkeeping w')
                     <-> s ∈ _seq_with_bonus_token_in_last_step t1)
               /\ (forall sg s,
                     sg ∈ seq_group_metadata_list req ->
                     s ∈ fst <$> seq_data sg ->
                     exists seqs,
                       _request_id_seq_id_mapping (bookkeeping w')
                       !! request_id sg = Some seqs
                       /\ s ∈ seqs)).
Proof.
  exists (foldl finish_request (bookkeeping w) (finished_requests_ids req)).
  split; [apply track_finished_closed_form |].
  split; [intros r seqs s; apply foldl_finish_request_drops |].
  assert (Hgone : forall r, r ∈ finished_requests_ids req ->
                            _request_id_seq_id_mapping
                              (foldl finish_request (bookkeeping w)
                                 (finished_requests_ids req)) !! r = None).
  { intros r Hr. rewrite foldl_finish_request_mapping.
    rewrite bool_decide_eq_true_2 by assumption. reflexivity. }
  split; [exact Hgone |].
  split; [apply foldl_finish_request_owned |].
  intros tr outs w' Hrun.
  destruct (execute_model_bookkeeping _ _ _ _ _ _ Hrun)
    as [[Hns Hbook] | (Hns & accepted & tl & hs & Hver & Htrack)].
  - rewrite Hbook.
    split; [apply foldl_finish_request_owned |].
    split; [intros r seqs s Hr Hm Hs _;
            eapply foldl_finish_request_drops; eassumption |].
    split; [intros r Hr _; apply Hgone; exact Hr |].
    split.
    { intros r seqs Hr Hm. exists seqs. split; [| reflexivity].
      rewrite foldl_finish_request_mapping.
      rewrite bool_decide_eq_false_2 by assumption. exact Hm. }
    split; [reflexivity |].
    rewrite Hns. discriminate.
  - pose proof (track_bonus_loop_others _ _ _ _ _
                  (track_sequences_bonus_loop _ _ _ _ _ Htrack))
      as Hothers.
    pose proof (track_sequences_mapping_lookup _ _ _ _ _ Htrack) as Hmap.
    split.
    { intros Hown. eapply track_sequences_owned; [| exact Htrack].
      apply foldl_finish_request_owned. exact Hown. }
    split.
    { intros r seqs s Hr Hm Hs Hnin. rewrite (Hothers s Hnin).
      eapply foldl_finish_request_drops; eassumption. }
    split.
    { intros r Hr Hne. rewrite Hmap.
      unfold get_all_seq_ids_and_request_ids. cbn [snd].
      rewrite (request_map_keys _ ∅ r (lookup_empty r) Hne).
      apply Hgone. exact Hr. }
    split.
    { intros r seqs Hr Hm. rewrite Hmap.
      rewrite foldl_finish_request_mapping.
      rewrite bool_decide_eq_false_2 by assumption. rewrite Hm.
      destruct ((get_all_seq_ids_and_request_ids
                   (seq_group_metadata_list req)).2 !! r) as [seqs'|];
        eexists; (split; [reflexivity |]); cbn; set_solver. }
    split; [rewrite Hns; discriminate |].
    intros _. exists accepted, tl, hs.
    split; [exact Hver |].
    split; [intros Hwf Hnd; eapply tracked_membership; eassumption |].
    split; [exact Hothers |].
    intros sg s Hsg Hs. rewrite Hmap.
    unfold get_all_seq_ids_and_request_ids. cbn [snd].
    destruct (request_map_holds_batch _ ∅ sg s Hsg Hs) as (seqs & Hm & Hin).
    rewrite Hm. eexists. split; [reflexivity |].
    apply elem_of_union. right. exact Hin.
Qed.

Lemma C4_witness :
  exists tr outs w',
    execute_model Scenarios.worker_with_bonus_token Scenarios.mixed_replies
      (Some Scenarios.mixed_request_after_finish) = (tr, inr (outs, w'))
    /\ 1 ∈ _seq_with_bonus_token_in_last_step (bookkeeping w')
    /\ 9 ∉ _seq_with_bonus_token_in_last_step (bookkeeping w')
    /\ _request_id_seq_id_mapping (bookkeeping w') !! "req-9" = None.
Proof.
  destruct (C4_bonus_token_set_membership Scenarios.worker_with_bonus_token
              Scenarios.mixed_replies Scenarios.mixed_request_after_finish)
    as (t1 & _ & _ & _ & _ & Hstep).
  eexists _, _, _. split; [vm_compute; reflexivity |].
  edestruct Hstep as (_ & Hfinished & Hentry & _ & _ & Hspec);
    [vm_compute; reflexivity |].
  destruct (Hspec eq_refl) as (accepted & tl & hs & Hver & Hmember & _).
  vm_compute in Hver. injection Hver as <- _ _.
  split; [| split].
  - apply (Hmember ltac:(repeat constructor)
                   ltac:(vm_compute; repeat constructor; set_solver)
                   1%nat 1 [61; 62; 63] eq_refl eq_refl).
    exists 63. split; [reflexivity | discriminate].
  - apply (Hfinished "req-9" {[9]} 9).
    + apply list_elem_of_here.
    + reflexivity.
    + set_solver.
    + vm_compute. set_solver.
  - apply Hentry.
    + apply list_elem_of_here.
    + intros sg Hsg. vm_compute in Hsg.
      apply elem_of_cons in Hsg as [-> | Hsg]; [discriminate |].
      apply elem_of_cons in Hsg as [-> | Hsg]; [discriminate |].
      apply elem_of_nil in Hsg. contradiction.
Defined.

End StepBookkeepingFacts.
